(** * Kernel parser of matxscript: a shallow embedding and its properties

    The embedded sources are [python/matx/kernel/parser.py] (the kernel
    parser, its AST visitor and the shape-symbol extraction) and
    [python/matx/inductor/__init__.py] (the [from_source] driver).

    Python objects are modelled by records and inductive types, Python
    dictionaries by insertion-ordered association lists, Python lists used
    as stacks by Rocq lists whose LAST element is the top (as [list.append],
    [list.pop] and index [-1] have it), and the mutable state of the visitor
    by a state-and-exception monad in which a raised exception keeps the
    state reached so far. What the code prints is left out. *)

From Stdlib Require Import List String Ascii ZArith Bool Lia.
Import ListNotations.

Set Warnings "-register-all".
Open Scope string_scope.
Open Scope list_scope.

(* ================================================================== *)
(** ** Python lists used as stacks *)

Module PyList.
Section PyList.
Context {A : Type}.

(** [l.pop()]: removes and returns the last element; [None] stands for
  the [IndexError] of an empty list. *)
Fixpoint pop (l : list A) : option (list A * A) :=
match l with
| [] => None
| x :: l' =>
    match pop l' with
    | None => Some ([], x)
    | Some (r, y) => Some (x :: r, y)
    end
end.

(** [l[-1]] *)
Definition top (l : list A) : option A :=
match pop l with
| Some (_, x) => Some x
| None => None
end.

(** [l.append(x)] *)
Definition append (l : list A) (x : A) : list A := l ++ [x].

(** [l[-1] = f(l[-1])]: in-place change of the last element. *)
Definition map_top (f : A -> A) (l : list A) : option (list A) :=
match pop l with
| Some (r, x) => Some (append r (f x))
| None => None
end.
End PyList.
End PyList.

(* ================================================================== *)
(** ** Python dictionaries with string keys

    Insertion order is part of a Python [dict]: assigning to an existing
    key keeps its position, assigning to a new key appends it. *)

Module Dict.
Section Dict.
Context {V : Type}.

Definition t := list (string * V).

Definition empty : t := [].

(** [d[k]]; [None] stands for [KeyError]. *)
Fixpoint getitem (d : t) (k : string) : option V :=
match d with
| [] => None
| (k', v) :: d' => if String.eqb k k' then Some v else getitem d' k
end.

(** [d[k] = v] *)
Fixpoint setitem (d : t) (k : string) (v : V) : t :=
match d with
| [] => [(k, v)]
| (k', v') :: d' =>
    if String.eqb k k' then (k', v) :: d' else (k', v') :: setitem d' k v
end.

(** [k in d] *)
Definition contains (d : t) (k : string) : bool :=
match getitem d k with Some _ => true | None => false end.

Definition keys (d : t) : list string := map fst d.
Definition values (d : t) : list V := map snd d.

(** [d.update(other)] *)
Definition update (d other : t) : t :=
fold_left (fun acc kv => setitem acc (fst kv) (snd kv)) other d.
End Dict.
Arguments t : clear implicits.
End Dict.

(* ================================================================== *)
(** ** Declared types of kernel parameters *)

(** Modelled from the spec: the shape dimensions of [matx.kernel.typing]
    array types and [is_symbol] of [matx.kernel.symbol] are not part of the
    sources at hand. A dimension is either a concrete integer or a symbolic
    (non-concrete) value; a symbolic value is given by what [str] prints for
    it and by a tag that tells apart distinct symbolic objects printing the
    same text (symbols that differ in their assumptions only). *)
Inductive dim : Type :=
| DimInt (n : Z)
| DimSymbolic (printed : string) (tag : nat).

Definition is_symbol (d : dim) : bool :=
  match d with
  | DimInt _ => false
  | DimSymbolic _ _ => true
  end.

(** [str(s)] for a dimension; integers never reach it in the code. *)
Definition str_dim (d : dim) : string :=
  match d with
  | DimInt _ => "<int>"
  | DimSymbolic p _ => p
  end.

Definition dim_eq_dec (x y : dim) : {x = y} + {x <> y}.
Proof.
  decide equality;
    first [apply Z.eq_dec | apply Nat.eq_dec | apply string_dec].
Defined.

(** An annotation [dtype[shape]]: the element kind, given by the text
    [dtype_str()] returns for it, and the ordered shape. *)
Record ArrayType : Type := mkArrayType {
  dtype_str : string;
  shape : list dim
}.

(** The host function object as [inspect.signature] shows it. *)
Record PyFunction : Type := mkPyFunction {
  fn__name__ : string;
  fn_file : string;
  fn_parameters : list (string * ArrayType);
  fn_return_annotation : ArrayType
}.

(* ================================================================== *)
(** ** Shape-symbol extraction and [KernelParser.__init__] *)

(** [extract_symbol_from_type]: the set of the symbolic dimensions of the
    shape, then the dictionary comprehension over that set. The iteration
    order of a Python set is not specified; [nodup] fixes one. *)
Definition extract_symbol_from_type (t : ArrayType) : Dict.t dim :=
  let symbols := nodup dim_eq_dec (filter is_symbol (shape t)) in
  fold_left (fun d s => Dict.setitem d (str_dim s) s) symbols Dict.empty.

Record KernelParser : Type := mkKernelParser {
  kp_func : PyFunction;
  kp_func_name : string;
  kp_file_name : string;
  kp_args : Dict.t ArrayType;
  kp_return_types : ArrayType;
  kp_symbols : Dict.t dim
}.

Definition KernelParser_init (func : PyFunction) : KernelParser :=
  let args :=
    fold_left (fun d kv => Dict.setitem d (fst kv) (snd kv))
              (fn_parameters func) Dict.empty in
  let symbols :=
    fold_left (fun acc arg_type =>
                 Dict.update acc (extract_symbol_from_type arg_type))
              (Dict.values args) Dict.empty in
  {| kp_func := func;
     kp_func_name := fn__name__ func;
     kp_file_name := fn_file func;
     kp_args := args;
     kp_return_types := fn_return_annotation func;
     kp_symbols := symbols |}.

(* ================================================================== *)
(** ** Exceptions and outcomes *)

Inductive exn_kind : Type :=
| NotImplementedError
| SyntaxError
| AssertionError
| AttributeError
| IndexError
| KeyError
| TypeError
| GenericException            (* the builtin [Exception] itself *)
| OtherError (name : string).

(** An exception object: the class named by the [raise] statement, the
    message it is given ([str(e)]; the printed form of an interpolated
    object is left out of the text), [__cause__], [__context__] (the
    exception that was being handled when this one was raised, which the
    interpreter attaches by itself) and [__suppress_context__]. *)
Inductive exn : Type :=
| mkExn (kind : exn_kind) (msg : string) (cause : option exn)
        (context : option exn) (suppress_context : bool).

(** What [raise kind(msg)] raises while no exception is being handled. *)
Definition Exn (kind : exn_kind) (msg : string) (cause : option exn) : exn :=
  mkExn kind msg cause None false.

Definition exn_kind_of (e : exn) : exn_kind :=
  match e with mkExn k _ _ _ _ => k end.

Definition str_exn (e : exn) : string :=
  match e with mkExn _ m _ _ _ => m end.

Definition exn_cause (e : exn) : option exn :=
  match e with mkExn _ _ c _ _ => c end.

Definition exn_context (e : exn) : option exn :=
  match e with mkExn _ _ _ c _ => c end.

Definition exn_suppress_context (e : exn) : bool :=
  match e with mkExn _ _ _ _ b => b end.

(** What a call produces. [OutOfFuel] is not a Python outcome: it marks a
    run of the model cut short by its recursion bound. *)
Inductive outcome (A : Type) : Type :=
| Ok (a : A)
| Raise (e : exn)
| OutOfFuel.
Arguments Ok {A} a.
Arguments Raise {A} e.
Arguments OutOfFuel {A}.

(* ================================================================== *)
(** ** The Python syntax tree

    One type for all nodes, as [visit] takes any [ast.AST]. A node carries
    the fields the visitor reads. [Other cls children] is a node of any
    class named [cls] without the fields of the kinds above: every kind of
    the [ast] module that has no constructor of its own here ([Tuple],
    [Subscript], [Expr], [Pass], [While], [Module], ...). Operators are
    given by the class name of the operator node. *)

Inductive number : Type :=
| NInt (z : Z)
| NBool (b : bool)
| NFloat (repr : string)
| NComplex (repr : string).

Inductive constant : Type :=
| CNone
| CNum (n : number)
| CStr (s : string)
| CBytes (s : string)
| CEllipsis.

Inductive node : Type :=
| FunctionDef (lineno : Z) (name : string) (body : list node)
| Return (lineno : option Z) (value : option node)
| Constant (value : constant)
| Name (id : string)
| UnaryOp (op : string) (operand : node)
| BinOp (left : node) (op : string) (right : node)
| BoolOp (op : string) (values : list node)
| Compare (left : node) (ops : list string) (comparators : list node)
| Call (func : node) (args : list node) (keywords : list node)
| keyword (arg : option string) (value : node)
| Attribute (value : node) (attr : string)
| Assign (targets : list node) (value : node)
| AnnAssign (target : node) (annotation : node) (value : option node)
| AugAssign (target : node) (op : string) (value : node)
| If (test : node) (body : list node) (orelse : list node)
| For (target : node) (iter : node) (body : list node) (orelse : list node)
| Other (cls : string) (children : list node).

(** [node.__class__.__name__] *)
Definition class_name (n : node) : string :=
  match n with
  | FunctionDef _ _ _ => "FunctionDef"
  | Return _ _ => "Return"
  | Constant _ => "Constant"
  | Name _ => "Name"
  | UnaryOp _ _ => "UnaryOp"
  | BinOp _ _ _ => "BinOp"
  | BoolOp _ _ => "BoolOp"
  | Compare _ _ _ => "Compare"
  | Call _ _ _ => "Call"
  | keyword _ _ => "keyword"
  | Attribute _ _ => "Attribute"
  | Assign _ _ => "Assign"
  | AnnAssign _ _ _ => "AnnAssign"
  | AugAssign _ _ _ => "AugAssign"
  | If _ _ _ => "If"
  | For _ _ _ _ => "For"
  | Other cls _ => cls
  end.

(** [isinstance(last_ast, ast.Return)], with [None] for [last_ast = None]. *)
Definition isinstance_Return (last_ast : option node) : bool :=
  match last_ast with
  | Some (Return _ _) => true
  | _ => false
  end.

(* ================================================================== *)
(** ** The IR the visitor builds

    The constructors of [matx.ir] are recorded as data. [ExternExpr] and
    [ExternStmt] are IR nodes built by collaborators (operator lowering
    strategies, type adaption), known by a description only. *)

Record Span : Type := mkSpan {
  span_file_name : string;
  span_lineno : Z;
  span_func_name : string;
  span_source_code : string
}.

Inductive var_type : Type :=
| DtypeStr (s : string)              (* a dtype given as text *)
| PrimType (s : string).             (* [_ir.PrimType(s)] *)

Record PrimVar : Type := mkPrimVar {
  var_name : string;
  var_ty : var_type;
  var_span : option Span
}.

Inductive ir_type : Type :=
| NDArrayType
| OtherType (name : string).

Inductive expr : Type :=
| NoneExpr
| IRConst (v : number) (dtype : string)
| VarExpr (v : PrimVar)
| HLOCast (ty : option ir_type) (value : expr)
| ExternExpr (what : string).

Inductive stmt : Type :=
| ReturnStmt (value : option expr) (span : option Span)
| SeqStmt (seq : list stmt) (span : Span)
| ExternStmt (what : string).

Record Function : Type := mkFunction {
  fn_params : list PrimVar;
  fn_default_params : list expr;
  fn_body : stmt;
  fn_ret_type : ir_type;
  fn_span : Span
}.

(** The last statement of a function body: of a sequence its last
    element, of any other statement the statement itself. *)
Definition final_stmt (s : stmt) : option stmt :=
  match s with
  | SeqStmt seq _ => PyList.top seq
  | _ => Some s
  end.

(** Modelled from the spec: [decl_buffer] of [matx.ir.tensor_stmt] is not
    part of the sources at hand; a buffer is a storage descriptor, of which
    the shape it is declared with is kept. *)
Record Buffer : Type := mkBuffer { buffer_shape : list Z }.

Definition decl_buffer (shape : list Z) : Buffer := mkBuffer shape.

(** The values a visitor method returns. *)
Inductive pyval : Type :=
| VNone
| VStr (s : string)
| VExpr (e : expr)
| VStmt (s : stmt)
| VFunction (f : Function)
| VList (l : list pyval)
| VTuple (l : list pyval).

(** [ndarrayType_to_ndarray]: the argument is not looked at. *)
Definition ndarrayType_to_ndarray {T : Type} (t : T) : ir_type := NDArrayType.

(* ================================================================== *)
(** ** Collaborators of the visitor that are given from outside *)

(** The lowering strategy [OpRegistry.get_bin_operator] returns, as it is
    called by [visit_BinOp]. *)
Definition op_func : Type :=
  PrimVar -> PrimVar -> Buffer -> Buffer -> option Buffer ->
  ArrayType -> ArrayType -> outcome pyval.

Record Collaborators : Type := mkCollaborators {
  (** [_type_infer(value).dtype] of a numeric literal; it raises on a
      literal it has no type for *)
  type_infer_dtype : number -> outcome string;
  (** [_ir.const(value, dtype)], which fails on a value the IR cannot
      hold *)
  ir_const : number -> string -> outcome expr;
  (** [_type_rel.smart_adapt_to(expr, type)] *)
  smart_adapt_to : expr -> option ir_type -> outcome expr;
  (** [OpRegistry.get_bin_operator(lhs_t, rhs_t, opname)] *)
  get_bin_operator : ArrayType -> ArrayType -> string -> outcome op_func;
  (** the value a new [ScopeContext] has in [func_ret_type] *)
  initial_func_ret_type : option ir_type;
  (** the exception [raise SyntaxError(msg, operand)] ends in. The second
      argument of the builtin is meant for a source position (file name,
      line, offset, text): on an operand of that shape the exception is
      the [SyntaxError], on any other one the constructor fails and its
      own exception is the one raised. *)
  syntax_error_with : string -> pyval -> exn
}.

(* ================================================================== *)
(** ** Scope context *)

(** Modelled from the spec: [ScopeContext] of [matx.script.context] is not
    part of the sources at hand. It is a stack of frames, each with a
    worklist of statements not visited yet (reversed when the frame is
    made, so that taking from its end follows the source order) and a
    symbol table; new bindings go to the innermost frame. It also carries
    the parameter list and the return type of the function lowered. *)
Record ScopeContext : Type := mkScopeContext {
  node_stack : list (list node);
  symbols : list (Dict.t PrimVar);
  func_params : list PrimVar;
  func_ret_type : option ir_type
}.

(** [ScopeContext()] *)
Definition ScopeContext_new (c : Collaborators) : ScopeContext :=
  {| node_stack := [];
     symbols := [];
     func_params := [];
     func_ret_type := initial_func_ret_type c |}.

(** [ctx.new_scope(nodes=nodes)] *)
Definition new_scope (nodes : list node) (ctx : ScopeContext) : ScopeContext :=
  {| node_stack := PyList.append (node_stack ctx) (rev nodes);
     symbols := PyList.append (symbols ctx) Dict.empty;
     func_params := func_params ctx;
     func_ret_type := func_ret_type ctx |}.

(** [ctx.pop_scope()]; [None] stands for the [IndexError] of an empty
    stack. *)
Definition pop_scope (ctx : ScopeContext) : option ScopeContext :=
  match PyList.pop (symbols ctx), PyList.pop (node_stack ctx) with
  | Some (syms, _), Some (nodes, _) =>
      Some {| node_stack := nodes;
              symbols := syms;
              func_params := func_params ctx;
              func_ret_type := func_ret_type ctx |}
  | _, _ => None
  end.

(** [ctx.update_symbol(name, symbol)] *)
Definition update_symbol (name : string) (symbol : PrimVar)
    (ctx : ScopeContext) : option ScopeContext :=
  match PyList.map_top (fun d => Dict.setitem d name symbol) (symbols ctx) with
  | Some syms =>
      Some {| node_stack := node_stack ctx;
              symbols := syms;
              func_params := func_params ctx;
              func_ret_type := func_ret_type ctx |}
  | None => None
  end.

(** [ctx.func_params.append(v)] *)
Definition append_func_param (v : PrimVar) (ctx : ScopeContext) : ScopeContext :=
  {| node_stack := node_stack ctx;
     symbols := symbols ctx;
     func_params := PyList.append (func_params ctx) v;
     func_ret_type := func_ret_type ctx |}.

Definition with_node_stack (ns : list (list node)) (ctx : ScopeContext)
    : ScopeContext :=
  {| node_stack := ns;
     symbols := symbols ctx;
     func_params := func_params ctx;
     func_ret_type := func_ret_type ctx |}.

(* ================================================================== *)
(** ** The visitor: what is fixed at construction and what is mutated *)

(** [context.ASTNode] as far as the visitor reads it: the span of the
    root and [context.name]. *)
Record ASTNode : Type := mkASTNode {
  root_span : Span;
  context_name : string
}.

(** The attributes of [KernelNodeVisitor] set in [__init__] and never
    assigned again. *)
Record KernelNodeVisitor : Type := mkKernelNodeVisitor {
  kernel_p : KernelParser;
  custom_ast_node : ASTNode;
  collab : Collaborators
}.

(** The attributes of [KernelNodeVisitor] that change while it runs. *)
Record VState : Type := mkVState {
  self_context : option ScopeContext;
  session_handle_var_ctx : list PrimVar;
  buffer_table : Dict.t Buffer;
  return_buffer : option Buffer
}.

(** The state [__init__] leaves. *)
Definition initial_state : VState :=
  {| self_context := None;
     session_handle_var_ctx := [];
     buffer_table := Dict.empty;
     return_buffer := None |}.

(* ================================================================== *)
(** ** The state-and-exception monad of the visitor *)

Definition M (A : Type) : Type := VState -> outcome A * VState.

Definition ret {A : Type} (a : A) : M A := fun s => (Ok a, s).

Definition bind {A B : Type} (m : M A) (k : A -> M B) : M B :=
  fun s =>
    match m s with
    | (Ok a, s') => k a s'
    | (Raise e, s') => (Raise e, s')
    | (OutOfFuel, s') => (OutOfFuel, s')
    end.

Definition raise {A : Type} (k : exn_kind) (msg : string) : M A :=
  fun s => (Raise (Exn k msg None), s).

Definition out_of_fuel {A : Type} : M A := fun s => (OutOfFuel, s).

(** A call of a collaborator: its outcome, the state untouched. *)
Definition lift {A : Type} (o : outcome A) : M A := fun s => (o, s).

Definition get_state : M VState := fun s => (Ok s, s).

Definition put_state (s' : VState) : M unit := fun _ => (Ok tt, s').

Declare Scope visitor_scope.
Delimit Scope visitor_scope with visitor.
Notation "x <- m ;; k" := (bind m (fun x => k))
  (at level 61, m at next level, right associativity) : visitor_scope.
Notation "m ;;; k" := (bind m (fun _ => k))
  (at level 61, right associativity) : visitor_scope.
Open Scope visitor_scope.

(** [self.context], an attribute access on which fails when it is [None]. *)
Definition get_context : M ScopeContext :=
  s <- get_state ;;
  match self_context s with
  | Some ctx => ret ctx
  | None => raise AttributeError "'NoneType' object has no attribute"
  end.

Definition set_context (ctx : ScopeContext) : M unit :=
  s <- get_state ;;
  put_state {| self_context := Some ctx;
               session_handle_var_ctx := session_handle_var_ctx s;
               buffer_table := buffer_table s;
               return_buffer := return_buffer s |}.

(** An operation of the scope context that raises [IndexError] on an empty
    stack. *)
Definition modify_context (f : ScopeContext -> option ScopeContext) : M unit :=
  ctx <- get_context ;;
  match f ctx with
  | Some ctx' => set_context ctx'
  | None => raise IndexError "list index out of range"
  end.

Definition push_handle_var (handle_var : PrimVar) : M unit :=
  s <- get_state ;;
  put_state {| self_context := self_context s;
               session_handle_var_ctx :=
                 PyList.append (session_handle_var_ctx s) handle_var;
               buffer_table := buffer_table s;
               return_buffer := return_buffer s |}.

Definition pop_handle_var : M unit :=
  s <- get_state ;;
  match PyList.pop (session_handle_var_ctx s) with
  | Some (rest, _) =>
      put_state {| self_context := self_context s;
                   session_handle_var_ctx := rest;
                   buffer_table := buffer_table s;
                   return_buffer := return_buffer s |}
  | None => raise IndexError "pop from empty list"
  end.

(** [self.buffer_table[arg] = buf] *)
Definition set_buffer (arg : string) (buf : Buffer) : M unit :=
  s <- get_state ;;
  put_state {| self_context := self_context s;
               session_handle_var_ctx := session_handle_var_ctx s;
               buffer_table := Dict.setitem (buffer_table s) arg buf;
               return_buffer := return_buffer s |}.

(** [self.return_buffer = buf] *)
Definition set_return_buffer (buf : Buffer) : M unit :=
  s <- get_state ;;
  put_state {| self_context := self_context s;
               session_handle_var_ctx := session_handle_var_ctx s;
               buffer_table := buffer_table s;
               return_buffer := Some buf |}.

(* ================================================================== *)
(** ** [KernelNodeVisitor] *)

(** [build_span] for a node at line [lineno]. *)
Definition build_span (self : KernelNodeVisitor) (lineno : Z) : Span :=
  let root := root_span (custom_ast_node self) in
  {| span_file_name := span_file_name root;
     span_lineno := span_lineno root + lineno - 1;
     span_func_name := context_name (custom_ast_node self);
     span_source_code := span_source_code root |}.

(** Reading a field the node does not have. *)
Definition attribute_error {A : Type} : M A :=
  raise AttributeError "object has no attribute".

(** [generic_visit] *)
Definition generic_visit (n : node) : M pyval :=
  raise NotImplementedError "This node is not supported now: ".

(** What the [else] branch of [_get_type] raises. *)
Definition unable_to_find_type (self : KernelNodeVisitor) (operand : pyval)
    : exn :=
  syntax_error_with (collab self) "unable to find the type of" operand.

(** [_get_type] *)
Definition _get_type (self : KernelNodeVisitor) (operand : pyval)
    : outcome ArrayType :=
  match operand with
  | VStr name =>
      match Dict.getitem (kp_args (kernel_p self)) name with
      | Some result => Ok result
      | None => Raise (unable_to_find_type self operand)
      end
  | _ => Raise (unable_to_find_type self operand)
  end.

(** [d[key]] for a key that is a value returned by a visitor method. *)
Definition subscript {V : Type} (d : Dict.t V) (key : pyval) : M V :=
  match key with
  | VStr k =>
      match Dict.getitem d k with
      | Some v => ret v
      | None => raise KeyError k
      end
  | VList _ => raise TypeError "unhashable type: 'list'"
  | _ => raise KeyError "key"
  end.

(** [to_seq_stmt] *)
Definition to_seq_stmt (body : list stmt) (span : Span) : stmt :=
  match body with
  | [] => SeqStmt body span
  | [s] => s
  | _ => SeqStmt body span
  end.

(** The [while] loop of [parse_body], [n] bounding its iterations.
    It carries [body] and [last_ast]. *)
Fixpoint parse_body_loop (visit : node -> M pyval) (n : nat)
    (body : list stmt) (last_ast : option node)
    : M (list stmt * option node) :=
  match n with
  | O => out_of_fuel
  | S n' =>
      ctx <- get_context ;;
      match PyList.pop (node_stack ctx) with
      | None => raise IndexError "list index out of range"
      | Some (below, frame) =>
          match PyList.pop frame with
          | None => ret (body, last_ast)
          | Some (frame', last) =>
              set_context
                (with_node_stack (PyList.append below frame') ctx) ;;;
              res <- visit last ;;
              match res with
              | VNone => parse_body_loop visit n' body (Some last)
              | VStmt s =>
                  parse_body_loop visit n' (PyList.append body s) (Some last)
              | _ => raise SyntaxError "Every IR node here should be a stmt!"
              end
          end
      end
  end.

(** [parse_body]. What [visit] gives for [ast.Return(value=None)] is
    appended as it is; it is always a statement. *)
Definition parse_body (visit : node -> M pyval) (n : nat)
    (auto_add_return : bool) : M (list stmt) :=
  r <- parse_body_loop visit n [] None ;;
  let body := fst r in
  let last_ast := snd r in
  if auto_add_return
     && ((List.length body =? 0)%nat || negb (isinstance_Return last_ast))
  then
    res <- visit (Return None None) ;;
    match res with
    | VStmt s => ret (PyList.append body s)
    | _ => raise TypeError "not a Stmt"
    end
  else ret body.

Definition pointer_var_name : string := "handle_2_71828182846".

Definition pointer_var : PrimVar :=
  mkPrimVar pointer_var_name (PrimType "handle") None.

(** The loop of [visit_FunctionDef] over [self.kernel_p.args.items()]. *)
Fixpoint declare_params (self : KernelNodeVisitor) (span : Span)
    (items : list (string * ArrayType)) : M unit :=
  match items with
  | [] => ret tt
  | (arg, type_annotation) :: rest =>
      match Dict.getitem (kp_args (kernel_p self)) arg with
      | None => raise KeyError arg
      | Some t =>
          let arg_var := mkPrimVar arg (DtypeStr (dtype_str t)) (Some span) in
          modify_context (update_symbol arg arg_var) ;;;
          ctx <- get_context ;;
          set_context (append_func_param arg_var ctx) ;;;
          set_buffer arg (decl_buffer [10%Z]) ;;;
          declare_params self span rest
      end
  end.

Definition visit_FunctionDef (self : KernelNodeVisitor) (fuel : nat)
    (visit : node -> M pyval) (n : node) : M pyval :=
  match n with
  | FunctionDef lineno _ body =>
      set_context (new_scope body (ScopeContext_new (collab self))) ;;;
      let span := build_span self lineno in
      declare_params self span (kp_args (kernel_p self)) ;;;
      let return_type := decl_buffer [10%Z] in
      set_return_buffer return_type ;;;
      modify_context (update_symbol pointer_var_name pointer_var) ;;;
      ctx <- get_context ;;
      set_context (append_func_param pointer_var ctx) ;;;
      ctx <- get_context ;;
      match PyList.top (func_params ctx) with
      | None => raise IndexError "list index out of range"
      | Some handle_var =>
          push_handle_var handle_var ;;;
          body_stmts <- parse_body visit fuel true ;;
          ctx <- get_context ;;
          let func :=
            mkFunction (func_params ctx) [] (to_seq_stmt body_stmts span)
                       (ndarrayType_to_ndarray return_type) span in
          pop_handle_var ;;;
          modify_context pop_scope ;;;
          ret (VFunction func)
      end
  | _ => attribute_error
  end.

Definition visit_Constant (self : KernelNodeVisitor) (fuel : nat)
    (visit : node -> M pyval) (n : node) : M pyval :=
  match n with
  | Constant CNone => ret (VExpr NoneExpr)
  | Constant (CNum v) =>
      dtype <- lift (type_infer_dtype (collab self) v) ;;
      e <- lift (ir_const (collab self) v dtype) ;;
      ret (VExpr e)
  | Constant _ => raise NotImplementedError "Unsupported value"
  | _ => attribute_error
  end.

Definition visit_Name (self : KernelNodeVisitor) (fuel : nat)
    (visit : node -> M pyval) (n : node) : M pyval :=
  match n with
  | Name name =>
      if Dict.contains (kp_symbols (kernel_p self)) name then ret (VStr name)
      else if Dict.contains (kp_args (kernel_p self)) name then ret (VStr name)
      else ret (VStr name)
  | _ => attribute_error
  end.

Definition visit_UnaryOp (self : KernelNodeVisitor) (fuel : nat)
    (visit : node -> M pyval) (n : node) : M pyval :=
  match n with
  | UnaryOp opname operand_node =>
      operand <- visit operand_node ;;
      operand_t <- lift (_get_type self operand) ;;
      ret VNone
  | _ => attribute_error
  end.

Definition visit_BinOp (self : KernelNodeVisitor) (fuel : nat)
    (visit : node -> M pyval) (n : node) : M pyval :=
  match n with
  | BinOp left_node opname right_node =>
      lhs <- visit left_node ;;
      rhs <- visit right_node ;;
      lhs_t <- lift (_get_type self lhs) ;;
      rhs_t <- lift (_get_type self rhs) ;;
      f <- lift (get_bin_operator (collab self) lhs_t rhs_t opname) ;;
      ctx <- get_context ;;
      match symbols ctx with
      | [] => raise IndexError "list index out of range"
      | symbols0 :: _ =>
          lhs_v <- subscript symbols0 lhs ;;
          rhs_v <- subscript symbols0 rhs ;;
          s <- get_state ;;
          lhs_b <- subscript (buffer_table s) lhs ;;
          rhs_b <- subscript (buffer_table s) rhs ;;
          lift (f lhs_v rhs_v lhs_b rhs_b (return_buffer s) lhs_t rhs_t)
      end
  | _ => attribute_error
  end.

Definition visit_BoolOp (self : KernelNodeVisitor) (fuel : nat)
    (visit : node -> M pyval) (n : node) : M pyval :=
  raise NotImplementedError "visit_BoolOp is not Implemented".

Definition visit_Compare (self : KernelNodeVisitor) (fuel : nat)
    (visit : node -> M pyval) (n : node) : M pyval :=
  raise NotImplementedError "visit_Compare is not Implemented".

Definition visit_Call (self : KernelNodeVisitor) (fuel : nat)
    (visit : node -> M pyval) (n : node) : M pyval :=
  raise NotImplementedError "visit_Call is not Implemented".

Definition visit_keyword (self : KernelNodeVisitor) (fuel : nat)
    (visit : node -> M pyval) (n : node) : M pyval :=
  match n with
  | keyword arg value_node =>
      value <- visit value_node ;;
      ret (VTuple [match arg with Some a => VStr a | None => VNone end; value])
  | _ => attribute_error
  end.

Definition visit_Attribute (self : KernelNodeVisitor) (fuel : nat)
    (visit : node -> M pyval) (n : node) : M pyval :=
  match n with
  | Attribute value_node attr_name =>
      value <- visit value_node ;;
      match value with
      | VList l => ret (VList (l ++ [VStr attr_name]))
      | _ => ret (VList [value; VStr attr_name])
      end
  | _ => attribute_error
  end.

(** [visit_Assign]. The visitor has no attribute [scope_arrays]: reading
    it, for an attribute target, is an [AttributeError]. *)
Definition visit_Assign (self : KernelNodeVisitor) (fuel : nat)
    (visit : node -> M pyval) (n : node) : M pyval :=
  match n with
  | Assign targets value_node =>
      match targets with
      | [target] =>
          id <- visit target ;;
          value <- visit value_node ;;
          match target with
          | Attribute _ _ =>
              raise AttributeError
                "'KernelNodeVisitor' object has no attribute 'scope_arrays'"
          | _ => raise NotImplementedError "visit_Assign is not Implemented"
          end
      | _ =>
          raise AssertionError
            "assigning multiple var at the same time is not supported"
      end
  | _ => attribute_error
  end.

Definition visit_AnnAssign (self : KernelNodeVisitor) (fuel : nat)
    (visit : node -> M pyval) (n : node) : M pyval := ret VNone.

Definition visit_AugAssign (self : KernelNodeVisitor) (fuel : nat)
    (visit : node -> M pyval) (n : node) : M pyval := ret VNone.

Definition visit_If (self : KernelNodeVisitor) (fuel : nat)
    (visit : node -> M pyval) (n : node) : M pyval := ret VNone.

Definition visit_For (self : KernelNodeVisitor) (fuel : nat)
    (visit : node -> M pyval) (n : node) : M pyval := ret VNone.

Definition visit_Return (self : KernelNodeVisitor) (fuel : nat)
    (visit : node -> M pyval) (n : node) : M pyval :=
  match n with
  | Return lineno None =>
      ctx <- get_context ;;
      rt_expr <- lift (smart_adapt_to (collab self) NoneExpr (func_ret_type ctx)) ;;
      ret (VStmt (ReturnStmt (Some rt_expr) None))
  | Return lineno (Some value_node) =>
      match lineno with
      | None => attribute_error
      | Some ln =>
          let span := build_span self ln in
          rt_expr <- visit value_node ;;
          match rt_expr with
          | VTuple _ => raise SyntaxError "returning tuple is not support"
          | _ => ret (VStmt (ReturnStmt None (Some span)))
          end
      end
  | _ => attribute_error
  end.

(** A visitor method as [getattr] hands it out: bound to [self], given
    the recursion bound left and the [visit] to call on sub-nodes. *)
Definition visitor : Type :=
  KernelNodeVisitor -> nat -> (node -> M pyval) -> node -> M pyval.

(** The [visit_...] attributes of a [KernelNodeVisitor]; [ast.NodeVisitor]
    adds none but [visit_Constant], which the class overrides. *)
Definition visitor_methods : list (string * visitor) :=
  [ ("visit_FunctionDef", visit_FunctionDef);
    ("visit_Constant", visit_Constant);
    ("visit_Name", visit_Name);
    ("visit_UnaryOp", visit_UnaryOp);
    ("visit_BinOp", visit_BinOp);
    ("visit_BoolOp", visit_BoolOp);
    ("visit_Compare", visit_Compare);
    ("visit_Call", visit_Call);
    ("visit_keyword", visit_keyword);
    ("visit_Attribute", visit_Attribute);
    ("visit_Assign", visit_Assign);
    ("visit_AnnAssign", visit_AnnAssign);
    ("visit_AugAssign", visit_AugAssign);
    ("visit_If", visit_If);
    ("visit_For", visit_For);
    ("visit_Return", visit_Return) ].

(** [getattr(self, method, self.generic_visit)], [None] for the default. *)
Definition getattr_visitor (method : string) : option visitor :=
  Dict.getitem visitor_methods method.

(** [visit], [fuel] bounding the depth of nested calls. *)
Fixpoint visit (self : KernelNodeVisitor) (fuel : nat) (n : node)
    : M pyval :=
  match fuel with
  | O => out_of_fuel
  | S fuel' =>
      let method := ("visit_" ++ class_name n)%string in
      match getattr_visitor method with
      | Some visitor => visitor self fuel' (visit self fuel') n
      | None => generic_visit n
      end
  end.

(** [parser_node] of [KernelParser.parse2]: a new visitor is built and
    run on the syntax tree of the main node; nothing is caught. *)
Definition parser_node (kp : KernelParser) (main_node : ASTNode)
    (c : Collaborators) (fuel : nat) (main_ast : node)
    : outcome pyval * VState :=
  visit (mkKernelNodeVisitor kp main_node c) fuel main_ast initial_state.

(** [KernelParser.parse2]: the analysis passes, which belong to
    collaborators and leave the main node with its syntax tree or raise,
    then [parser_node] on the main node. The method has no [try] and
    reads no mode: what either part raises is its outcome. It returns
    [None]; what it stores in [node.ir] is handed back here. *)
Definition parse2 (kp : KernelParser) (analyses : outcome (ASTNode * node))
    (c : Collaborators) (fuel : nat) : outcome pyval :=
  match analyses with
  | Ok (main_node, main_ast) => fst (parser_node kp main_node c fuel main_ast)
  | Raise e => Raise e
  | OutOfFuel => OutOfFuel
  end.

(* ================================================================== *)
(** ** [from_source] of the inductor *)

Section FromSource.
Variables CompilingObj Inputs FakeOutput ScriptCtx RtModule : Type.

(** The calls made inside the [try] block, each of which may raise. *)
Record InductorSteps : Type := mkInductorSteps {
  (** the set-up of the script context, up to the argument types *)
  new_script_context : CompilingObj -> outcome ScriptCtx;
  extract_inductor_code :
    CompilingObj -> Inputs -> outcome (string * string * FakeOutput);
  matx_cpp_code_format :
    string -> string -> Inputs -> FakeOutput -> outcome string;
  (** [path_prefix], [open] and [write] *)
  export_code : ScriptCtx -> string -> outcome unit;
  (** [_ffi.get_global_func] and the call of the builder *)
  build_module : string -> outcome RtModule;
  set_rt_module : ScriptCtx -> RtModule -> ScriptCtx
}.

Definition and_then {A B : Type} (o : outcome A) (k : A -> outcome B)
    : outcome B :=
  match o with
  | Ok a => k a
  | Raise e => Raise e
  | OutOfFuel => OutOfFuel
  end.

(** The body of the [try] block. *)
Definition from_source_try (steps : InductorSteps)
    (compiling_obj : CompilingObj) (example_inputs : Inputs)
    : outcome ScriptCtx :=
  and_then (new_script_context steps compiling_obj) (fun sc_ctx =>
  and_then (extract_inductor_code steps compiling_obj example_inputs)
    (fun r =>
       let code := fst (fst r) in
       let kernel_name := snd (fst r) in
       let fake_output := snd r in
  and_then (matx_cpp_code_format steps code kernel_name example_inputs
                                 fake_output) (fun code =>
  and_then (export_code steps sc_ctx code) (fun _ =>
  and_then (build_module steps code) (fun rt_module =>
  Ok (set_rt_module steps sc_ctx rt_module)))))).

(** [raise Exception(str(e)) from None] in the handler of [e]: [from None]
    sets [__cause__] to [None] and [__suppress_context__]; the exception
    being handled still becomes the [__context__] of the new one. *)
Definition wrap_exception (e : exn) : exn :=
  mkExn GenericException (str_exn e) None (Some e) true.

(** [from_source]: the [try] block and its [except BaseException]. *)
Definition from_source (steps : InductorSteps) (MATX_DEV_MODE : bool)
    (compiling_obj : CompilingObj) (example_inputs : Inputs)
    : outcome ScriptCtx :=
  match from_source_try steps compiling_obj example_inputs with
  | Ok sc_ctx => Ok sc_ctx
  | Raise e => if MATX_DEV_MODE then Raise e else Raise (wrap_exception e)
  | OutOfFuel => OutOfFuel
  end.
End FromSource.

Arguments from_source {CompilingObj Inputs FakeOutput ScriptCtx RtModule}.
Arguments from_source_try {CompilingObj Inputs FakeOutput ScriptCtx RtModule}.

(* ================================================================== *)
(** ** Kernels of the test suite, and collaborators to run them with *)

Module Sample.

Definition sym_M : dim := DimSymbolic "M" 0.
Definition sym_N : dim := DimSymbolic "N" 0.

(** [int32[M, N]] *)
Definition int32_MN : ArrayType := mkArrayType "int32" [sym_M; sym_N].
(** [int32[3, 4]] *)
Definition int32_34 : ArrayType :=
  mkArrayType "int32" [DimInt 3; DimInt 4].

(** [def foo(a: int32[M, N], b: int32[M, N]) -> int32[M, N]] *)
Definition foo : PyFunction :=
  mkPyFunction "foo" "test_kernel_for_loop_parser.py"
               [("a", int32_MN); ("b", int32_MN)] int32_MN.

(** [def bar(a: int32[3, 4]) -> int32[3, 4]] *)
Definition bar : PyFunction :=
  mkPyFunction "bar" "test_kernel_for_loop_parser.py"
               [("a", int32_34)] int32_34.

(** The part of a file name after its last [/], as the text of a
    [SyntaxError] shows it. *)
Fixpoint basename (acc : string) (name : string) : string :=
  match name with
  | EmptyString => acc
  | String c rest =>
      if Ascii.eqb c "/"%char then basename EmptyString rest
      else basename (acc ++ String c EmptyString) rest
  end.

(** [SyntaxError(msg, info)] of CPython: [info] is unpacked as
    [(filename, lineno, offset, text[, end_lineno, end_offset])], so it
    has to be a sequence of four or six items; the text of the exception
    then names the file. [filename] is the first item when it is a
    string. *)
Definition syntax_error (msg : string) (items : nat)
    (filename : option string) : exn :=
  match items with
  | 4%nat | 6%nat =>
      match filename with
      | Some f =>
          Exn SyntaxError (msg ++ " (" ++ basename EmptyString f ++ ")") None
      | None => Exn SyntaxError msg None
      end
  | 5%nat =>
      Exn TypeError "end_offset must be provided when end_lineno is provided"
          None
  | S (S (S (S (S (S (S _)))))) =>
      Exn TypeError "function takes at most 6 arguments" None
  | _ => Exn TypeError "function takes at least 4 arguments" None
  end.

Definition collaborators : Collaborators :=
  {| type_infer_dtype := fun v =>
       match v with
       | NInt _ => Ok "int64"
       | NBool _ => Ok "bool"
       | NFloat _ => Ok "float64"
       | NComplex _ =>
           Raise (Exn NotImplementedError "type inference of a complex" None)
       end;
     ir_const := fun v dtype =>
       match v with
       | NInt z =>
           if ((- 2 ^ 63 <=? z) && (z <? 2 ^ 63))%Z
           then Ok (IRConst v dtype)
           else Raise (Exn (OtherError "OverflowError")
                           "int too large to convert" None)
       | _ => Ok (IRConst v dtype)
       end;
     smart_adapt_to := fun e t => Ok (HLOCast t e);
     get_bin_operator := fun _ _ opname =>
       Ok (fun _ _ _ _ _ _ _ => Ok (VExpr (ExternExpr opname)));
     initial_func_ret_type := None;
     syntax_error_with := fun msg operand =>
       match operand with
       | VStr text =>
           syntax_error msg (String.length text)
             (match text with
              | String c _ => Some (String c EmptyString)
              | EmptyString => None
              end)
       | VList l | VTuple l =>
           syntax_error msg (List.length l)
             (match l with
              | VStr f :: _ => Some f
              | _ => None
              end)
       | _ => Exn TypeError "object is not iterable" None
       end |}.

Definition main_node : ASTNode :=
  mkASTNode (mkSpan "test_kernel_for_loop_parser.py" 107 "foo" "def foo") "foo".

Definition self : KernelNodeVisitor :=
  mkKernelNodeVisitor (KernelParser_init foo) main_node collaborators.

(** [k: int32 = 0], the nested loops over [M] and [N] and [return a] of
    [test_scalar_rhs_nd1]; the loop body is not looked at by the
    visitor. *)
Definition loops : node :=
  For (Name "i") (Call (Name "range") [Name "M"] [])
      [For (Name "j") (Call (Name "range") [Name "N"] [])
           [Assign [Name "k"]
              (BinOp (Other "Subscript" [Name "a"; Name "i"; Name "j"]) "Add"
                     (Other "Subscript" [Name "b"; Name "i"; Name "j"]))]
           []] [].

Definition foo_def : node :=
  FunctionDef 1 "foo"
    [AnnAssign (Name "k") (Name "int32") (Some (Constant (CNum (NInt 0))));
     loops;
     Return (Some 5%Z) (Some (Name "a"))].

(** [def foo(a, b): return a, b] *)
Definition tuple_def : node :=
  FunctionDef 1 "foo"
    [Return (Some 2%Z) (Some (Other "Tuple" [Name "a"; Name "b"]))].

(** [def foo(a, b): pass], and a body of loops only *)
Definition pass_def : node := FunctionDef 1 "foo" [Other "Pass" []].
Definition loops_def : node := FunctionDef 1 "foo" [loops].
Definition empty_def : node := FunctionDef 1 "foo" [].

(** Steps of [from_source] for which the code extraction fails. *)
Definition failing_steps : InductorSteps unit unit unit unit unit :=
  {| new_script_context := fun _ => Ok tt;
     extract_inductor_code := fun _ _ =>
       Raise (Exn NotImplementedError "no lowering for this operator" None);
     matx_cpp_code_format := fun code _ _ _ => Ok code;
     export_code := fun _ _ => Ok tt;
     build_module := fun _ => Ok tt;
     set_rt_module := fun sc_ctx _ => sc_ctx |}.

End Sample.

(* ================================================================== *)
(** ** What the statements below are phrased with *)

(** The variable [visit_FunctionDef] binds a declared parameter to. *)
Definition param_var (span : Span) (item : string * ArrayType) : PrimVar :=
  mkPrimVar (fst item) (DtypeStr (dtype_str (snd item))) (Some span).

(** The buffers of the declared parameters and the return buffer all have
    the shape [(10,)]. *)
Definition buffers_declared (self : KernelNodeVisitor) (s : VState) : Prop :=
  (forall arg, In arg (Dict.keys (kp_args (kernel_p self))) ->
     Dict.getitem (buffer_table s) arg = Some (decl_buffer [10%Z]))
  /\ return_buffer s = Some (decl_buffer [10%Z]).

(** No frame is left on the scope stack. *)
Definition no_frame (s : VState) : Prop :=
  exists ctx, self_context s = Some ctx /\ node_stack ctx = [].

(** How a call may leave the state of the visitor. A call that returns
    leaves the handle stack as it found it, and the state either untouched
    or without any scope frame; a call that does not return may leave
    handles pushed. Declared buffers stay declared. *)
Definition post (self : KernelNodeVisitor) {A : Type}
    (s : VState) (r : outcome A) (s' : VState) : Prop :=
  (buffers_declared self s -> buffers_declared self s')
  /\ match r with
     | Ok _ =>
         session_handle_var_ctx s' = session_handle_var_ctx s
         /\ (s' = s \/ no_frame s')
     | _ =>
         exists extra,
           session_handle_var_ctx s' = session_handle_var_ctx s ++ extra
     end.

Definition respects (self : KernelNodeVisitor) {A : Type} (m : M A) : Prop :=
  forall s r s', m s = (r, s') -> post self s r s'.

(** What the loop of [parse_body] hands back for a worklist [frame]
    (in the order of the Python list, the last statement of the source
    first), started with [body] and [last_ast]. *)
Definition loop_result (visit : node -> M pyval) (frame : list node)
    (body : list stmt) (last_ast : option node)
    (body' : list stmt) (last_ast' : option node) : Prop :=
  match frame with
  | [] => body' = body /\ last_ast' = last_ast
  | x :: _ =>
      last_ast' = Some x
      /\ exists sx res,
           visit x sx = (Ok res, sx)
           /\ ((res = VNone /\ exists pre, body' = body ++ pre)
               \/ (exists s pre, res = VStmt s /\ body' = body ++ pre ++ [s]))
  end.

(** The state with another scope context. *)
Definition with_context (ctx : ScopeContext) (s : VState) : VState :=
  {| self_context := Some ctx;
     session_handle_var_ctx := session_handle_var_ctx s;
     buffer_table := buffer_table s;
     return_buffer := return_buffer s |}.

(** The variable a declared parameter is bound to, its dtype read from
    [self.kernel_p.args[arg]] as the loop of [visit_FunctionDef] does. *)
Definition bound_var (self : KernelNodeVisitor) (span : Span)
    (item : string * ArrayType) : PrimVar :=
  param_var span
    (fst item,
     match Dict.getitem (kp_args (kernel_p self)) (fst item) with
     | Some t => t
     | None => snd item
     end).

(** The scope context [visit_FunctionDef] has built when it starts on the
    body: one frame, with the worklist and the bindings of the parameters
    and of the handle. *)
Definition entered_context (self : KernelNodeVisitor) (lineno : Z)
    (body : list node) : ScopeContext :=
  let span := build_span self lineno in
  let args := kp_args (kernel_p self) in
  {| node_stack := [rev body];
     symbols :=
       [Dict.setitem
          (fold_left
             (fun d item =>
                Dict.setitem d (fst item) (bound_var self span item))
             args Dict.empty)
          pointer_var_name pointer_var];
     func_params := map (bound_var self span) args ++ [pointer_var];
     func_ret_type := initial_func_ret_type (collab self) |}.

(** The state [visit_FunctionDef] has reached when it starts on the body:
    the new scope context, the handle pushed, the buffers declared. *)
Definition entered (self : KernelNodeVisitor) (lineno : Z)
    (body : list node) (s : VState) : VState :=
  {| self_context := Some (entered_context self lineno body);
     session_handle_var_ctx := session_handle_var_ctx s ++ [pointer_var];
     buffer_table :=
       fold_left (fun d item => Dict.setitem d (fst item) (decl_buffer [10%Z]))
                 (kp_args (kernel_p self)) (buffer_table s);
     return_buffer := Some (decl_buffer [10%Z]) |}.

(** That state once the worklist of the frame is used up. *)
Definition body_lowered (self : KernelNodeVisitor) (lineno : Z)
    (body : list node) (s : VState) : VState :=
  with_context (with_node_stack [[]] (entered_context self lineno body))
               (entered self lineno body s).

(** What [visit_FunctionDef] does once the body is lowered. *)
Definition leave (self : KernelNodeVisitor) (lineno : Z)
    (body_stmts : list stmt) : M pyval :=
  let span := build_span self lineno in
  ctx <- get_context ;;
  let func :=
    mkFunction (func_params ctx) [] (to_seq_stmt body_stmts span)
               (ndarrayType_to_ndarray (decl_buffer [10%Z])) span in
  pop_handle_var ;;;
  modify_context pop_scope ;;;
  ret (VFunction func).

(** The statements a kernel body may hold that the visitor passes over:
    their visitor methods return [None]. *)
Definition passed_over (n : node) : bool :=
  match n with
  | AnnAssign _ _ _ | AugAssign _ _ _ | If _ _ _ | For _ _ _ _ => true
  | _ => false
  end.

(** The node kinds for which the class defines a visitor method. *)
Definition visited_kinds : list string :=
  [ "FunctionDef"; "Constant"; "Name"; "UnaryOp"; "BinOp"; "BoolOp";
    "Compare"; "Call"; "keyword"; "Attribute"; "Assign"; "AnnAssign";
    "AugAssign"; "If"; "For"; "Return" ].

Definition node_not_supported : exn :=
  Exn NotImplementedError "This node is not supported now: " None.

(** An outcome other than a returned value. *)
Definition failed {A : Type} (r : outcome A) : Prop :=
  match r with Ok _ => False | _ => True end.

(** Whether [parse_body] adds a return of its own. *)
Definition adds_return (body : list stmt) (last_ast : option node) : bool :=
  (List.length body =? 0)%nat || negb (isinstance_Return last_ast).

(** What [visit] does on the node [ast.Return(value=None)]. *)
Definition bare_return_visit (self : KernelNodeVisitor)
    (visit' : node -> M pyval) : Prop :=
  forall s r s',
    visit' (Return None None) s = (r, s') ->
    s' = s
    /\ forall val,
         r = Ok val ->
         exists ctx e,
           self_context s = Some ctx
           /\ smart_adapt_to (collab self) NoneExpr (func_ret_type ctx) = Ok e
           /\ val = VStmt (ReturnStmt (Some e) None).

(** The function [visit_FunctionDef] builds from the lowered body. *)
Definition lowered_function (self : KernelNodeVisitor) (lineno : Z)
    (body_stmts : list stmt) : Function :=
  let span := build_span self lineno in
  mkFunction (map (bound_var self span) (kp_args (kernel_p self))
              ++ [pointer_var])
             [] (to_seq_stmt body_stmts span) NDArrayType span.

(** The state [visit_FunctionDef] leaves when it returns. *)
Definition left_state (self : KernelNodeVisitor) (lineno : Z)
    (s : VState) : VState :=
  let span := build_span self lineno in
  {| self_context :=
       Some {| node_stack := [];
               symbols := [];
               func_params :=
                 map (bound_var self span) (kp_args (kernel_p self))
                 ++ [pointer_var];
               func_ret_type := initial_func_ret_type (collab self) |};
     session_handle_var_ctx := session_handle_var_ctx s;
     buffer_table :=
       fold_left (fun d item => Dict.setitem d (fst item) (decl_buffer [10%Z]))
                 (kp_args (kernel_p self)) (buffer_table s);
     return_buffer := Some (decl_buffer [10%Z]) |}.

(** The statements of a body as [to_seq_stmt] packs them: those of a
    sequence, or the statement itself. *)
Definition seq_items (s : stmt) : list stmt :=
  match s with
  | SeqStmt seq _ => seq
  | _ => [s]
  end.

(** The dotted name [base.a1.a2...] as the parser builds it. *)
Definition dotted (base : string) (attrs : list string) : node :=
  fold_left Attribute attrs (Name base).

(** What a visit of a statement hands to [parse_body]: nothing, or a
    statement. *)
Definition result_value (r : option stmt) : pyval :=
  match r with
  | None => VNone
  | Some st => VStmt st
  end.

(** The statements kept of the results of a body. *)
Definition kept (results : list (option stmt)) : list stmt :=
  flat_map (fun r => match r with None => [] | Some st => [st] end) results.

(** Whether [cls] is one of [visited_kinds]. *)
Definition is_visited_kind (cls : string) : bool :=
  existsb (String.eqb cls) visited_kinds.

(** Nodes that cannot stand as a statement of a body: their visit raises
    or returns something that is neither [None] nor a statement. *)
Definition rejected_statement (n : node) : bool :=
  match n with
  | FunctionDef _ _ _ | Constant _ | Name _ | Attribute _ _ | keyword _ _
  | Assign _ _ | BoolOp _ _ | Compare _ _ _ | Call _ _ _ => true
  | Other cls _ => negb (is_visited_kind cls)
  | _ => false
  end.

(** Whether the visit of a node can reach a function definition: only
    the children a visitor method visits count. *)
Fixpoint visits_def (n : node) : bool :=
  match n with
  | FunctionDef _ _ _ => true
  | Return _ (Some v) => visits_def v
  | UnaryOp _ operand => visits_def operand
  | BinOp l _ r => visits_def l || visits_def r
  | keyword _ v => visits_def v
  | Attribute v _ => visits_def v
  | Assign [target] v => visits_def target || visits_def v
  | _ => false
  end.

(** A call that leaves the state of the visitor as it found it, whatever
    its outcome. *)
Definition keeps_state {A : Type} (m : M A) : Prop :=
  forall s r s', m s = (r, s') -> s' = s.

(** Two states of the visitor that differ only in what a lowering does
    not read: the handle stack and the buffers of names that are not
    declared parameters. *)
Definition agree (self : KernelNodeVisitor) (s1 s2 : VState) : Prop :=
  self_context s1 = self_context s2
  /\ return_buffer s1 = return_buffer s2
  /\ forall a, In a (Dict.keys (kp_args (kernel_p self))) ->
               Dict.getitem (buffer_table s1) a
               = Dict.getitem (buffer_table s2) a.

(** A call whose outcome is the same from two such states, and which
    leaves two such states. *)
Definition agreeing (self : KernelNodeVisitor) {A : Type} (m : M A) : Prop :=
  forall s1 s2 r1 s1' r2 s2',
    agree self s1 s2 ->
    m s1 = (r1, s1') -> m s2 = (r2, s2') ->
    r1 = r2 /\ agree self s1' s2'.

(* ================================================================== *)
(** * Properties *)

(** ** Lists and dictionaries *)

Lemma pop_snoc {A : Type} (l : list A) (x : A) :
  PyList.pop (l ++ [x]) = Some (l, x).
Proof.
  induction l as [|y l IH]; simpl; [reflexivity|].
  now rewrite IH.
Qed.

Lemma pop_Some {A : Type} (l r : list A) (x : A) :
  PyList.pop l = Some (r, x) -> l = r ++ [x].
Proof.
  revert r x; induction l as [|y l IH]; simpl; intros r x H; [discriminate|].
  destruct (PyList.pop l) as [[r' z]|] eqn:E.
  - inversion H; subst. simpl. f_equal. now apply IH.
  - inversion H; subst. destruct l; [reflexivity|].
    simpl in E. destruct (PyList.pop l) as [[? ?]|]; discriminate.
Qed.

Lemma pop_None {A : Type} (l : list A) :
  PyList.pop l = None -> l = [].
Proof.
  destruct l as [|y l]; [reflexivity|]; simpl.
  destruct (PyList.pop l) as [[? ?]|]; discriminate.
Qed.

Lemma top_snoc {A : Type} (l : list A) (x : A) :
  PyList.top (l ++ [x]) = Some x.
Proof. unfold PyList.top. now rewrite pop_snoc. Qed.

Lemma getitem_In_keys {V : Type} (d : Dict.t V) (k : string) :
  In k (Dict.keys d) -> exists v, Dict.getitem d k = Some v.
Proof.
  induction d as [|[k' v'] d IH]; simpl; [tauto|].
  intros [H|H].
  - subst. rewrite String.eqb_refl. eauto.
  - destruct (String.eqb k k'); eauto.
Qed.

Lemma getitem_Some_In {V : Type} (d : Dict.t V) (k : string) (v : V) :
  Dict.getitem d k = Some v -> In (k, v) d.
Proof.
  induction d as [|[k' v'] d IH]; simpl; [discriminate|].
  destruct (String.eqb k k') eqn:E.
  - apply String.eqb_eq in E. intros H; inversion H; subst. now left.
  - intros H. right. now apply IH.
Qed.

Lemma getitem_NoDup {V : Type} (d : Dict.t V) (k : string) (v : V) :
  NoDup (Dict.keys d) -> In (k, v) d -> Dict.getitem d k = Some v.
Proof.
  induction d as [|[k' v'] d IH]; simpl; [tauto|].
  intros Hnd [H|H].
  - inversion H; subst. now rewrite String.eqb_refl.
  - inversion Hnd as [|? ? Hnotin Hnd']; subst.
    destruct (String.eqb k k') eqn:E.
    + apply String.eqb_eq in E; subst. exfalso. apply Hnotin.
      change (In (fst (k', v)) (map fst d)). now apply in_map.
    + now apply IH.
Qed.

Lemma keys_setitem {V : Type} (d : Dict.t V) (k : string) (v : V) :
  Dict.keys (Dict.setitem d k v) =
  if Dict.contains d k then Dict.keys d else Dict.keys d ++ [k].
Proof.
  unfold Dict.contains, Dict.keys.
  induction d as [|[k' v'] d IH]; simpl; [reflexivity|].
  destruct (String.eqb k k') eqn:E; simpl; [reflexivity|].
  rewrite IH.
  destruct (Dict.getitem d k); reflexivity.
Qed.

Lemma contains_true_iff {V : Type} (d : Dict.t V) (k : string) :
  Dict.contains d k = true <-> In k (Dict.keys d).
Proof.
  unfold Dict.contains. split.
  - destruct (Dict.getitem d k) eqn:E; [|discriminate]. intros _.
    apply getitem_Some_In in E.
    change (In (fst (k, v)) (map fst d)). now apply in_map.
  - intros H. apply getitem_In_keys in H as [v ->]. reflexivity.
Qed.

Lemma in_keys_setitem {V : Type} (d : Dict.t V) (k k0 : string) (v : V) :
  In k0 (Dict.keys (Dict.setitem d k v)) <-> k0 = k \/ In k0 (Dict.keys d).
Proof.
  rewrite keys_setitem. destruct (Dict.contains d k) eqn:E.
  - apply contains_true_iff in E. split; [tauto|].
    intros [->|H]; assumption.
  - rewrite in_app_iff. simpl. intuition congruence.
Qed.

Lemma NoDup_keys_setitem {V : Type} (d : Dict.t V) (k : string) (v : V) :
  NoDup (Dict.keys d) -> NoDup (Dict.keys (Dict.setitem d k v)).
Proof.
  intros H. rewrite keys_setitem. destruct (Dict.contains d k) eqn:E; [exact H|].
  apply NoDup_app; [exact H | repeat constructor; simpl; tauto |].
  intros x Hx [<-|[]].
  apply contains_true_iff in Hx. congruence.
Qed.

Lemma in_setitem {V : Type} (d : Dict.t V) (k k0 : string) (v v0 : V) :
  In (k0, v0) (Dict.setitem d k v) -> (k0 = k /\ v0 = v) \/ In (k0, v0) d.
Proof.
  induction d as [|[k' v'] d IH]; simpl.
  - intros [H|[]]. inversion H; auto.
  - destruct (String.eqb k k') eqn:E; simpl.
    + apply String.eqb_eq in E; subst. intros [H|H]; [inversion H; auto | auto].
    + intros [H|H]; [auto | apply IH in H; tauto].
Qed.

Lemma getitem_setitem {V : Type} (d : Dict.t V) (k k0 : string) (v : V) :
  Dict.getitem (Dict.setitem d k v) k0 =
  if String.eqb k0 k then Some v else Dict.getitem d k0.
Proof.
  induction d as [|[k' v'] d IH]; simpl.
  - destruct (String.eqb k0 k); reflexivity.
  - destruct (String.eqb k k') eqn:E; simpl.
    + apply String.eqb_eq in E; subst.
      destruct (String.eqb k0 k'); reflexivity.
    + rewrite IH. destruct (String.eqb k0 k') eqn:E'; [|reflexivity].
      apply String.eqb_eq in E'; subst.
      rewrite String.eqb_sym, E. reflexivity.
Qed.

(** ** Shape symbols *)

Section FoldSetitem.
Context {X V : Type} (f : X -> string * V).

Let step := fun (acc : Dict.t V) (x : X) =>
              Dict.setitem acc (fst (f x)) (snd (f x)).

Lemma fold_setitem_NoDup (l : list X) (d : Dict.t V) :
  NoDup (Dict.keys d) -> NoDup (Dict.keys (fold_left step l d)).
Proof.
  revert d; induction l as [|x l IH]; simpl; intros d H; [exact H|].
  apply IH. now apply NoDup_keys_setitem.
Qed.

Lemma fold_setitem_keys (l : list X) (d : Dict.t V) (k : string) :
  In k (Dict.keys (fold_left step l d)) <->
  In k (Dict.keys d) \/ exists x, In x l /\ fst (f x) = k.
Proof.
  revert d; induction l as [|x l IH]; simpl; intros d.
  - split; [tauto|]. intros [H|[x [[] _]]]; exact H.
  - rewrite IH. unfold step. rewrite in_keys_setitem. split.
    + intros [[->|H]|[y [Hy Hk]]]; eauto.
    + intros [H|[y [[->|Hy] Hk]]]; eauto.
Qed.

Lemma fold_setitem_In (l : list X) (d : Dict.t V) (k : string) (v : V) :
  In (k, v) (fold_left step l d) ->
  In (k, v) d \/ exists x, In x l /\ f x = (k, v).
Proof.
  revert d; induction l as [|x l IH]; simpl; intros d H; [tauto|].
  apply IH in H as [H|[y [Hy Hf]]]; [|eauto].
  unfold step in H. apply in_setitem in H as [[Hk Hv]|H]; [|tauto].
  right. exists x. split; [now left|].
  destruct (f x); simpl in *; congruence.
Qed.
End FoldSetitem.

Lemma extract_symbol_keys (t : ArrayType) (k : string) :
  In k (Dict.keys (extract_symbol_from_type t)) <->
  exists d, In d (shape t) /\ is_symbol d = true /\ str_dim d = k.
Proof.
  unfold extract_symbol_from_type.
  rewrite (fold_setitem_keys (fun s => (str_dim s, s))). simpl. split.
  - intros [[]|[d [Hd Hk]]]. exists d.
    apply nodup_In, filter_In in Hd. tauto.
  - intros [d [Hd [Hs Hk]]]. right. exists d. split; [|exact Hk].
    apply nodup_In, filter_In. tauto.
Qed.

Lemma extract_symbol_In (t : ArrayType) (k : string) (v : dim) :
  In (k, v) (extract_symbol_from_type t) ->
  In v (shape t) /\ is_symbol v = true /\ str_dim v = k.
Proof.
  unfold extract_symbol_from_type. intros H.
  apply (fold_setitem_In (fun s => (str_dim s, s))) in H as [[]|[d [Hd Hf]]].
  inversion Hf; subst. apply nodup_In, filter_In in Hd. tauto.
Qed.

Lemma extract_symbol_NoDup (t : ArrayType) :
  NoDup (Dict.keys (extract_symbol_from_type t)).
Proof.
  unfold extract_symbol_from_type.
  apply (fold_setitem_NoDup (fun s => (str_dim s, s))). constructor.
Qed.

Section CollectSymbols.
Let step := fun (acc : Dict.t dim) (arg_type : ArrayType) =>
              Dict.update acc (extract_symbol_from_type arg_type).

Lemma collect_NoDup (ts : list ArrayType) (acc : Dict.t dim) :
  NoDup (Dict.keys acc) -> NoDup (Dict.keys (fold_left step ts acc)).
Proof.
  revert acc; induction ts as [|t ts IH]; simpl; intros acc H; [exact H|].
  apply IH. unfold step, Dict.update.
  now apply (fold_setitem_NoDup (fun kv => kv)).
Qed.

Lemma collect_keys (ts : list ArrayType) (acc : Dict.t dim) (k : string) :
  In k (Dict.keys (fold_left step ts acc)) <->
  In k (Dict.keys acc)
  \/ exists t d, In t ts /\ In d (shape t)
                 /\ is_symbol d = true /\ str_dim d = k.
Proof.
  revert acc; induction ts as [|t ts IH]; simpl; intros acc.
  - split; [tauto|]. intros [H|[t [d [[] _]]]]; exact H.
  - rewrite IH. unfold step. unfold Dict.update.
    rewrite (fold_setitem_keys (fun kv => kv)). split.
    + intros [[H|[[k' v] [Hin Hk]]]|[t' [d H]]].
      * now left.
      * simpl in Hk; subst k'.
        assert (Hkeys : In k (Dict.keys (extract_symbol_from_type t))).
        { change (In (fst (k, v)) (map fst (extract_symbol_from_type t))).
          now apply in_map. }
        apply extract_symbol_keys in Hkeys as [d Hd].
        right. exists t, d. tauto.
      * right. exists t', d. tauto.
    + intros [H|[t' [d [[->|Ht] Hd]]]].
      * left. now left.
      * left. right.
        assert (Hkeys : In k (Dict.keys (extract_symbol_from_type t')))
          by (apply extract_symbol_keys; eauto).
        apply in_map_iff in Hkeys as [[k' v] [Hk Hin]].
        simpl in Hk; subst k'. exists (k, v). auto.
      * right. exists t', d. tauto.
Qed.

Lemma collect_In (ts : list ArrayType) (acc : Dict.t dim)
    (k : string) (v : dim) :
  In (k, v) (fold_left step ts acc) ->
  In (k, v) acc
  \/ exists t, In t ts /\ In v (shape t)
               /\ is_symbol v = true /\ str_dim v = k.
Proof.
  revert acc; induction ts as [|t ts IH]; simpl; intros acc H; [tauto|].
  apply IH in H as [H|[t' H]]; [|right; exists t'; tauto].
  unfold step, Dict.update in H.
  apply (fold_setitem_In (fun kv => kv)) in H as [H|[[k' v'] [Hin Heq]]];
    [tauto|].
  inversion Heq; subst. apply extract_symbol_In in Hin.
  right. exists t. tauto.
Qed.
End CollectSymbols.

Lemma KernelParser_args_NoDup (func : PyFunction) :
  NoDup (Dict.keys (kp_args (KernelParser_init func))).
Proof.
  simpl. apply (fold_setitem_NoDup (fun kv => kv)). constructor.
Qed.

Lemma fold_setitem_fresh {V : Type} (l d : Dict.t V) :
  NoDup (Dict.keys (d ++ l)) ->
  fold_left (fun acc kv => Dict.setitem acc (fst kv) (snd kv)) l d = d ++ l.
Proof.
  revert d; induction l as [|[k v] l IH]; simpl; intros d H.
  - now rewrite app_nil_r.
  - assert (Hset : Dict.setitem d k v = d ++ [(k, v)]).
    { assert (Hk : ~ In k (Dict.keys d)).
      { unfold Dict.keys in *. rewrite map_app in H. simpl in H.
        apply NoDup_remove_2 in H. rewrite in_app_iff in H. tauto. }
      clear - Hk. induction d as [|[k' v'] d IHd]; simpl; [reflexivity|].
      simpl in Hk. destruct (String.eqb k k') eqn:E.
      - apply String.eqb_eq in E. subst. tauto.
      - f_equal. apply IHd. tauto. }
    rewrite Hset, IH; rewrite <- app_assoc; simpl; [reflexivity | exact H].
Qed.

(** Distinct parameter names, which every Python function has, make
    [self.args] the declared parameters in their order. *)
Lemma KernelParser_args_declared (func : PyFunction) :
  NoDup (map fst (fn_parameters func)) ->
  kp_args (KernelParser_init func) = fn_parameters func.
Proof.
  intros H. simpl. now rewrite fold_setitem_fresh.
Qed.

(** C4: the symbol table of a kernel parser has every key once; its keys
    are the printed names of the symbolic dimensions of the declared
    parameter types, each bound to a symbolic dimension of that name taken
    from a shape; a symbol counts once however many parameters repeat it,
    and is the value found under its name when no other symbolic dimension
    prints the same; without symbolic dimensions the table is empty. The
    extraction is a total function: it has no failing case. *)
Theorem symbols_of_declared_types (func : PyFunction) :
  let kp := KernelParser_init func in
  let types := Dict.values (kp_args kp) in
  NoDup (Dict.keys (kp_symbols kp))
  /\ (forall name,
        In name (Dict.keys (kp_symbols kp)) <->
        exists t d, In t types /\ In d (shape t)
                    /\ is_symbol d = true /\ str_dim d = name)
  /\ (forall name s,
        In (name, s) (kp_symbols kp) ->
        str_dim s = name /\ is_symbol s = true
        /\ exists t, In t types /\ In s (shape t))
  /\ (forall t d,
        In t types -> In d (shape t) -> is_symbol d = true ->
        count_occ string_dec (Dict.keys (kp_symbols kp)) (str_dim d) = 1%nat)
  /\ (forall t d,
        In t types -> In d (shape t) -> is_symbol d = true ->
        (forall t' d', In t' types -> In d' (shape t') ->
                       is_symbol d' = true -> str_dim d' = str_dim d ->
                       d' = d) ->
        Dict.getitem (kp_symbols kp) (str_dim d) = Some d)
  /\ ((forall t d, In t types -> In d (shape t) -> is_symbol d = false) ->
      kp_symbols kp = Dict.empty)
  /\ (NoDup (map fst (fn_parameters func)) ->
      types = map snd (fn_parameters func)).
Proof.
  intros kp types.
  assert (Hnd : NoDup (Dict.keys (kp_symbols kp)))
    by (apply collect_NoDup; constructor).
  assert (Hkeys : forall name,
             In name (Dict.keys (kp_symbols kp)) <->
             exists t d, In t types /\ In d (shape t)
                         /\ is_symbol d = true /\ str_dim d = name).
  { intros name. unfold kp at 1. simpl kp_symbols. rewrite collect_keys.
    simpl. tauto. }
  assert (Hin : forall name s,
             In (name, s) (kp_symbols kp) ->
             str_dim s = name /\ is_symbol s = true
             /\ exists t, In t types /\ In s (shape t)).
  { intros name s H. apply collect_In in H as [[]|[t H]].
    split; [tauto|]. split; [tauto|]. exists t. tauto. }
  split; [exact Hnd|]. split; [exact Hkeys|]. split; [exact Hin|].
  split; [|split; [|split]].
  - intros t d Ht Hd Hs.
    apply (proj1 (NoDup_count_occ' string_dec _) Hnd).
    apply Hkeys. exists t, d. auto.
  - intros t d Ht Hd Hs Huniq.
    assert (Hk : In (str_dim d) (Dict.keys (kp_symbols kp)))
      by (apply Hkeys; exists t, d; auto).
    apply getitem_In_keys in Hk as [v Hv]. rewrite Hv. f_equal.
    apply getitem_Some_In, Hin in Hv as [Hname [Hsym [t' [Ht' Hd']]]].
    now apply (Huniq t' v).
  - intros Hnone. destruct (kp_symbols kp) as [|[k v] rest] eqn:E;
      [reflexivity|].
    assert (Hk : In k (Dict.keys ((k, v) :: rest))) by now left.
    apply Hkeys in Hk as [t [d [Ht [Hd [Hs _]]]]].
    rewrite (Hnone t d Ht Hd) in Hs. discriminate.
  - intros H. unfold types, kp.
    now rewrite (KernelParser_args_declared func H).
Qed.

Lemma symbols_of_declared_types_witness :
  count_occ string_dec
    (Dict.keys (kp_symbols (KernelParser_init Sample.foo))) "M" = 1%nat
  /\ Dict.getitem (kp_symbols (KernelParser_init Sample.foo)) "N"
     = Some Sample.sym_N
  /\ kp_symbols (KernelParser_init Sample.bar) = Dict.empty.
Proof.
  destruct (symbols_of_declared_types Sample.foo)
    as [_ [_ [_ [Hcount [Hvalue _]]]]].
  destruct (symbols_of_declared_types Sample.bar)
    as [_ [_ [_ [_ [_ [Hempty _]]]]]].
  split; [|split].
  - apply (Hcount Sample.int32_MN Sample.sym_M); simpl; auto.
  - apply (Hvalue Sample.int32_MN Sample.sym_N); simpl; auto.
    intros t' d' [<-|[<-|[]]] [<-|[<-|[]]] _ H;
      first [reflexivity | discriminate H].
  - apply Hempty. simpl. intros t d [<-|[]] [<-|[<-|[]]]; reflexivity.
Defined.

(** ** Dispatch *)

Lemma getattr_visitor_kind (c : string) :
  getattr_visitor ("visit_" ++ c)%string = None <-> ~ In c visited_kinds.
Proof.
  unfold getattr_visitor, visitor_methods, visited_kinds. simpl.
  repeat match goal with
         | |- context [String.eqb c ?k] =>
             let E := fresh "E" in
             destruct (String.eqb c k) eqn:E;
             [ apply String.eqb_eq in E; subst c;
               split; [discriminate | intros H; exfalso; apply H; tauto]
             | apply String.eqb_neq in E ]
         end.
  split; [|reflexivity]. intros _ H.
  repeat (destruct H as [H|H]; [symmetry in H; contradiction|]).
  exact H.
Qed.

Lemma visit_S (self : KernelNodeVisitor) (fuel : nat) (n : node) :
  visit self (S fuel) n =
  match getattr_visitor ("visit_" ++ class_name n)%string with
  | Some visitor => visitor self fuel (visit self fuel) n
  | None => generic_visit n
  end.
Proof. reflexivity. Qed.

Lemma visit_default (self : KernelNodeVisitor)
    (fuel : nat) (n : node) (s : VState) :
  getattr_visitor ("visit_" ++ class_name n)%string = None ->
  visit self (S fuel) n s = (Raise node_not_supported, s).
Proof. intros H. rewrite visit_S, H. reflexivity. Qed.

(** C1: the kinds with a [visit_<Kind>] method are the sixteen of
    [visited_kinds]; on a node of any other kind [visit] goes to
    [generic_visit], which raises [NotImplementedError]: nothing is
    lowered and the state of the visitor is as before. *)
Theorem visit_without_visitor_raises (self : KernelNodeVisitor)
    (fuel : nat) (n : node) (s : VState) :
  (getattr_visitor ("visit_" ++ class_name n)%string = None
   <-> ~ In (class_name n) visited_kinds)
  /\ (getattr_visitor ("visit_" ++ class_name n)%string = None ->
      visit self (S fuel) n s = (Raise node_not_supported, s)
      /\ exn_kind_of node_not_supported = NotImplementedError).
Proof.
  split; [apply getattr_visitor_kind|].
  intros H. split; [now apply visit_default | reflexivity].
Qed.

Lemma visit_without_visitor_raises_witness :
  visit Sample.self 1 (Other "Tuple" [Name "a"; Name "b"]) initial_state
  = (Raise node_not_supported, initial_state).
Proof.
  apply (proj2 (visit_without_visitor_raises Sample.self 0
                  (Other "Tuple" [Name "a"; Name "b"]) initial_state)).
  reflexivity.
Defined.

(** The statement kinds of the [ast] module the class has no method for,
    among them [Pass], [While] and [Expr], and the expression kinds
    [Tuple], [Subscript], [List] and [IfExp], are all refused. *)
Lemma visit_unvisited_kind (self : KernelNodeVisitor)
    (fuel : nat) (cls : string) (children : list node) (s : VState) :
  In cls ["Module"; "Pass"; "While"; "Expr"; "Break"; "Continue"; "With";
          "Raise"; "Try"; "Assert"; "Delete"; "Import"; "Global";
          "Tuple"; "List"; "Dict"; "Set"; "Subscript"; "Slice"; "Starred";
          "IfExp"; "Lambda"; "ListComp"; "JoinedStr"; "NamedExpr"] ->
  visit self (S fuel) (Other cls children) s = (Raise node_not_supported, s).
Proof.
  intros H. apply visit_default. simpl in H.
  repeat (destruct H as [<-|H]; [reflexivity|]). destruct H.
Qed.

(** ** The type resolver *)

(** C2, as the code has it: a string naming a declared parameter resolves
    to the declared type of that parameter; for every other operand no
    type is returned and the [raise] of the [else] branch is reached, also
    for the name of a shape symbol that is not a parameter name, to which
    no type is bound. *)
Theorem get_type_resolves_parameters (self : KernelNodeVisitor) :
  (forall name t,
     Dict.getitem (kp_args (kernel_p self)) name = Some t ->
     _get_type self (VStr name) = Ok t)
  /\ (forall operand,
        (forall name, operand = VStr name ->
                      Dict.contains (kp_args (kernel_p self)) name = false) ->
        _get_type self operand = Raise (unable_to_find_type self operand))
  /\ (forall name,
        Dict.contains (kp_symbols (kernel_p self)) name = true ->
        Dict.contains (kp_args (kernel_p self)) name = false ->
        _get_type self (VStr name)
        = Raise (unable_to_find_type self (VStr name))).
Proof.
  assert (Hother : forall operand,
             (forall name, operand = VStr name ->
                Dict.contains (kp_args (kernel_p self)) name = false) ->
             _get_type self operand
             = Raise (unable_to_find_type self operand)).
  { intros operand H. destruct operand; try reflexivity.
    simpl. specialize (H s eq_refl). unfold Dict.contains in H.
    destruct (Dict.getitem (kp_args (kernel_p self)) s);
      [discriminate | reflexivity]. }
  split; [|split].
  - intros name t H. simpl. now rewrite H.
  - exact Hother.
  - intros name _ H. apply Hother. intros name' E.
    inversion E; subst. exact H.
Qed.

Lemma get_type_resolves_parameters_witness :
  _get_type Sample.self (VStr "a") = Ok Sample.int32_MN
  /\ (exists e, _get_type Sample.self (VExpr NoneExpr) = Raise e)
  /\ (exists e, _get_type Sample.self (VStr "N") = Raise e).
Proof.
  destruct (get_type_resolves_parameters Sample.self) as [Hp [Ho Hs]].
  split; [|split].
  - apply Hp. reflexivity.
  - eexists. apply Ho. intros name E. discriminate E.
  - eexists. apply Hs; reflexivity.
Defined.

(** C2 as stated fails: [M] is a known shape symbol of the kernel [foo],
    yet the resolver has no type for it. *)
Lemma get_type_shape_symbol_unresolved :
  Dict.contains (kp_symbols (kernel_p Sample.self)) "M" = true
  /\ (exists e, _get_type Sample.self (VStr "M") = Raise e)
  /\ forall t, _get_type Sample.self (VStr "M") <> Ok t.
Proof.
  split; [reflexivity|]. split; [eexists; reflexivity|].
  intros t H. discriminate H.
Qed.

(** ** Returning a tuple *)

(** C6, at the code: the value of [return a, b] is a [Tuple] node, a kind
    without visitor method, so lowering the return stops in
    [generic_visit] with [NotImplementedError]; the test for a tuple in
    [visit_Return], with its [SyntaxError], is not reached. *)
Theorem return_of_tuple_node (self : KernelNodeVisitor) (fuel : nat)
    (lineno : Z) (elts : list node) (s : VState) :
  visit self (S (S fuel)) (Return (Some lineno) (Some (Other "Tuple" elts))) s
  = (Raise node_not_supported, s)
  /\ exn_kind_of node_not_supported <> SyntaxError.
Proof.
  split; [reflexivity | discriminate].
Qed.

(** The kernel [def foo(a, b): return a, b] as a whole. *)
Lemma tuple_kernel_raises_not_implemented :
  fst (visit Sample.self 3 Sample.tuple_def initial_state)
  = Raise node_not_supported.
Proof. reflexivity. Qed.

(** The [SyntaxError] of [visit_Return] is met only by a value whose
    visitor method returns a Python tuple, as [visit_keyword] does. *)
Lemma return_of_keyword_node (self : KernelNodeVisitor) (fuel : nat)
    (lineno : Z) (arg : option string) (id : string) (s : VState) :
  visit self (S (S (S fuel)))
        (Return (Some lineno) (Some (keyword arg (Name id)))) s
  = (Raise (Exn SyntaxError "returning tuple is not support" None), s).
Proof.
  simpl. unfold bind, visit_Name; simpl.
  destruct (Dict.contains (kp_symbols (kernel_p self)) id);
    [|destruct (Dict.contains (kp_args (kernel_p self)) id)]; reflexivity.
Qed.

(** ** The driver [from_source] *)

Section FromSourceProperties.
Context {CompilingObj Inputs FakeOutput ScriptCtx RtModule : Type}.
Variable steps :
  InductorSteps CompilingObj Inputs FakeOutput ScriptCtx RtModule.
Variable compiling_obj : CompilingObj.
Variable example_inputs : Inputs.

(** C9, as the code has it: an exception raised inside the [try] block
    of [from_source] reaches the caller unchanged in development mode;
    otherwise the caller gets an [Exception] made of the text of the
    failure, with no [__cause__] and its context marked as suppressed,
    whatever the kind of the failure was: the class of what is caught
    tells nothing. The failure itself is not dropped: it is the
    [__context__] of that exception. [KernelParser.parse2] wraps
    nothing and reads no mode: what its analysis passes or its visitor
    raise is what the caller gets. *)
Theorem from_source_error_surface :
  (forall e,
     from_source_try steps compiling_obj example_inputs = Raise e ->
     from_source steps true compiling_obj example_inputs = Raise e
     /\ from_source steps false compiling_obj example_inputs
        = Raise (mkExn GenericException (str_exn e) None (Some e) true))
  /\ (forall e,
        exn_kind_of (wrap_exception e) = GenericException
        /\ str_exn (wrap_exception e) = str_exn e
        /\ exn_cause (wrap_exception e) = None
        /\ exn_suppress_context (wrap_exception e) = true
        /\ exn_context (wrap_exception e) = Some e)
  /\ (forall kp main_node main_ast c fuel e,
        fst (visit (mkKernelNodeVisitor kp main_node c) fuel main_ast
                   initial_state) = Raise e ->
        parse2 kp (Ok (main_node, main_ast)) c fuel = Raise e)
  /\ (forall kp c fuel e, parse2 kp (Raise e) c fuel = Raise e).
Proof.
  split; [|split; [|split]].
  - intros e H. unfold from_source. rewrite H. split; reflexivity.
  - intros e. repeat split; reflexivity.
  - intros kp main_node main_ast c fuel e H. exact H.
  - reflexivity.
Qed.
End FromSourceProperties.

Lemma from_source_error_surface_witness :
  from_source Sample.failing_steps true tt tt
  = Raise (Exn NotImplementedError "no lowering for this operator" None)
  /\ from_source Sample.failing_steps false tt tt
     = Raise (mkExn GenericException "no lowering for this operator" None
                (Some (Exn NotImplementedError
                           "no lowering for this operator" None))
                true).
Proof.
  apply (proj1 (from_source_error_surface Sample.failing_steps tt tt)).
  reflexivity.
Defined.

(** C9 as stated fails for [KernelParser.parse2]: lowering
    [def foo(a, b): return a, b] ends in the [NotImplementedError] of the
    visitor itself, of which the caller sees the kind; and the exception
    [from_source] raises otherwise still refers to the failure. *)
Lemma parse2_error_is_not_wrapped :
  parse2 (KernelParser_init Sample.foo)
         (Ok (Sample.main_node, Sample.tuple_def)) Sample.collaborators 4
  = Raise node_not_supported
  /\ exn_kind_of node_not_supported = NotImplementedError
  /\ exn_kind_of node_not_supported <> GenericException
  /\ exn_context (wrap_exception node_not_supported)
     = Some node_not_supported.
Proof.
  repeat split; try reflexivity. discriminate.
Qed.

(** ** Running the monad *)

Lemma bind_inv {A B : Type} (m : M A) (k : A -> M B)
    (s : VState) (r : outcome B) (s' : VState) :
  bind m k s = (r, s') ->
  (exists a s1, m s = (Ok a, s1) /\ k a s1 = (r, s'))
  \/ (exists e, m s = (Raise e, s') /\ r = Raise e)
  \/ (m s = (OutOfFuel, s') /\ r = OutOfFuel).
Proof.
  unfold bind. destruct (m s) as [[a|e|] s1]; intros H.
  - left. eauto.
  - right. left. inversion H; subst. eauto.
  - right. right. inversion H; subst. auto.
Qed.

Lemma bind_ok {A B : Type} (m : M A) (k : A -> M B)
    (s s1 : VState) (a : A) :
  m s = (Ok a, s1) -> bind m k s = k a s1.
Proof. unfold bind. now intros ->. Qed.

Section Post.
Variable self : KernelNodeVisitor.

Lemma post_same {A : Type} (s : VState) (r : outcome A) : post self s r s.
Proof.
  split; [tauto|]. destruct r; [auto | exists [] | exists []];
    now rewrite app_nil_r.
Qed.

Lemma post_trans {A B : Type} (s s1 s2 : VState) (a : A) (r : outcome B) :
  post self s (Ok a) s1 -> post self s1 r s2 -> post self s r s2.
Proof.
  intros [Hb1 [Hh1 Hs1]] [Hb2 H2]. split; [tauto|].
  destruct r as [b|e|].
  - destruct H2 as [Hh2 Hs2]. split; [congruence|].
    destruct Hs2 as [->|Hs2]; [exact Hs1 | now right].
  - destruct H2 as [extra H2]. exists extra. congruence.
  - destruct H2 as [extra H2]. exists extra. congruence.
Qed.

(** A failed call seen from a caller whose result has another type. *)
Lemma post_fail {A B : Type} (s s' : VState) (r : outcome A)
    (r' : outcome B) :
  post self s r s' ->
  match r with Ok _ => False | _ => True end ->
  match r' with Ok _ => False | _ => True end ->
  post self s r' s'.
Proof.
  intros [Hb H] Hr Hr'. split; [exact Hb|].
  destruct r; [contradiction| |]; destruct r'; try contradiction; exact H.
Qed.

Lemma respects_ret {A : Type} (a : A) : respects self (ret a).
Proof. intros s r s' H. inversion H; subst. apply post_same. Qed.

Lemma respects_raise {A : Type} (k : exn_kind) (msg : string) :
  respects self (@raise A k msg).
Proof. intros s r s' H. inversion H; subst. apply post_same. Qed.

Lemma respects_out_of_fuel {A : Type} : respects self (@out_of_fuel A).
Proof. intros s r s' H. inversion H; subst. apply post_same. Qed.

Lemma respects_lift {A : Type} (o : outcome A) : respects self (lift o).
Proof. intros s r s' H. inversion H; subst. apply post_same. Qed.

Lemma respects_get_state : respects self get_state.
Proof. intros s r s' H. inversion H; subst. apply post_same. Qed.

Lemma respects_bind {A B : Type} (m : M A) (k : A -> M B) :
  respects self m -> (forall a, respects self (k a)) ->
  respects self (bind m k).
Proof.
  intros Hm Hk s r s' H.
  apply bind_inv in H as [[a [s1 [H1 H2]]]|[[e [H1 ->]]|[H1 ->]]].
  - eapply post_trans; [apply (Hm _ _ _ H1) | apply (Hk _ _ _ _ H2)].
  - apply (post_fail _ _ _ _ (Hm _ _ _ H1)); exact I.
  - apply (post_fail _ _ _ _ (Hm _ _ _ H1)); exact I.
Qed.

Lemma respects_get_context : respects self get_context.
Proof.
  unfold get_context. apply respects_bind; [apply respects_get_state|].
  intros s. destruct (self_context s);
    [apply respects_ret | apply respects_raise].
Qed.

Lemma respects_subscript {V : Type} (d : Dict.t V) (key : pyval) :
  respects self (subscript d key).
Proof.
  unfold subscript. destruct key; try apply respects_raise.
  destruct (Dict.getitem d s); [apply respects_ret | apply respects_raise].
Qed.

Lemma respects_attribute_error {A : Type} :
  respects self (@attribute_error A).
Proof. apply respects_raise. Qed.

(** Stepping through a method made of calls that respect the state. *)
Ltac respects_step :=
  first
    [ apply respects_ret
    | apply respects_raise
    | apply respects_attribute_error
    | apply respects_lift
    | apply respects_get_state
    | apply respects_get_context
    | apply respects_subscript
    | assumption
    | apply respects_bind; [|intros]
    | match goal with
      | H : forall n, respects self (?v n) |- respects self (?v _) =>
          apply H
      | |- respects self (match ?x with _ => _ end) => destruct x
      | |- respects self (if ?x then _ else _) => destruct x
      end ].

Section Methods.
Variable visit' : node -> M pyval.
Hypothesis visit_respects : forall n, respects self (visit' n).
Variable fuel : nat.

Lemma respects_visit_Constant (n : node) :
  respects self (visit_Constant self fuel visit' n).
Proof. unfold visit_Constant. repeat respects_step. Qed.

Lemma respects_visit_Name (n : node) :
  respects self (visit_Name self fuel visit' n).
Proof. unfold visit_Name. repeat respects_step. Qed.

Lemma respects_visit_UnaryOp (n : node) :
  respects self (visit_UnaryOp self fuel visit' n).
Proof. unfold visit_UnaryOp. repeat respects_step. Qed.

Lemma respects_visit_BinOp (n : node) :
  respects self (visit_BinOp self fuel visit' n).
Proof. unfold visit_BinOp. repeat respects_step. Qed.

Lemma respects_visit_keyword (n : node) :
  respects self (visit_keyword self fuel visit' n).
Proof. unfold visit_keyword. repeat respects_step. Qed.

Lemma respects_visit_Attribute (n : node) :
  respects self (visit_Attribute self fuel visit' n).
Proof. unfold visit_Attribute. repeat respects_step. Qed.

Lemma respects_visit_Assign (n : node) :
  respects self (visit_Assign self fuel visit' n).
Proof. unfold visit_Assign. repeat respects_step. Qed.

Lemma respects_visit_Return (n : node) :
  respects self (visit_Return self fuel visit' n).
Proof. unfold visit_Return. repeat respects_step. Qed.
End Methods.
End Post.

(** ** Entering a function definition *)

Lemma get_context_run (s : VState) (ctx : ScopeContext) :
  self_context s = Some ctx -> get_context s = (Ok ctx, s).
Proof. unfold get_context, bind, get_state. now intros ->. Qed.

Lemma set_context_run (s : VState) (ctx : ScopeContext) :
  set_context ctx s = (Ok tt, with_context ctx s).
Proof. reflexivity. Qed.

Lemma modify_context_run (f : ScopeContext -> option ScopeContext)
    (s : VState) (ctx ctx' : ScopeContext) :
  self_context s = Some ctx -> f ctx = Some ctx' ->
  modify_context f s = (Ok tt, with_context ctx' s).
Proof.
  intros Hs Hf. unfold modify_context.
  rewrite (bind_ok _ _ _ _ _ (get_context_run _ _ Hs)), Hf. reflexivity.
Qed.

Lemma set_buffer_run (s : VState) (arg : string) (buf : Buffer) :
  set_buffer arg buf s =
  (Ok tt,
   {| self_context := self_context s;
      session_handle_var_ctx := session_handle_var_ctx s;
      buffer_table := Dict.setitem (buffer_table s) arg buf;
      return_buffer := return_buffer s |}).
Proof. reflexivity. Qed.

Lemma set_return_buffer_run (s : VState) (buf : Buffer) :
  set_return_buffer buf s =
  (Ok tt,
   {| self_context := self_context s;
      session_handle_var_ctx := session_handle_var_ctx s;
      buffer_table := buffer_table s;
      return_buffer := Some buf |}).
Proof. reflexivity. Qed.

Lemma push_handle_var_run (s : VState) (v : PrimVar) :
  push_handle_var v s =
  (Ok tt,
   {| self_context := self_context s;
      session_handle_var_ctx := session_handle_var_ctx s ++ [v];
      buffer_table := buffer_table s;
      return_buffer := return_buffer s |}).
Proof. reflexivity. Qed.

Lemma pop_handle_var_run (s : VState) (rest : list PrimVar) (v : PrimVar) :
  session_handle_var_ctx s = rest ++ [v] ->
  pop_handle_var s =
  (Ok tt,
   {| self_context := self_context s;
      session_handle_var_ctx := rest;
      buffer_table := buffer_table s;
      return_buffer := return_buffer s |}).
Proof.
  intros H. unfold pop_handle_var, bind, get_state. now rewrite H, pop_snoc.
Qed.

Section Enter.
Variable self : KernelNodeVisitor.
Variable span : Span.

Let args := kp_args (kernel_p self).

Lemma declare_params_run (items : list (string * ArrayType)) :
  forall s ctx ss d,
    self_context s = Some ctx ->
    symbols ctx = ss ++ [d] ->
    (forall item, In item items -> In (fst item) (Dict.keys args)) ->
    declare_params self span items s =
    (Ok tt,
     {| self_context :=
          Some {| node_stack := node_stack ctx;
                  symbols :=
                    ss ++ [fold_left
                             (fun d item =>
                                Dict.setitem d (fst item)
                                             (bound_var self span item))
                             items d];
                  func_params :=
                    func_params ctx ++ map (bound_var self span) items;
                  func_ret_type := func_ret_type ctx |};
        session_handle_var_ctx := session_handle_var_ctx s;
        buffer_table :=
          fold_left
            (fun d item => Dict.setitem d (fst item) (decl_buffer [10%Z]))
            items (buffer_table s);
        return_buffer := return_buffer s |}).
Proof.
  induction items as [|[arg t] items IH]; intros s ctx ss d Hctx Hsyms Hin.
  - destruct s, ctx; simpl in *. subst. now rewrite app_nil_r.
  - simpl declare_params.
    destruct (getitem_In_keys args arg (Hin (arg, t) (or_introl eq_refl)))
      as [t' Ht'].
    fold args. rewrite Ht'.
    erewrite bind_ok;
      [| eapply modify_context_run;
         [ eassumption
         | unfold update_symbol, PyList.map_top;
           rewrite Hsyms, pop_snoc; reflexivity ] ].
    erewrite bind_ok; [| apply get_context_run; reflexivity ].
    erewrite bind_ok; [| apply set_context_run ].
    erewrite bind_ok; [| apply set_buffer_run ].
    erewrite IH; [| reflexivity | reflexivity
                  | intros item Hi; apply Hin; now right ].
    simpl.
    assert (Hv : bound_var self span (arg, t)
                 = mkPrimVar arg (DtypeStr (dtype_str t')) (Some span)).
    { unfold bound_var, param_var. simpl. fold args. now rewrite Ht'. }
    rewrite Hv. unfold PyList.append. now rewrite <- app_assoc.
Qed.
End Enter.

(** [visit_FunctionDef] up to the lowering of the body: no step of it can
    fail, and the state reached is [entered]. *)
Lemma visit_FunctionDef_enter (self : KernelNodeVisitor) (fuel : nat)
    (visit' : node -> M pyval) (lineno : Z) (name : string)
    (body : list node) (s : VState) :
  visit_FunctionDef self fuel visit' (FunctionDef lineno name body) s =
  bind (parse_body visit' fuel true) (leave self lineno)
       (entered self lineno body s).
Proof.
  unfold visit_FunctionDef.
  erewrite bind_ok; [| apply set_context_run ].
  erewrite bind_ok;
    [| eapply (declare_params_run self _ _ _ _ [] Dict.empty);
       [ reflexivity | reflexivity
       | intros item Hi;
         change (In (fst item) (map fst (kp_args (kernel_p self))));
         now apply in_map ] ].
  erewrite bind_ok; [| apply set_return_buffer_run ].
  erewrite bind_ok;
    [| eapply modify_context_run; [ reflexivity | reflexivity ] ].
  erewrite bind_ok; [| apply get_context_run; reflexivity ].
  erewrite bind_ok; [| apply set_context_run ].
  erewrite bind_ok; [| apply get_context_run; reflexivity ].
  cbn [func_params append_func_param new_scope ScopeContext_new
       node_stack symbols func_ret_type PyList.append app].
  rewrite top_snoc.
  erewrite bind_ok; [| apply push_handle_var_run ].
  reflexivity.
Qed.

(** ** The loop of [parse_body] *)

Lemma get_context_inv (s s' : VState) (r : outcome ScopeContext) :
  get_context s = (r, s') ->
  s' = s
  /\ match r with
     | Ok ctx => self_context s = Some ctx
     | Raise _ => self_context s = None
     | OutOfFuel => False
     end.
Proof.
  unfold get_context, bind, get_state.
  destruct (self_context s); intros H; inversion H; auto.
Qed.

Lemma with_context_same (s : VState) (ctx : ScopeContext) :
  self_context s = Some ctx -> with_context ctx s = s.
Proof. destruct s; simpl. now intros ->. Qed.

Lemma with_node_stack_same (ctx : ScopeContext) :
  with_node_stack (node_stack ctx) ctx = ctx.
Proof. now destruct ctx. Qed.

Section Loop.
Variable self : KernelNodeVisitor.
Variable visit' : node -> M pyval.
Hypothesis visit_respects : forall n, respects self (visit' n).

(** Without a frame the loop cannot even test its condition. *)
Lemma loop_no_frame (k : nat) (body : list stmt) (last_ast : option node)
    (s s' : VState) (r : outcome (list stmt * option node)) :
  no_frame s ->
  parse_body_loop visit' k body last_ast s = (r, s') ->
  failed r /\ s' = s.
Proof.
  intros [ctx [Hctx Hns]] H. destruct k; simpl in H.
  - inversion H; subst. split; [exact I | reflexivity].
  - rewrite (bind_ok _ _ _ _ _ (get_context_run _ _ Hctx)), Hns in H.
    inversion H; subst. split; [exact I | reflexivity].
Qed.

(** The loop from a state whose innermost frame is [frame]: it keeps
    the declared buffers and can only add to the handle stack; when it
    returns, every visit has left the state alone, the frame is used
    up, and [body] and [last_ast] are as [loop_result] says. *)
Lemma parse_body_loop_spec (k : nat) :
  forall body last_ast s r s',
    parse_body_loop visit' k body last_ast s = (r, s') ->
    (buffers_declared self s -> buffers_declared self s')
    /\ (exists extra,
          session_handle_var_ctx s' = session_handle_var_ctx s ++ extra)
    /\ (forall body' last_ast',
          r = Ok (body', last_ast') ->
          exists ctx below frame,
            self_context s = Some ctx
            /\ node_stack ctx = below ++ [frame]
            /\ s' = with_context (with_node_stack (below ++ [[]]) ctx) s
            /\ loop_result visit' frame body last_ast body' last_ast').
Proof.
  induction k as [|k IH]; intros body last_ast s r s' H.
  - inversion H; subst. split; [tauto|].
    split; [exists []; now rewrite app_nil_r | discriminate].
  - simpl in H.
    apply bind_inv in H as [[ctx [s1 [Hg H]]]|[[e [Hg ->]]|[Hg ->]]];
      apply get_context_inv in Hg as [-> Hctx];
      try (split; [tauto|]; split;
           [exists []; now rewrite app_nil_r | discriminate]).
    destruct (PyList.pop (node_stack ctx)) as [[below frame]|] eqn:Ens.
    2: { inversion H; subst. split; [tauto|].
         split; [exists []; now rewrite app_nil_r | discriminate]. }
    apply pop_Some in Ens.
    destruct (PyList.pop frame) as [[frame' x]|] eqn:Efr.
    2: { apply pop_None in Efr. subst frame. inversion H; subst.
         split; [tauto|]. split; [exists []; now rewrite app_nil_r|].
         intros body' last' E. inversion E; subst.
         exists ctx, below, []. repeat split; try assumption.
         rewrite <- Ens, with_node_stack_same.
         symmetry. now apply with_context_same. }
    apply pop_Some in Efr. subst frame.
    rewrite (bind_ok _ _ _ _ _ (set_context_run _ _)) in H.
    set (sa := with_context
                 (with_node_stack (PyList.append below frame') ctx) s) in *.
    apply bind_inv in H as [[res [s2 [Hx H]]]|[[e [Hx ->]]|[Hx ->]]].
    2,3: destruct (visit_respects _ _ _ _ Hx) as [Hb [extra Hh]];
         (split; [exact Hb|]; split; [exists extra; exact Hh | discriminate]).
    destruct (visit_respects _ _ _ _ Hx) as [Hb [Hh Hs2]].
    assert (Hcont : forall body1,
               parse_body_loop visit' k body1 (Some x) s2 = (r, s') ->
               (res = VNone /\ body1 = body
                \/ exists st, res = VStmt st /\ body1 = body ++ [st]) ->
               (buffers_declared self s -> buffers_declared self s')
               /\ (exists extra,
                     session_handle_var_ctx s'
                     = session_handle_var_ctx s ++ extra)
               /\ (forall body' last_ast',
                     r = Ok (body', last_ast') ->
                     exists ctx0 below0 frame0,
                       self_context s = Some ctx0
                       /\ node_stack ctx0 = below0 ++ [frame0]
                       /\ s' = with_context
                                 (with_node_stack (below0 ++ [[]]) ctx0) s
                       /\ loop_result visit' frame0 body last_ast
                                      body' last_ast')).
    { intros body1 Hloop Hres.
      destruct Hs2 as [->|Hnf].
      - destruct (IH _ _ _ _ _ Hloop) as [Hb' [[extra Hh'] Hok]].
        split; [tauto|]. split; [exists extra; exact Hh'|].
        intros body' last' E.
        destruct (Hok _ _ E) as [ctx0 [below0 [frame0 [Hc0 [Hn0 [Hs' Hl]]]]]].
        simpl in Hc0. inversion Hc0; subst ctx0. simpl in Hn0.
        apply app_inj_tail in Hn0 as [<- <-].
        exists ctx, below, (frame' ++ [x]).
        split; [exact Hctx|]. split; [exact Ens|].
        split; [rewrite Hs'; reflexivity|].
        unfold loop_result in *.
        destruct frame' as [|y frame']; simpl.
        + destruct Hl as [-> ->]. split; [reflexivity|].
          exists sa, res. split; [exact Hx|].
          destruct Hres as [[-> ->]|[st [-> ->]]].
          * left. split; [reflexivity|]. exists []. now rewrite app_nil_r.
          * right. exists st, []. split; reflexivity.
        + destruct Hl as [-> [sx [res' [Hy Hbody]]]].
          split; [reflexivity|]. exists sx, res'. split; [exact Hy|].
          destruct Hres as [[_ ->]|[st [_ ->]]]; [exact Hbody|].
          destruct Hbody as [[-> [pre ->]]|[st' [pre [-> ->]]]].
          * left. split; [reflexivity|]. exists (st :: pre).
            now rewrite <- app_assoc.
          * right. exists st', (st :: pre). split; [reflexivity|].
            now rewrite <- app_assoc.
      - destruct (loop_no_frame _ _ _ _ _ _ Hnf Hloop) as [Hf ->].
        split; [exact Hb|]. split; [exists []; rewrite app_nil_r; exact Hh|].
        intros body' last' ->. destruct Hf. }
    destruct res;
      try (inversion H; subst; split; [exact Hb|];
           split; [exists []; rewrite app_nil_r; exact Hh | discriminate]).
    + apply (Hcont body H). left. split; reflexivity.
    + apply (Hcont _ H). right. exists s0. split; reflexivity.
Qed.
End Loop.

(** ** The body of a function definition *)

Lemma buffers_declared_with_context (self : KernelNodeVisitor)
    (ctx : ScopeContext) (s : VState) :
  buffers_declared self (with_context ctx s) <-> buffers_declared self s.
Proof. unfold buffers_declared. simpl. tauto. Qed.

Lemma fold_declare_buffer (b : Buffer) (items : list (string * ArrayType)) :
  forall (d : Dict.t Buffer) (arg : string),
    Dict.getitem d arg = Some b \/ In arg (map fst items) ->
    Dict.getitem
      (fold_left (fun d item => Dict.setitem d (fst item) b) items d) arg
    = Some b.
Proof.
  induction items as [|[k t] items IH]; simpl; intros d arg H.
  - tauto.
  - apply IH. rewrite getitem_setitem.
    destruct (String.eqb arg k) eqn:E; [now left|].
    apply String.eqb_neq in E. destruct H as [H|[H|H]]; auto.
    congruence.
Qed.

Lemma entered_buffers (self : KernelNodeVisitor) (lineno : Z)
    (body : list node) (s : VState) :
  buffers_declared self (entered self lineno body s).
Proof.
  split; [|reflexivity]. intros arg H. simpl.
  apply fold_declare_buffer. now right.
Qed.

Section FunctionBody.
Variable self : KernelNodeVisitor.
Variable visit' : node -> M pyval.
Hypothesis visit_respects : forall n, respects self (visit' n).
Hypothesis visit_bare_return : bare_return_visit self visit'.

Lemma parse_body_spec (fuel : nat) (s s' : VState)
    (r : outcome (list stmt)) :
  parse_body visit' fuel true s = (r, s') ->
  (buffers_declared self s -> buffers_declared self s')
  /\ (exists extra,
        session_handle_var_ctx s' = session_handle_var_ctx s ++ extra)
  /\ (forall body_stmts,
        r = Ok body_stmts ->
        exists ctx below frame body0 last0,
          self_context s = Some ctx
          /\ node_stack ctx = below ++ [frame]
          /\ s' = with_context (with_node_stack (below ++ [[]]) ctx) s
          /\ loop_result visit' frame [] None body0 last0
          /\ if adds_return body0 last0
             then exists e,
                 smart_adapt_to (collab self) NoneExpr (func_ret_type ctx)
                 = Ok e
                 /\ body_stmts = body0 ++ [ReturnStmt (Some e) None]
             else body_stmts = body0).
Proof.
  unfold parse_body. intros H.
  apply bind_inv in H as [[[body0 last0] [s1 [Hl H]]]|[[e [Hl ->]]|[Hl ->]]].
  2,3: destruct (parse_body_loop_spec self visit' visit_respects _ _ _ _ _ _ Hl)
         as [Hb [Hh _]];
       (split; [exact Hb|]; split; [exact Hh | discriminate]).
  destruct (parse_body_loop_spec self visit' visit_respects _ _ _ _ _ _ Hl)
    as [Hb [Hh Hok]].
  destruct (Hok _ _ eq_refl) as [ctx [below [frame [Hc [Hn [Hs1 Hres]]]]]].
  cbn [fst snd andb] in H.
  fold (adds_return body0 last0) in H.
  destruct (adds_return body0 last0) eqn:Eadd.
  - apply bind_inv in H as [[res [s2 [Hr H]]]|[[e [Hr ->]]|[Hr ->]]];
      destruct (visit_bare_return _ _ _ Hr) as [-> Hval];
      try (split; [exact Hb|]; split; [exact Hh | discriminate]).
    destruct (Hval _ eq_refl) as [ctx1 [e [Hc1 [He ->]]]].
    inversion H; subst r s'.
    split; [exact Hb|]. split; [exact Hh|].
    intros body_stmts E. inversion E; subst body_stmts.
    exists ctx, below, frame, body0, last0.
    rewrite Eadd. repeat (split; [assumption|]).
    exists e. split; [|reflexivity].
    rewrite Hs1 in Hc1. simpl in Hc1. inversion Hc1; subst ctx1. exact He.
  - inversion H; subst r s'.
    split; [exact Hb|]. split; [exact Hh|].
    intros body_stmts E. inversion E; subst body_stmts.
    exists ctx, below, frame, body0, last0.
    rewrite Eadd. repeat (split; [assumption|]). reflexivity.
Qed.

(** [visit_FunctionDef] as a whole. *)
Lemma visit_FunctionDef_spec (fuel : nat) (lineno : Z) (name : string)
    (body : list node) (s s' : VState) (r : outcome pyval) :
  visit_FunctionDef self fuel visit' (FunctionDef lineno name body) s
  = (r, s') ->
  buffers_declared self s'
  /\ match r with
     | Ok val =>
         exists body0 last0 body_stmts,
           loop_result visit' (rev body) [] None body0 last0
           /\ (if adds_return body0 last0
               then exists e,
                   smart_adapt_to (collab self) NoneExpr
                                  (initial_func_ret_type (collab self))
                   = Ok e
                   /\ body_stmts = body0 ++ [ReturnStmt (Some e) None]
               else body_stmts = body0)
           /\ val = VFunction (lowered_function self lineno body_stmts)
           /\ s' = left_state self lineno s
     | _ =>
         exists extra,
           session_handle_var_ctx s'
           = session_handle_var_ctx s ++ pointer_var :: extra
     end.
Proof.
  rewrite visit_FunctionDef_enter. intros H.
  pose proof (entered_buffers self lineno body s) as Hbe.
  apply bind_inv in H as [[body_stmts [s2 [Hp H]]]|[[e [Hp ->]]|[Hp ->]]].
  2,3: destruct (parse_body_spec _ _ _ _ Hp) as [Hb [[extra Hh] _]];
       (split; [auto|]); exists extra; rewrite Hh; simpl;
       now rewrite <- app_assoc.
  destruct (parse_body_spec _ _ _ _ Hp) as [Hb [_ Hok]].
  destruct (Hok _ eq_refl)
    as [ctx [below [frame [body0 [last0 [Hc [Hn [Hs2 [Hl Hadd]]]]]]]]].
  simpl in Hc. inversion Hc; subst ctx. clear Hc. simpl in Hn.
  change [rev body] with ([] ++ [rev body]) in Hn.
  apply app_inj_tail in Hn as [<- <-].
  unfold leave in H.
  rewrite (bind_ok _ _ s2 s2 _) in H
    by (apply get_context_run; rewrite Hs2; reflexivity).
  rewrite (bind_ok _ _ s2 _ tt
             (pop_handle_var_run s2 (session_handle_var_ctx s) pointer_var
                ltac:(rewrite Hs2; reflexivity))) in H.
  erewrite bind_ok in H;
    [| eapply modify_context_run;
       [ simpl; rewrite Hs2; reflexivity | reflexivity ] ].
  inversion H; subst r s'. clear H.
  split.
  - apply Hb in Hbe. rewrite Hs2 in *. exact Hbe.
  - exists body0, last0, body_stmts.
    split; [exact Hl|]. split; [exact Hadd|].
    split; [reflexivity|]. rewrite Hs2. reflexivity.
Qed.

Lemma respects_visit_FunctionDef (fuel : nat) (n : node) :
  respects self (visit_FunctionDef self fuel visit' n).
Proof.
  destruct n; try apply respects_attribute_error.
  intros s r s' H. apply visit_FunctionDef_spec in H as [Hb H].
  split; [tauto|]. destruct r as [val|e|].
  - destruct H as [body0 [last0 [body_stmts [_ [_ [_ ->]]]]]].
    split; [reflexivity|]. right. eexists. split; reflexivity.
  - destruct H as [extra H]. eauto.
  - destruct H as [extra H]. eauto.
Qed.
End FunctionBody.

(** ** Every visit respects the state *)

Lemma visit_bare_return_all (self : KernelNodeVisitor) (fuel : nat) :
  bare_return_visit self (visit self fuel).
Proof.
  intros s r s' H. destruct fuel as [|fuel].
  - inversion H; subst. split; [reflexivity | discriminate].
  - rewrite visit_S in H.
    assert (E : getattr_visitor
                  ("visit_" ++ class_name (Return None None))%string
                = Some visit_Return) by reflexivity.
    rewrite E in H. unfold visit_Return in H.
    apply bind_inv in H as [[ctx [s1 [Hg H]]]|[[e [Hg ->]]|[Hg ->]]];
      apply get_context_inv in Hg as [-> Hctx];
      try (split; [reflexivity | discriminate]).
    unfold bind, lift in H.
    destruct (smart_adapt_to (collab self) NoneExpr (func_ret_type ctx))
      as [e| |] eqn:He; inversion H; subst;
      (split; [reflexivity|]); try discriminate.
    intros val Hval. inversion Hval; subst. eauto.
Qed.

Theorem visit_respects_state (self : KernelNodeVisitor) :
  forall fuel n, respects self (visit self fuel n).
Proof.
  induction fuel as [|fuel IH]; intros n.
  - apply respects_out_of_fuel.
  - rewrite visit_S.
    destruct (getattr_visitor ("visit_" ++ class_name n)%string)
      as [v|] eqn:E; [|apply respects_raise].
    apply getitem_Some_In in E. unfold visitor_methods in E. simpl in E.
    repeat (destruct E as [E|E];
            [ apply (f_equal snd) in E; simpl in E; subst v;
              first
                [ apply respects_visit_FunctionDef;
                  [exact IH | apply visit_bare_return_all]
                | apply respects_visit_Constant
                | apply respects_visit_Name
                | apply respects_visit_UnaryOp; exact IH
                | apply respects_visit_BinOp; exact IH
                | apply respects_visit_keyword; exact IH
                | apply respects_visit_Attribute; exact IH
                | apply respects_visit_Assign; exact IH
                | apply respects_visit_Return; exact IH
                | apply respects_raise
                | apply respects_ret ]
            | ]).
    destruct E.
Qed.

(** ** Lowered function definitions *)

Lemma visit_FunctionDef_S (self : KernelNodeVisitor) (fuel : nat)
    (lineno : Z) (name : string) (body : list node) :
  visit self (S fuel) (FunctionDef lineno name body) =
  visit_FunctionDef self fuel (visit self fuel) (FunctionDef lineno name body).
Proof. reflexivity. Qed.

(** What is known of a run of [visit] on a function definition. *)
Lemma visit_FunctionDef_result (self : KernelNodeVisitor) (fuel : nat)
    (lineno : Z) (name : string) (body : list node) (s s' : VState)
    (r : outcome pyval) :
  visit self (S fuel) (FunctionDef lineno name body) s = (r, s') ->
  buffers_declared self s'
  /\ match r with
     | Ok val =>
         exists body0 last0 body_stmts,
           loop_result (visit self fuel) (rev body) [] None body0 last0
           /\ (if adds_return body0 last0
               then exists e,
                   smart_adapt_to (collab self) NoneExpr
                                  (initial_func_ret_type (collab self))
                   = Ok e
                   /\ body_stmts = body0 ++ [ReturnStmt (Some e) None]
               else body_stmts = body0)
           /\ val = VFunction (lowered_function self lineno body_stmts)
           /\ s' = left_state self lineno s
     | _ =>
         exists extra,
           session_handle_var_ctx s'
           = session_handle_var_ctx s ++ pointer_var :: extra
     end.
Proof.
  rewrite visit_FunctionDef_S.
  apply visit_FunctionDef_spec.
  - apply visit_respects_state.
  - apply visit_bare_return_all.
Qed.

Lemma bound_var_declared (self : KernelNodeVisitor) (span : Span)
    (item : string * ArrayType) :
  NoDup (Dict.keys (kp_args (kernel_p self))) ->
  In item (kp_args (kernel_p self)) ->
  bound_var self span item = param_var span item.
Proof.
  intros Hnd Hin. unfold bound_var. destruct item as [arg t]. simpl.
  now rewrite (getitem_NoDup _ _ _ Hnd Hin).
Qed.

Lemma top_is_last {A : Type} (l : list A) :
  PyList.top l = hd_error (rev l).
Proof.
  destruct l as [|x l] using rev_ind; [reflexivity|].
  now rewrite top_snoc, rev_app_distr.
Qed.

Lemma final_stmt_to_seq_stmt (pre : list stmt) (value : option expr)
    (sp : option Span) (span : Span) :
  final_stmt (to_seq_stmt (pre ++ [ReturnStmt value sp]) span)
  = Some (ReturnStmt value sp).
Proof.
  destruct pre as [|s1 pre]; [reflexivity|].
  assert (E : to_seq_stmt ((s1 :: pre) ++ [ReturnStmt value sp]) span
              = SeqStmt ((s1 :: pre) ++ [ReturnStmt value sp]) span).
  { simpl. destruct (pre ++ [ReturnStmt value sp]) eqn:E'; [|reflexivity].
    destruct pre; discriminate. }
  rewrite E. unfold final_stmt. apply top_snoc.
Qed.

(** C3: the function a definition is lowered to has, for parameters, the
    variables of the declared parameters in their declared order and then
    one more, the variable [handle_2_71828182846] of type [handle]; with
    two declared parameters that makes three. *)
Theorem function_parameters (func : PyFunction) (main_node : ASTNode)
    (c : Collaborators) (fuel : nat) (lineno : Z) (name : string)
    (body : list node) (s s' : VState) (val : pyval) :
  let self := mkKernelNodeVisitor (KernelParser_init func) main_node c in
  NoDup (map fst (fn_parameters func)) ->
  visit self fuel (FunctionDef lineno name body) s = (Ok val, s') ->
  exists f,
    val = VFunction f
    /\ fn_params f
       = map (param_var (build_span self lineno)) (fn_parameters func)
         ++ [mkPrimVar "handle_2_71828182846" (PrimType "handle") None]
    /\ (List.length (fn_parameters func) = 2%nat ->
        List.length (fn_params f) = 3%nat).
Proof.
  intros self Hnd H. destruct fuel as [|fuel]; [discriminate H|].
  apply visit_FunctionDef_result in H as [_ H].
  destruct H as [body0 [last0 [body_stmts [_ [_ [-> _]]]]]].
  exists (lowered_function self lineno body_stmts).
  assert (Hp : fn_params (lowered_function self lineno body_stmts)
               = map (param_var (build_span self lineno)) (fn_parameters func)
                 ++ [pointer_var]).
  { simpl. f_equal.
    change (fold_left
              (fun (d : Dict.t ArrayType) (kv : string * ArrayType) =>
                 Dict.setitem d (fst kv) (snd kv))
              (fn_parameters func) Dict.empty)
      with (kp_args (KernelParser_init func)).
    rewrite <- (KernelParser_args_declared func Hnd).
    apply map_ext_in. intros item Hin.
    apply (bound_var_declared self); [|exact Hin].
    apply KernelParser_args_NoDup. }
  split; [reflexivity|]. split; [exact Hp|].
  intros Hlen. rewrite Hp, length_app, length_map, Hlen. reflexivity.
Qed.

Lemma function_parameters_witness :
  exists f,
    fst (visit Sample.self 6 Sample.foo_def initial_state) = Ok (VFunction f)
    /\ List.length (fn_params f) = 3%nat.
Proof.
  destruct (function_parameters Sample.foo Sample.main_node
              Sample.collaborators 6 1 "foo"
              [AnnAssign (Name "k") (Name "int32")
                         (Some (Constant (CNum (NInt 0))));
               Sample.loops;
               Return (Some 5%Z) (Some (Name "a"))]
              initial_state
              (snd (visit Sample.self 6 Sample.foo_def initial_state))
              (match fst (visit Sample.self 6 Sample.foo_def initial_state)
               with Ok v => v | _ => VNone end))
    as [f [Hf [_ Hlen]]].
  - simpl. repeat constructor; simpl; intuition discriminate.
  - vm_compute. reflexivity.
  - exists f. split; [rewrite <- Hf; reflexivity | apply Hlen; reflexivity].
Defined.

(** ** Stack discipline *)

(** A visit of any node that returns leaves the handle stack as it was. *)
Lemma visit_keeps_handles (self : KernelNodeVisitor) (fuel : nat)
    (n : node) (s s' : VState) (val : pyval) :
  visit self fuel n s = (Ok val, s') ->
  session_handle_var_ctx s' = session_handle_var_ctx s.
Proof.
  intros H. apply visit_respects_state in H as [_ [H _]]. exact H.
Qed.

(** ** Return statements *)

Lemma visit_Name_run (self : KernelNodeVisitor) (fuel : nat)
    (id : string) (s : VState) :
  visit self (S fuel) (Name id) s = (Ok (VStr id), s).
Proof.
  rewrite visit_S.
  assert (E : getattr_visitor ("visit_" ++ class_name (Name id))%string
              = Some visit_Name) by reflexivity.
  rewrite E. unfold visit_Name.
  destruct (Dict.contains (kp_symbols (kernel_p self)) id);
    [|destruct (Dict.contains (kp_args (kernel_p self)) id)]; reflexivity.
Qed.

Lemma visit_return_of_name (self : KernelNodeVisitor) (fuel : nat)
    (lineno : Z) (id : string) (s s' : VState) (res : pyval) :
  visit self fuel (Return (Some lineno) (Some (Name id))) s = (Ok res, s') ->
  res = VStmt (ReturnStmt None (Some (build_span self lineno))).
Proof.
  destruct fuel as [|[|fuel]]; [discriminate | discriminate |].
  rewrite visit_S.
  assert (E : getattr_visitor
                ("visit_"
                 ++ class_name (Return (Some lineno) (Some (Name id))))%string
              = Some visit_Return) by reflexivity.
  rewrite E. unfold visit_Return.
  rewrite (bind_ok _ _ _ _ _ (visit_Name_run self fuel id s)).
  intros H. inversion H. reflexivity.
Qed.

Lemma visit_bare_return_run (self : KernelNodeVisitor) (fuel : nat)
    (s : VState) (ctx : ScopeContext) (e : expr) :
  self_context s = Some ctx ->
  smart_adapt_to (collab self) NoneExpr (func_ret_type ctx) = Ok e ->
  visit self (S fuel) (Return None None) s
  = (Ok (VStmt (ReturnStmt (Some e) None)), s).
Proof.
  intros Hctx He. rewrite visit_S.
  assert (E : getattr_visitor
                ("visit_" ++ class_name (Return None None))%string
              = Some visit_Return) by reflexivity.
  rewrite E. unfold visit_Return.
  rewrite (bind_ok _ _ _ _ _ (get_context_run _ _ Hctx)).
  unfold bind, lift. rewrite He. reflexivity.
Qed.

(** ** Bodies of statements the visitor passes over *)

Lemma visit_passed_over (self : KernelNodeVisitor) (fuel : nat)
    (n : node) (s : VState) :
  passed_over n = true -> visit self (S fuel) n s = (Ok VNone, s).
Proof. destruct n; try discriminate; reflexivity. Qed.

Lemma visit_return_of_name_run (self : KernelNodeVisitor) (fuel : nat)
    (lineno : Z) (id : string) (s : VState) :
  visit self (S (S fuel)) (Return (Some lineno) (Some (Name id))) s
  = (Ok (VStmt (ReturnStmt None (Some (build_span self lineno)))), s).
Proof.
  rewrite visit_S.
  assert (E : getattr_visitor
                ("visit_"
                 ++ class_name (Return (Some lineno) (Some (Name id))))%string
              = Some visit_Return) by reflexivity.
  rewrite E. unfold visit_Return.
  rewrite (bind_ok _ _ _ _ _ (visit_Name_run self fuel id s)).
  reflexivity.
Qed.

(** One turn of the loop on a frame that is not empty. *)
Lemma parse_body_loop_turn (visit' : node -> M pyval) (k : nat)
    (body : list stmt) (last_ast : option node) (s : VState)
    (ctx : ScopeContext) (below : list (list node)) (frame : list node)
    (x : node) :
  self_context s = Some ctx ->
  node_stack ctx = below ++ [frame ++ [x]] ->
  parse_body_loop visit' (S k) body last_ast s
  = bind (visit' x)
         (fun res =>
            match res with
            | VNone => parse_body_loop visit' k body (Some x)
            | VStmt st =>
                parse_body_loop visit' k (PyList.append body st) (Some x)
            | _ => raise SyntaxError "Every IR node here should be a stmt!"
            end)
         (with_context (with_node_stack (below ++ [frame]) ctx) s).
Proof.
  intros Hctx Hns. simpl.
  rewrite (bind_ok _ _ _ _ _ (get_context_run _ _ Hctx)).
  rewrite Hns, !pop_snoc.
  rewrite (bind_ok _ _ _ _ _ (set_context_run _ _)). reflexivity.
Qed.

(** The last turn of the loop, on an empty frame. *)
Lemma parse_body_loop_done (visit' : node -> M pyval) (k : nat)
    (body : list stmt) (last_ast : option node) (s : VState)
    (ctx : ScopeContext) (below : list (list node)) :
  self_context s = Some ctx ->
  node_stack ctx = below ++ [[]] ->
  parse_body_loop visit' (S k) body last_ast s = (Ok (body, last_ast), s).
Proof.
  intros Hctx Hns. simpl.
  rewrite (bind_ok _ _ _ _ _ (get_context_run _ _ Hctx)).
  rewrite Hns, pop_snoc. reflexivity.
Qed.

(** The loop walks over passed-over statements at the end of the frame
    and leaves nothing of them in the body. *)
Lemma parse_body_loop_skip (self : KernelNodeVisitor) (fuel : nat)
    (tl : list node) :
  forall rest k body last_ast s ctx below,
    self_context s = Some ctx ->
    node_stack ctx = below ++ [rest ++ tl] ->
    forallb passed_over tl = true ->
    parse_body_loop (visit self (S fuel)) (List.length tl + k) body last_ast s
    = parse_body_loop (visit self (S fuel)) k body
        (match tl with [] => last_ast | x :: _ => Some x end)
        (with_context (with_node_stack (below ++ [rest]) ctx) s).
Proof.
  induction tl as [|x tl IH] using rev_ind;
    intros rest k body last_ast s ctx below Hctx Hns Hpo.
  - rewrite app_nil_r in Hns. rewrite <- Hns, with_node_stack_same.
    now rewrite (with_context_same _ _ Hctx).
  - rewrite forallb_app in Hpo. apply andb_prop in Hpo as [Htl Hx].
    simpl in Hx. rewrite andb_true_r in Hx.
    rewrite length_app. simpl List.length.
    replace (List.length tl + 1 + k)%nat with (S (List.length tl + k))
      by lia.
    rewrite app_assoc in Hns.
    rewrite (parse_body_loop_turn _ _ _ _ _ _ _ _ _ Hctx Hns).
    rewrite (bind_ok _ _ _ _ _ (visit_passed_over self fuel x _ Hx)).
    rewrite (IH rest k body (Some x)
               (with_context (with_node_stack (below ++ [rest ++ tl]) ctx) s)
               (with_node_stack (below ++ [rest ++ tl]) ctx)
               below eq_refl eq_refl Htl).
    f_equal. destruct tl; reflexivity.
Qed.

Lemma passed_over_rev (stmts : list node) :
  forallb passed_over stmts = true ->
  forallb passed_over (rev stmts) = true.
Proof.
  intros H. apply forallb_forall. intros x Hx. apply in_rev in Hx.
  revert x Hx. now apply forallb_forall.
Qed.

(** Leaving a function definition from the state the loop ends in. *)
Lemma leave_run (self : KernelNodeVisitor) (lineno : Z)
    (body : list node) (s : VState) (body_stmts : list stmt) :
  leave self lineno body_stmts (body_lowered self lineno body s)
  = (Ok (VFunction (lowered_function self lineno body_stmts)),
     left_state self lineno s).
Proof.
  unfold leave.
  erewrite bind_ok; [| apply get_context_run; reflexivity ].
  erewrite bind_ok;
    [| apply (pop_handle_var_run _ (session_handle_var_ctx s) pointer_var);
       reflexivity ].
  erewrite bind_ok;
    [| eapply modify_context_run; [ reflexivity | reflexivity ] ].
  reflexivity.
Qed.

(** A body of passed-over statements followed by the return of a name
    lowers, given fuel for its statements, to that return alone. *)
Lemma lowering_with_final_return (self : KernelNodeVisitor) (fuel : nat)
    (lineno : Z) (name : string) (stmts : list node)
    (return_lineno : Z) (id : string) (s : VState) :
  forallb passed_over stmts = true ->
  visit self (S (S (S (fuel + List.length stmts))))
        (FunctionDef lineno name
           (stmts ++ [Return (Some return_lineno) (Some (Name id))])) s
  = (Ok (VFunction
           (lowered_function self lineno
              [ReturnStmt None (Some (build_span self return_lineno))])),
     left_state self lineno s).
Proof.
  intros Hpo.
  set (R := Return (Some return_lineno) (Some (Name id))).
  set (K := S (fuel + List.length stmts)).
  rewrite visit_FunctionDef_S, visit_FunctionDef_enter.
  assert (Hloop :
            parse_body_loop (visit self (S K)) (S K) [] None
                            (entered self lineno (stmts ++ [R]) s)
            = (Ok ([ReturnStmt None (Some (build_span self return_lineno))],
                   Some R),
               body_lowered self lineno (stmts ++ [R]) s)).
  { set (v := visit self (S K)).
    replace (S K) with (List.length (rev stmts) + S (S fuel))%nat
      by (unfold K; rewrite length_rev; lia).
    subst v.
    erewrite parse_body_loop_skip
      with (rest := [R]) (below := [])
           (ctx := entered_context self lineno (stmts ++ [R]));
      [| reflexivity
       | unfold entered_context; simpl; rewrite rev_app_distr; reflexivity
       | apply passed_over_rev; exact Hpo ].
    erewrite parse_body_loop_turn with (frame := []) (x := R) (below := []);
      [| reflexivity | reflexivity ].
    erewrite bind_ok; [| apply visit_return_of_name_run ].
    cbv beta iota.
    erewrite parse_body_loop_done with (below := []);
      [| reflexivity | reflexivity ].
    reflexivity. }
  unfold parse_body.
  erewrite bind_ok; [| erewrite bind_ok; [| exact Hloop ]; reflexivity ].
  apply leave_run.
Qed.

(** A body of passed-over statements only lowers, given fuel for its
    statements and an adaption of the none expression that returns, to
    the return [parse_body] adds. *)
Lemma lowering_with_added_return (self : KernelNodeVisitor) (fuel : nat)
    (lineno : Z) (name : string) (stmts : list node) (s : VState)
    (e : expr) :
  forallb passed_over stmts = true ->
  smart_adapt_to (collab self) NoneExpr (initial_func_ret_type (collab self))
  = Ok e ->
  visit self (S (S (fuel + List.length stmts)))
        (FunctionDef lineno name stmts) s
  = (Ok (VFunction
           (lowered_function self lineno [ReturnStmt (Some e) None])),
     left_state self lineno s).
Proof.
  intros Hpo He.
  set (K := (fuel + List.length stmts)%nat).
  rewrite visit_FunctionDef_S, visit_FunctionDef_enter.
  assert (Hloop :
            parse_body_loop (visit self (S K)) (S K) [] None
                            (entered self lineno stmts s)
            = (Ok ([], match rev stmts with
                       | [] => None
                       | x :: _ => Some x
                       end),
               body_lowered self lineno stmts s)).
  { set (v := visit self (S K)).
    replace (S K) with (List.length (rev stmts) + S fuel)%nat
      by (unfold K; rewrite length_rev; lia).
    subst v.
    erewrite parse_body_loop_skip
      with (rest := []) (below := [])
           (ctx := entered_context self lineno stmts);
      [| reflexivity | reflexivity | apply passed_over_rev; exact Hpo ].
    erewrite parse_body_loop_done with (below := []);
      [| reflexivity | reflexivity ].
    reflexivity. }
  unfold parse_body.
  erewrite bind_ok;
    [| erewrite bind_ok; [| exact Hloop ];
       cbn [fst snd andb List.length Nat.eqb orb];
       erewrite bind_ok;
         [| apply (visit_bare_return_run self K
                     (body_lowered self lineno stmts s) _ e eq_refl He) ];
       reflexivity ].
  apply leave_run.
Qed.

(** ** The last statement of a lowered body *)

(** C7, as the code has it: when the body of a kernel ends in the return
    of a name, the last statement of the lowered function is the return
    statement [ReturnStmt(None, span)]: it carries the span of the return
    and no value, the lowered name is dropped. When the statements before
    the return are passed over by the visitor, as the loops, conditionals
    and annotated assignments of the test kernels are, the lowering
    returns, given fuel for them, and the body is that return alone. *)
Theorem return_of_parameter (self : KernelNodeVisitor)
    (lineno : Z) (name : string) (return_lineno : Z) (id : string) :
  let ret := Return (Some return_lineno) (Some (Name id)) in
  let lowered := ReturnStmt None (Some (build_span self return_lineno)) in
  (forall fuel body s s' f,
     visit self fuel (FunctionDef lineno name (body ++ [ret])) s
     = (Ok (VFunction f), s') ->
     final_stmt (fn_body f) = Some lowered
     /\ forall v sp, final_stmt (fn_body f) <> Some (ReturnStmt (Some v) sp))
  /\ (forall fuel stmts s,
        forallb passed_over stmts = true ->
        visit self (S (S (S (fuel + List.length stmts))))
              (FunctionDef lineno name (stmts ++ [ret])) s
        = (Ok (VFunction (lowered_function self lineno [lowered])),
           left_state self lineno s)).
Proof.
  intros ret lowered. split.
  - intros fuel body s s' f H. destruct fuel as [|fuel]; [discriminate H|].
    apply visit_FunctionDef_result in H as [_ H].
    destruct H as [body0 [last0 [body_stmts [Hl [Hadd [Hf _]]]]]].
    inversion Hf; subst f. clear Hf.
    rewrite rev_app_distr in Hl. simpl in Hl.
    destruct Hl as [-> [sx [res [Hx Hbody]]]].
    apply visit_return_of_name in Hx. subst res.
    destruct Hbody as [[Hres _]|[st [pre [Hres ->]]]]; [discriminate Hres|].
    inversion Hres; subst st. clear Hres.
    cbn [app] in Hadd.
    assert (Eadd : adds_return (pre ++ [lowered]) (Some ret) = false).
    { unfold adds_return. simpl. rewrite length_app. simpl.
      rewrite Nat.add_1_r. reflexivity. }
    fold lowered in Hadd. rewrite Eadd in Hadd. subst body_stmts.
    assert (Hfinal : final_stmt
                       (fn_body
                          (lowered_function self lineno (pre ++ [lowered])))
                     = Some lowered)
      by apply final_stmt_to_seq_stmt.
    split; [exact Hfinal|]. intros v sp Hv. rewrite Hfinal in Hv.
    discriminate Hv.
  - intros fuel stmts s Hpo. now apply lowering_with_final_return.
Qed.

Lemma return_of_parameter_witness :
  (exists f,
     fst (visit Sample.self 6 Sample.foo_def initial_state) = Ok (VFunction f)
     /\ final_stmt (fn_body f)
        = Some (ReturnStmt None (Some (build_span Sample.self 5))))
  /\ fst (visit Sample.self 5 Sample.foo_def initial_state)
     = Ok (VFunction
             (lowered_function Sample.self 1
                [ReturnStmt None (Some (build_span Sample.self 5))])).
Proof.
  destruct (return_of_parameter Sample.self 1 "foo" 5 "a") as [Hlast Hrun].
  split.
  - eexists. split; [vm_compute; reflexivity|].
    eapply (Hlast 6%nat
              [AnnAssign (Name "k") (Name "int32")
                         (Some (Constant (CNum (NInt 0))));
               Sample.loops] initial_state).
    vm_compute. reflexivity.
  - exact (f_equal fst
             (Hrun 0%nat
                [AnnAssign (Name "k") (Name "int32")
                           (Some (Constant (CNum (NInt 0))));
                 Sample.loops] initial_state eq_refl)).
Defined.

(** C7 as stated fails: the kernel of [test_scalar_rhs_nd1] ends in
    [return a], and the last statement of its lowered function is a return
    without value, not a return of the variable [a] is bound to. *)
Lemma return_of_parameter_has_no_value :
  exists f,
    fst (visit Sample.self 6 Sample.foo_def initial_state) = Ok (VFunction f)
    /\ final_stmt (fn_body f)
       = Some (ReturnStmt None (Some (build_span Sample.self 5)))
    /\ forall sp,
         final_stmt (fn_body f)
         <> Some (ReturnStmt
                    (Some (VarExpr (param_var (build_span Sample.self 1)
                                              ("a", Sample.int32_MN))))
                    sp).
Proof.
  eexists. split; [vm_compute; reflexivity|].
  split; [vm_compute; reflexivity|].
  intros sp H. vm_compute in H. discriminate H.
Qed.

(** C8, as the code has it: when the statement list of a function body is
    empty or does not end in a return statement, the lowered body is the
    lowered statements followed by one more statement, the lowering of
    [ast.Return(value=None)]: a return of the none expression adapted by
    [smart_adapt_to] to the return type the scope context holds, which is
    the one a new scope context starts with, whatever return type the
    kernel declares. When the statements are passed over by the visitor
    (none at all, or loops, conditionals and annotated assignments), the
    lowering returns, given fuel for them, as soon as the adaption does,
    and the body is that return alone. *)
Theorem bare_return_is_added (self : KernelNodeVisitor) (lineno : Z)
    (name : string) :
  (forall fuel body s s' f,
     visit self fuel (FunctionDef lineno name body) s
     = (Ok (VFunction f), s') ->
     isinstance_Return (PyList.top body) = false ->
     exists e lowered,
       smart_adapt_to (collab self) NoneExpr
                      (initial_func_ret_type (collab self)) = Ok e
       /\ fn_body f
          = to_seq_stmt (lowered ++ [ReturnStmt (Some e) None])
                        (build_span self lineno)
       /\ final_stmt (fn_body f) = Some (ReturnStmt (Some e) None))
  /\ (forall fuel stmts s e,
        forallb passed_over stmts = true ->
        smart_adapt_to (collab self) NoneExpr
                       (initial_func_ret_type (collab self)) = Ok e ->
        visit self (S (S (fuel + List.length stmts)))
              (FunctionDef lineno name stmts) s
        = (Ok (VFunction
                 (lowered_function self lineno [ReturnStmt (Some e) None])),
           left_state self lineno s)).
Proof.
  split.
  - intros fuel body s s' f H Hlast.
    destruct fuel as [|fuel]; [discriminate H|].
    apply visit_FunctionDef_result in H as [_ H].
    destruct H as [body0 [last0 [body_stmts [Hl [Hadd [Hf _]]]]]].
    inversion Hf; subst f. clear Hf.
    assert (Eadd : adds_return body0 last0 = true).
    { rewrite top_is_last in Hlast. unfold loop_result in Hl.
      destruct (rev body) as [|x rest]; cbn [hd_error] in Hlast.
      - destruct Hl as [-> ->]. reflexivity.
      - destruct Hl as [-> _]. unfold adds_return.
        rewrite Hlast. apply orb_true_r. }
    rewrite Eadd in Hadd. destruct Hadd as [e [He ->]].
    exists e, body0. split; [exact He|]. split; [reflexivity|].
    apply final_stmt_to_seq_stmt.
  - intros fuel stmts s e Hpo He. now apply lowering_with_added_return.
Qed.

Lemma bare_return_is_added_witness :
  (exists f,
     fst (visit Sample.self 3 Sample.loops_def initial_state)
     = Ok (VFunction f)
     /\ final_stmt (fn_body f)
        = Some (ReturnStmt (Some (HLOCast None NoneExpr)) None))
  /\ fst (visit Sample.self 2 Sample.empty_def initial_state)
     = Ok (VFunction
             (lowered_function Sample.self 1
                [ReturnStmt (Some (HLOCast None NoneExpr)) None])).
Proof.
  destruct (bare_return_is_added Sample.self 1 "foo") as [Hadd Hrun].
  split.
  - destruct (Hadd 3%nat [Sample.loops] initial_state
                (snd (visit Sample.self 3 Sample.loops_def initial_state))
                (lowered_function Sample.self 1
                   [ReturnStmt (Some (HLOCast None NoneExpr)) None]))
      as [e [lowered [He [_ Hfinal]]]];
      [vm_compute; reflexivity | reflexivity |].
    eexists. split; [vm_compute; reflexivity|].
    vm_compute in He. inversion He; subst e. exact Hfinal.
  - exact (f_equal fst
             (Hrun 0%nat [] initial_state (HLOCast None NoneExpr)
                   eq_refl eq_refl)).
Defined.

(** C8 as stated fails: [foo] is declared to return [int32[M, N]], and the
    return that is added to its body adapts the none expression to no
    type at all, the return type of a new scope context; declaring
    another return type gives the same function. *)
Lemma bare_return_ignores_declared_type :
  let other :=
    mkKernelNodeVisitor
      (KernelParser_init
         (mkPyFunction "foo" "test_kernel_for_loop_parser.py"
            [("a", Sample.int32_MN); ("b", Sample.int32_MN)]
            Sample.int32_34))
      Sample.main_node Sample.collaborators in
  kp_return_types (kernel_p Sample.self) = Sample.int32_MN
  /\ kp_return_types (kernel_p other) = Sample.int32_34
  /\ (exists f,
        fst (visit Sample.self 3 Sample.loops_def initial_state)
        = Ok (VFunction f)
        /\ final_stmt (fn_body f)
           = Some (ReturnStmt (Some (HLOCast None NoneExpr)) None)
        /\ final_stmt (fn_body f)
           <> Some (ReturnStmt (Some (HLOCast (Some NDArrayType) NoneExpr))
                               None))
  /\ fst (visit other 3 Sample.loops_def initial_state)
     = fst (visit Sample.self 3 Sample.loops_def initial_state).
Proof.
  split; [reflexivity|]. split; [reflexivity|]. split.
  - eexists. split; [vm_compute; reflexivity|].
    split; [vm_compute; reflexivity|].
    intros H. vm_compute in H. discriminate H.
  - vm_compute. reflexivity.
Qed.

(** ** Buffers *)

(** C10: once a function definition is entered, the buffer of every
    declared parameter and the return buffer are [decl_buffer((10,))],
    whatever the declared types are: in the state in which the lowering of
    the body starts, and in the state the visit ends in, whether it returns
    or raises. *)
Theorem buffers_have_shape_10 (self : KernelNodeVisitor) (fuel : nat)
    (lineno : Z) (name : string) (body : list node) (s : VState) :
  visit self (S fuel) (FunctionDef lineno name body) s
  = bind (parse_body (visit self fuel) fuel true) (leave self lineno)
         (entered self lineno body s)
  /\ buffers_declared self (entered self lineno body s)
  /\ buffers_declared self
       (snd (visit self (S fuel) (FunctionDef lineno name body) s))
  /\ buffer_shape (decl_buffer [10%Z]) = [10%Z].
Proof.
  split; [|split; [|split]].
  - rewrite visit_FunctionDef_S. apply visit_FunctionDef_enter.
  - apply entered_buffers.
  - destruct (visit self (S fuel) (FunctionDef lineno name body) s)
      as [r s'] eqn:E.
    apply visit_FunctionDef_result in E as [Hb _]. exact Hb.
  - reflexivity.
Qed.

Lemma buffers_have_shape_10_witness :
  Dict.getitem
    (buffer_table (snd (visit Sample.self 6 Sample.foo_def initial_state)))
    "b"
  = Some (mkBuffer [10%Z]).
Proof.
  apply (proj1 (proj1 (proj2 (proj2
           (buffers_have_shape_10 Sample.self 5 1 "foo"
              [AnnAssign (Name "k") (Name "int32")
                         (Some (Constant (CNum (NInt 0))));
               Sample.loops;
               Return (Some 5%Z) (Some (Name "a"))]
              initial_state))))).
  simpl. tauto.
Defined.

(* ================================================================== *)
(** * More of the visitor *)

(** ** The statements of a body, one by one *)

Section LoopOrder.
Variable self : KernelNodeVisitor.
Variable visit' : node -> M pyval.
Hypothesis visit_respects : forall n, respects self (visit' n).

(** A loop that returns has visited the statements of its frame in the
    order of the source, each visit returning [None] or a statement and
    leaving the state alone, and has appended the statements in that
    order. *)
Lemma parse_body_loop_lowers (k : nat) :
  forall body last_ast s ctx below frame body' last_ast' s',
    self_context s = Some ctx ->
    node_stack ctx = below ++ [frame] ->
    parse_body_loop visit' k body last_ast s = (Ok (body', last_ast'), s') ->
    exists results,
      Forall2 (fun x r => exists sx, visit' x sx = (Ok (result_value r), sx))
              (rev frame) results
      /\ body' = body ++ kept results.
Proof.
  induction k as [|k IH];
    intros body last_ast s ctx below frame body' last_ast' s' Hctx Hns H.
  - discriminate H.
  - destruct frame as [|x0 frame0] using rev_ind.
    + rewrite (parse_body_loop_done _ _ _ _ _ _ _ Hctx Hns) in H.
      inversion H; subst. exists []. split; [constructor|].
      now rewrite app_nil_r.
    + clear IHframe0.
      rewrite (parse_body_loop_turn _ _ _ _ _ _ _ _ _ Hctx Hns) in H.
      set (sa := with_context (with_node_stack (below ++ [frame0]) ctx) s)
        in *.
      apply bind_inv in H as [[res [s2 [Hx H]]]|[[e [_ E]]|[_ E]]];
        try discriminate E.
      destruct (visit_respects _ _ _ _ Hx) as [_ [_ Hs2]].
      assert (Hcont : forall body1 r,
                 result_value r = res ->
                 body1 = body ++ kept [r] ->
                 parse_body_loop visit' k body1 (Some x0) s2
                 = (Ok (body', last_ast'), s') ->
                 exists results,
                   Forall2
                     (fun x r => exists sx,
                          visit' x sx = (Ok (result_value r), sx))
                     (rev (frame0 ++ [x0])) results
                   /\ body' = body ++ kept results).
      { intros body1 r Hr Hb1 Hloop. destruct Hs2 as [->|Hnf].
        - destruct (IH body1 (Some x0) sa
                      (with_node_stack (below ++ [frame0]) ctx) below frame0
                      body' last_ast' s' eq_refl eq_refl Hloop)
            as [results [Hall Hb']].
          exists (r :: results). rewrite rev_app_distr. simpl rev.
          split.
          + constructor; [|exact Hall]. exists sa. now rewrite Hr.
          + rewrite Hb', Hb1, <- app_assoc. f_equal.
            unfold kept. simpl. now rewrite app_nil_r.
        - destruct (loop_no_frame visit' _ _ _ _ _ _ Hnf Hloop) as [Hf _].
          destruct Hf. }
      destruct res; try discriminate H.
      * apply (Hcont body None eq_refl); [|exact H].
        simpl. now rewrite app_nil_r.
      * apply (Hcont (PyList.append body s0) (Some s0) eq_refl);
          [reflexivity | exact H].
Qed.
End LoopOrder.

(** A lowering of a function definition that returns, taken apart: the
    run of the loop, the return [parse_body] may add, the function. *)
Lemma visit_FunctionDef_run_inv (self : KernelNodeVisitor) (fuel : nat)
    (lineno : Z) (name : string) (body : list node) (s s' : VState)
    (val : pyval) :
  visit self (S fuel) (FunctionDef lineno name body) s = (Ok val, s') ->
  exists body0 last0 body_stmts,
    parse_body_loop (visit self fuel) fuel [] None
                    (entered self lineno body s)
    = (Ok (body0, last0), body_lowered self lineno body s)
    /\ last0 = PyList.top body
    /\ (if adds_return body0 last0
        then exists e,
            smart_adapt_to (collab self) NoneExpr
                           (initial_func_ret_type (collab self)) = Ok e
            /\ body_stmts = body0 ++ [ReturnStmt (Some e) None]
        else body_stmts = body0)
    /\ val = VFunction (lowered_function self lineno body_stmts)
    /\ s' = left_state self lineno s.
Proof.
  intros H. pose proof H as Hres.
  apply visit_FunctionDef_result in Hres as [_ Hres].
  destruct Hres as [_ [_ [body_stmts' [_ [_ [Hval' Hs']]]]]].
  rewrite visit_FunctionDef_S, visit_FunctionDef_enter in H.
  apply bind_inv in H as [[body_stmts [s2 [Hp H]]]|[[e [_ E]]|[_ E]]];
    try discriminate E.
  unfold parse_body in Hp.
  apply bind_inv in Hp as [[[body0 last0] [s1 [Hl Hp]]]|[[e [_ E]]|[_ E]]];
    try discriminate E.
  destruct (parse_body_loop_spec self _ (visit_respects_state self fuel)
              _ _ _ _ _ _ Hl) as [_ [_ Hok]].
  destruct (Hok _ _ eq_refl) as [ctx [below [frame [Hc [Hn [Hs1 Hres]]]]]].
  simpl in Hc. inversion Hc; subst ctx. clear Hc.
  unfold entered_context in Hn. simpl in Hn.
  change [rev body] with ([] ++ [rev body]) in Hn.
  apply app_inj_tail in Hn as [<- <-].
  assert (Es1 : s1 = body_lowered self lineno body s) by exact Hs1.
  subst s1.
  assert (Hlast : last0 = PyList.top body).
  { rewrite top_is_last. unfold loop_result in Hres.
    destruct (rev body); [now destruct Hres | now destruct Hres as [-> _]]. }
  cbn [fst snd andb] in Hp. fold (adds_return body0 last0) in Hp.
  assert (Hstmts : (if adds_return body0 last0
                    then exists e,
                        smart_adapt_to (collab self) NoneExpr
                          (initial_func_ret_type (collab self)) = Ok e
                        /\ body_stmts = body0 ++ [ReturnStmt (Some e) None]
                    else body_stmts = body0)
                   /\ s2 = body_lowered self lineno body s).
  { destruct (adds_return body0 last0).
    - apply bind_inv in Hp as [[res [s3 [Hr Hp]]]|[[e [_ E]]|[_ E]]];
        try discriminate E.
      destruct (visit_bare_return_all self fuel _ _ _ Hr) as [-> Hv].
      destruct (Hv _ eq_refl) as [ctx1 [e [Hc1 [He ->]]]].
      inversion Hp; subst. split; [|reflexivity].
      exists e. split; [|reflexivity].
      simpl in Hc1. inversion Hc1; subst ctx1. exact He.
    - inversion Hp; subst. split; reflexivity. }
  destruct Hstmts as [Hstmts ->].
  rewrite leave_run in H. inversion H; subst.
  exists body0, (PyList.top body), body_stmts.
  repeat split; try assumption; reflexivity.
Qed.

(** ** Visitor methods, one kind at a time *)

Lemma visit_Assign_S (self : KernelNodeVisitor) (fuel : nat)
    (targets : list node) (value : node) :
  visit self (S fuel) (Assign targets value) =
  visit_Assign self fuel (visit self fuel) (Assign targets value).
Proof. reflexivity. Qed.

Lemma visit_Attribute_S (self : KernelNodeVisitor) (fuel : nat)
    (value : node) (attr : string) :
  visit self (S fuel) (Attribute value attr) =
  visit_Attribute self fuel (visit self fuel) (Attribute value attr).
Proof. reflexivity. Qed.

Lemma visit_UnaryOp_S (self : KernelNodeVisitor) (fuel : nat)
    (op : string) (operand : node) :
  visit self (S fuel) (UnaryOp op operand) =
  visit_UnaryOp self fuel (visit self fuel) (UnaryOp op operand).
Proof. reflexivity. Qed.

Lemma visit_BinOp_S (self : KernelNodeVisitor) (fuel : nat)
    (l : node) (op : string) (r : node) :
  visit self (S fuel) (BinOp l op r) =
  visit_BinOp self fuel (visit self fuel) (BinOp l op r).
Proof. reflexivity. Qed.

Lemma visit_keyword_S (self : KernelNodeVisitor) (fuel : nat)
    (arg : option string) (value : node) :
  visit self (S fuel) (keyword arg value) =
  visit_keyword self fuel (visit self fuel) (keyword arg value).
Proof. reflexivity. Qed.

Lemma visit_Return_S (self : KernelNodeVisitor) (fuel : nat)
    (lineno : option Z) (value : option node) :
  visit self (S fuel) (Return lineno value) =
  visit_Return self fuel (visit self fuel) (Return lineno value).
Proof. reflexivity. Qed.

(** A numeric literal whose type is inferred and whose constant is
    built. *)
Lemma visit_Constant_run (self : KernelNodeVisitor) (fuel : nat)
    (v : number) (dtype : string) (e : expr) (s : VState) :
  type_infer_dtype (collab self) v = Ok dtype ->
  ir_const (collab self) v dtype = Ok e ->
  visit self (S fuel) (Constant (CNum v)) s = (Ok (VExpr e), s).
Proof.
  intros Ht Hc.
  change (visit_Constant self fuel (visit self fuel) (Constant (CNum v)) s
          = (Ok (VExpr e), s)).
  unfold visit_Constant, bind, lift. rewrite Ht, Hc. reflexivity.
Qed.

(** What the visit of a literal returns, if it does, is an expression;
    the state is left alone. *)
Lemma visit_Constant_inv (self : KernelNodeVisitor) (fuel : nat)
    (c : constant) (s s' : VState) (r : outcome pyval) :
  visit self fuel (Constant c) s = (r, s') ->
  s' = s /\ forall val, r = Ok val -> exists e, val = VExpr e.
Proof.
  destruct fuel as [|fuel]; intros H.
  - inversion H; subst. split; [reflexivity | discriminate].
  - change (visit_Constant self fuel (visit self fuel) (Constant c) s
            = (r, s')) in H.
    unfold visit_Constant, bind, lift, ret, raise in H.
    destruct c as [|v|t|t|].
    1: { inversion H; subst. split; [reflexivity|].
         intros val E. inversion E. eauto. }
    2,3,4: inversion H; subst; split; [reflexivity | discriminate].
    destruct (type_infer_dtype (collab self) v) as [dtype|e|];
      try (inversion H; subst; split; [reflexivity | discriminate]).
    destruct (ir_const (collab self) v dtype) as [e|e|];
      inversion H; subst; split; try reflexivity; try discriminate.
    intros val E. inversion E. eauto.
Qed.

Lemma visit_Assign_fails (self : KernelNodeVisitor) (fuel : nat)
    (targets : list node) (value : node) (s : VState) :
  failed (fst (visit self fuel (Assign targets value) s)).
Proof.
  destruct fuel as [|fuel]; [exact I|].
  rewrite visit_Assign_S. unfold visit_Assign.
  destruct targets as [|target [|t2 ts]]; try exact I.
  unfold bind.
  destruct (visit self fuel target s) as [[id|e|] s1]; try exact I.
  destruct (visit self fuel value s1) as [[v|e|] s2]; try exact I.
  destruct target; exact I.
Qed.

(** X1: an assignment statement is never lowered. *)
Theorem assignment_never_lowers (self : KernelNodeVisitor)
    (targets : list node) (value : node) :
  (forall fuel s, failed (fst (visit self fuel (Assign targets value) s)))
  /\ (List.length targets <> 1%nat ->
      forall fuel s,
        visit self (S fuel) (Assign targets value) s
        = (Raise (Exn AssertionError
                    "assigning multiple var at the same time is not supported"
                    None), s))
  /\ (forall fuel a x b s,
        visit self (S (S (S fuel))) (Assign [Attribute (Name a) x] (Name b)) s
        = (Raise (Exn AttributeError
                    "'KernelNodeVisitor' object has no attribute 'scope_arrays'"
                    None), s))
  /\ (forall fuel a b s,
        visit self (S (S fuel)) (Assign [Name a] (Name b)) s
        = (Raise (Exn NotImplementedError "visit_Assign is not Implemented"
                    None), s)).
Proof.
  split; [intros fuel s; apply visit_Assign_fails|]. split; [|split].
  - intros Hlen fuel s. rewrite visit_Assign_S. unfold visit_Assign.
    destruct targets as [|t [|t2 ts]]; try reflexivity.
    exfalso. apply Hlen. reflexivity.
  - intros fuel a x b s. rewrite visit_Assign_S. unfold visit_Assign.
    erewrite bind_ok;
      [| rewrite visit_Attribute_S; unfold visit_Attribute;
         erewrite bind_ok; [| apply visit_Name_run ]; reflexivity ].
    erewrite bind_ok; [| apply visit_Name_run ]. reflexivity.
  - intros fuel a b s. rewrite visit_Assign_S. unfold visit_Assign.
    erewrite bind_ok; [| apply visit_Name_run ].
    erewrite bind_ok; [| apply visit_Name_run ]. reflexivity.
Qed.

Lemma assignment_never_lowers_witness :
  visit Sample.self 1 (Assign [Name "k"; Name "m"] (Name "a")) initial_state
  = (Raise (Exn AssertionError
              "assigning multiple var at the same time is not supported"
              None), initial_state).
Proof.
  apply (proj1 (proj2 (assignment_never_lowers Sample.self
                         [Name "k"; Name "m"] (Name "a")))).
  simpl. discriminate.
Defined.

(** X2: a return with a value never carries the value: whatever the
    value lowers to, the statement is a return of nothing with the span
    of the node. A numeric literal the IR has a constant for is such a
    value; a literal it has none for makes the return fail with the
    failure of the literal. *)
Theorem return_value_is_dropped (self : KernelNodeVisitor) (lineno : Z) :
  (forall fuel value s res s',
     visit self fuel (Return (Some lineno) (Some value)) s = (Ok res, s') ->
     res = VStmt (ReturnStmt None (Some (build_span self lineno))))
  /\ (forall fuel v dtype e s,
        type_infer_dtype (collab self) v = Ok dtype ->
        ir_const (collab self) v dtype = Ok e ->
        visit self (S (S fuel))
              (Return (Some lineno) (Some (Constant (CNum v)))) s
        = (Ok (VStmt (ReturnStmt None (Some (build_span self lineno)))), s))
  /\ (forall fuel v err s,
        type_infer_dtype (collab self) v = Raise err ->
        visit self (S (S fuel))
              (Return (Some lineno) (Some (Constant (CNum v)))) s
        = (Raise err, s))
  /\ (forall fuel value s,
        visit self (S fuel) (Return None (Some value)) s
        = (Raise (Exn AttributeError "object has no attribute" None), s)).
Proof.
  split; [|split; [|split]].
  - intros fuel value s res s' H. destruct fuel as [|fuel]; [discriminate H|].
    rewrite visit_Return_S in H. unfold visit_Return in H.
    apply bind_inv in H as [[v [s1 [_ H]]]|[[e [_ E]]|[_ E]]];
      try discriminate E.
    destruct v; inversion H; reflexivity.
  - intros fuel v dtype e s Ht Hc. rewrite visit_Return_S.
    unfold visit_Return.
    erewrite bind_ok; [| apply (visit_Constant_run _ _ _ dtype e); assumption ].
    reflexivity.
  - intros fuel v err s Ht. rewrite visit_Return_S. unfold visit_Return.
    change (visit self (S fuel) (Constant (CNum v)))
      with (visit_Constant self fuel (visit self fuel) (Constant (CNum v))).
    unfold visit_Constant, bind, lift. rewrite Ht. reflexivity.
  - intros fuel value s. reflexivity.
Qed.

Lemma return_value_is_dropped_witness :
  exists res,
    fst (visit Sample.self 2 (Return (Some 7%Z) (Some (Constant CNone)))
               initial_state) = Ok res
    /\ res = VStmt (ReturnStmt None (Some (build_span Sample.self 7))).
Proof.
  exists (VStmt (ReturnStmt None (Some (build_span Sample.self 7)))).
  split; [reflexivity|].
  apply (proj1 (return_value_is_dropped Sample.self 7) 2%nat
               (Constant CNone) initial_state _ initial_state).
  reflexivity.
Defined.

(** X3: a name is lowered to its text whether it is known or not. *)
Theorem name_is_not_checked (self : KernelNodeVisitor) (fuel : nat)
    (id : string) (s : VState) :
  visit self (S fuel) (Name id) s = (Ok (VStr id), s)
  /\ (Dict.contains (kp_args (kernel_p self)) id = false ->
      exists e, _get_type self (VStr id) = Raise e).
Proof.
  split; [apply visit_Name_run|].
  intros H. eexists. simpl. unfold Dict.contains in H.
  destruct (Dict.getitem (kp_args (kernel_p self)) id);
    [discriminate H | reflexivity].
Qed.

Lemma name_is_not_checked_witness :
  visit Sample.self 1 (Name "undeclared") initial_state
  = (Ok (VStr "undeclared"), initial_state)
  /\ exists e, _get_type Sample.self (VStr "undeclared") = Raise e.
Proof.
  destruct (name_is_not_checked Sample.self 0 "undeclared" initial_state)
    as [Hv Ht].
  split; [exact Hv | apply Ht; reflexivity].
Defined.

Lemma dotted_snoc (base : string) (attrs : list string) (a : string) :
  dotted base (attrs ++ [a]) = Attribute (dotted base attrs) a.
Proof. unfold dotted. now rewrite fold_left_app. Qed.

(** X4: a dotted name is lowered to the list of its parts, in order. *)
Theorem dotted_name_is_flattened (self : KernelNodeVisitor)
    (base : string) (attrs : list string) :
  forall fuel s,
    visit self (S (List.length attrs + fuel)) (dotted base attrs) s
    = (Ok (match attrs with
           | [] => VStr base
           | _ => VList (VStr base :: map VStr attrs)
           end), s).
Proof.
  induction attrs as [|a attrs IH] using rev_ind; intros fuel s.
  - apply visit_Name_run.
  - rewrite dotted_snoc, length_app. simpl List.length.
    replace (S (List.length attrs + 1 + fuel))
      with (S (S (List.length attrs + fuel))) by lia.
    rewrite visit_Attribute_S. unfold visit_Attribute.
    erewrite bind_ok; [| apply IH ].
    destruct attrs as [|a0 attrs]; simpl; [reflexivity|].
    rewrite map_app. simpl.
    destruct (attrs ++ [a]) eqn:E; [destruct attrs; discriminate E|].
    reflexivity.
Qed.

(** X5: a unary operation is lowered to nothing: on the name of a
    declared parameter the visit returns [None], on any other name and
    on a literal it does not return. For a numeric literal the IR has a
    constant for, the failure is that of the type resolver, asked for
    the type of that constant. *)
Theorem unary_operation_lowers_to_nothing (self : KernelNodeVisitor)
    (op : string) :
  (forall fuel operand s v s',
     visit self fuel (UnaryOp op operand) s = (Ok v, s') -> v = VNone)
  /\ (forall fuel id s,
        visit self (S (S fuel)) (UnaryOp op (Name id)) s
        = (match Dict.getitem (kp_args (kernel_p self)) id with
           | Some _ => Ok VNone
           | None => Raise (unable_to_find_type self (VStr id))
           end, s))
  /\ (forall fuel c s,
        failed (fst (visit self fuel (UnaryOp op (Constant c)) s)))
  /\ (forall fuel n dtype e s,
        type_infer_dtype (collab self) n = Ok dtype ->
        ir_const (collab self) n dtype = Ok e ->
        visit self (S (S fuel)) (UnaryOp op (Constant (CNum n))) s
        = (Raise (unable_to_find_type self (VExpr e)), s)).
Proof.
  split; [|split; [|split]].
  - intros fuel operand s v s' H. destruct fuel as [|fuel]; [discriminate H|].
    rewrite visit_UnaryOp_S in H. unfold visit_UnaryOp in H.
    apply bind_inv in H as [[x [s1 [_ H]]]|[[e [_ E]]|[_ E]]];
      try discriminate E.
    apply bind_inv in H as [[t [s2 [_ H]]]|[[e [_ E]]|[_ E]]];
      try discriminate E.
    inversion H. reflexivity.
  - intros fuel id s. rewrite visit_UnaryOp_S. unfold visit_UnaryOp.
    erewrite bind_ok; [| apply visit_Name_run ].
    unfold bind, lift. simpl.
    destruct (Dict.getitem (kp_args (kernel_p self)) id); reflexivity.
  - intros fuel c s. destruct fuel as [|fuel]; [exact I|].
    rewrite visit_UnaryOp_S. unfold visit_UnaryOp, bind.
    destruct (visit self fuel (Constant c) s) as [[val|err|] s1] eqn:E;
      try exact I.
    apply visit_Constant_inv in E as [_ E].
    destruct (E val eq_refl) as [e ->]. exact I.
  - intros fuel n dtype e s Ht Hc. rewrite visit_UnaryOp_S.
    unfold visit_UnaryOp.
    erewrite bind_ok; [| apply (visit_Constant_run _ _ _ dtype e); assumption ].
    reflexivity.
Qed.

Lemma unary_operation_lowers_to_nothing_witness :
  exists v,
    fst (visit Sample.self 2 (UnaryOp "USub" (Name "a")) initial_state)
    = Ok v
    /\ v = VNone.
Proof.
  exists VNone. split; [reflexivity|].
  apply (proj1 (unary_operation_lowers_to_nothing Sample.self "USub")
               2%nat (Name "a") initial_state VNone initial_state).
  reflexivity.
Defined.

(** X6: pushing a handle and popping it is a round trip. *)
Theorem handle_push_pop (handle_var : PrimVar) (s : VState) :
  bind (push_handle_var handle_var) (fun _ => pop_handle_var) s = (Ok tt, s)
  /\ (session_handle_var_ctx s = [] ->
      pop_handle_var s
      = (Raise (Exn IndexError "pop from empty list" None), s)).
Proof.
  split.
  - erewrite bind_ok; [| apply push_handle_var_run ].
    erewrite pop_handle_var_run; [| reflexivity ].
    destruct s; reflexivity.
  - intros H. unfold pop_handle_var, bind, get_state. rewrite H. reflexivity.
Qed.

Lemma handle_push_pop_witness :
  pop_handle_var initial_state
  = (Raise (Exn IndexError "pop from empty list" None), initial_state).
Proof.
  apply (proj2 (handle_push_pop pointer_var initial_state)). reflexivity.
Defined.

(** ** Inside a function definition *)

Lemma fold_bind_lookup {V : Type} (g : string * ArrayType -> V)
    (a : string) (v : V) (items : list (string * ArrayType)) :
  forall d,
    (forall item, In item items -> fst item = a -> g item = v) ->
    Dict.getitem d a = Some v \/ In a (map fst items) ->
    Dict.getitem
      (fold_left (fun d item => Dict.setitem d (fst item) (g item)) items d) a
    = Some v.
Proof.
  induction items as [|[k t] items IH]; simpl; intros d Hg H.
  - tauto.
  - apply IH; [intros item Hi; apply Hg; now right|].
    rewrite getitem_setitem. destruct (String.eqb a k) eqn:E.
    + apply String.eqb_eq in E. subst k. left. f_equal.
      apply (Hg (a, t)); [now left | reflexivity].
    + apply String.eqb_neq in E. destruct H as [H|[H|H]]; auto. congruence.
Qed.

Lemma bound_var_of_parameter (self : KernelNodeVisitor) (span : Span)
    (item : string * ArrayType) (t : ArrayType) :
  Dict.getitem (kp_args (kernel_p self)) (fst item) = Some t ->
  bound_var self span item = param_var span (fst item, t).
Proof. intros H. unfold bound_var. now rewrite H. Qed.

Lemma in_keys_of_getitem {V : Type} (d : Dict.t V) (k : string) (v : V) :
  Dict.getitem d k = Some v -> In k (Dict.keys d).
Proof.
  intros H. apply getitem_Some_In in H.
  change (In (fst (k, v)) (map fst d)). now apply in_map.
Qed.

(** The binding of a declared parameter in the frame of the function. *)
Lemma entered_symbol (self : KernelNodeVisitor) (lineno : Z)
    (body : list node) (a : string) (t : ArrayType) :
  Dict.getitem (kp_args (kernel_p self)) a = Some t ->
  a <> pointer_var_name ->
  exists frame,
    symbols (entered_context self lineno body) = [frame]
    /\ Dict.getitem frame a = Some (param_var (build_span self lineno) (a, t))
    /\ Dict.getitem frame pointer_var_name = Some pointer_var.
Proof.
  intros Ha Hne. eexists. split; [reflexivity|]. split.
  - rewrite getitem_setitem.
    destruct (String.eqb a pointer_var_name) eqn:E;
      [apply String.eqb_eq in E; contradiction|].
    apply fold_bind_lookup.
    + intros item _ Hi. rewrite <- Hi.
      apply bound_var_of_parameter. now rewrite Hi.
    + right. now apply (in_keys_of_getitem _ _ t).
  - rewrite getitem_setitem, String.eqb_refl. reflexivity.
Qed.

(** X7: on entry every declared parameter is bound, in the one frame of
    the function, to the variable that stands for it in the parameter
    list, and the name of the handle to the handle. *)
Theorem parameters_are_bound_on_entry (self : KernelNodeVisitor)
    (fuel : nat) (lineno : Z) (name : string) (body : list node)
    (s : VState) :
  let ctx := entered_context self lineno body in
  visit self (S fuel) (FunctionDef lineno name body) s
  = bind (parse_body (visit self fuel) fuel true) (leave self lineno)
         (entered self lineno body s)
  /\ self_context (entered self lineno body s) = Some ctx
  /\ exists frame,
       symbols ctx = [frame]
       /\ Dict.getitem frame pointer_var_name = Some pointer_var
       /\ forall a t,
            Dict.getitem (kp_args (kernel_p self)) a = Some t ->
            In (param_var (build_span self lineno) (a, t)) (func_params ctx)
            /\ (a <> pointer_var_name ->
                Dict.getitem frame a
                = Some (param_var (build_span self lineno) (a, t))).
Proof.
  intros ctx. split; [rewrite visit_FunctionDef_S;
                      apply visit_FunctionDef_enter|].
  split; [reflexivity|].
  eexists. split; [reflexivity|]. split.
  - rewrite getitem_setitem, String.eqb_refl. reflexivity.
  - intros a t Ha. split.
    + unfold ctx, entered_context. cbn [func_params].
      apply in_or_app. left.
      rewrite <- (bound_var_of_parameter self _ (a, t) t Ha).
      apply in_map. now apply getitem_Some_In.
    + intros Hne.
      destruct (entered_symbol self lineno body a t Ha Hne)
        as [frame [Hf [Hl _]]].
      unfold entered_context in Hf. cbn [symbols] in Hf.
      inversion Hf; subst frame. exact Hl.
Qed.

Lemma parameters_are_bound_on_entry_witness :
  In (param_var (build_span Sample.self 1) ("b", Sample.int32_MN))
     (func_params (entered_context Sample.self 1 [])).
Proof.
  destruct (parameters_are_bound_on_entry Sample.self 0 1 "foo" []
              initial_state) as [_ [_ [frame [_ [_ H]]]]].
  apply (H "b" Sample.int32_MN). reflexivity.
Defined.

(** A binary operation on two names, step by step. *)
Lemma visit_BinOp_names (self : KernelNodeVisitor) (fuel : nat)
    (a b op : string) (s : VState) (ctx : ScopeContext)
    (frame : Dict.t PrimVar) (rest : list (Dict.t PrimVar))
    (ta tb : ArrayType) (va vb : PrimVar) (ba bb : Buffer) (f : op_func) :
  Dict.getitem (kp_args (kernel_p self)) a = Some ta ->
  Dict.getitem (kp_args (kernel_p self)) b = Some tb ->
  get_bin_operator (collab self) ta tb op = Ok f ->
  self_context s = Some ctx ->
  symbols ctx = frame :: rest ->
  Dict.getitem frame a = Some va ->
  Dict.getitem frame b = Some vb ->
  Dict.getitem (buffer_table s) a = Some ba ->
  Dict.getitem (buffer_table s) b = Some bb ->
  visit self (S (S fuel)) (BinOp (Name a) op (Name b)) s
  = (f va vb ba bb (return_buffer s) ta tb, s).
Proof.
  intros Ha Hb Hf Hctx Hsyms Hva Hvb Hba Hbb.
  rewrite visit_BinOp_S. unfold visit_BinOp.
  erewrite bind_ok; [| apply visit_Name_run ].
  erewrite bind_ok; [| apply visit_Name_run ].
  erewrite bind_ok; [| unfold lift; simpl; rewrite Ha; reflexivity ].
  erewrite bind_ok; [| unfold lift; simpl; rewrite Hb; reflexivity ].
  erewrite bind_ok; [| unfold lift; rewrite Hf; reflexivity ].
  erewrite bind_ok; [| apply get_context_run; exact Hctx ].
  rewrite Hsyms.
  erewrite bind_ok; [| unfold subscript; rewrite Hva; reflexivity ].
  erewrite bind_ok; [| unfold subscript; rewrite Hvb; reflexivity ].
  erewrite bind_ok; [| reflexivity ].
  erewrite bind_ok; [| unfold subscript; rewrite Hba; reflexivity ].
  erewrite bind_ok; [| unfold subscript; rewrite Hbb; reflexivity ].
  reflexivity.
Qed.

(** X8: a binary operation on two declared parameters, met while the body
    of a function is lowered, is what the strategy of the registry makes
    of their variables, their buffers of shape (10,), the return buffer
    and their types. With a literal as operand the operation does not
    return, the registry is not asked; for a numeric literal the IR has
    a constant for, the failure is that of the type resolver, asked for
    the type of that constant. *)
Theorem binary_operation_on_parameters (self : KernelNodeVisitor)
    (lineno : Z) (body : list node) (op : string) :
  (forall fuel a b ta tb f s,
     Dict.getitem (kp_args (kernel_p self)) a = Some ta ->
     Dict.getitem (kp_args (kernel_p self)) b = Some tb ->
     a <> pointer_var_name -> b <> pointer_var_name ->
     get_bin_operator (collab self) ta tb op = Ok f ->
     visit self (S (S fuel)) (BinOp (Name a) op (Name b))
           (entered self lineno body s)
     = (f (param_var (build_span self lineno) (a, ta))
          (param_var (build_span self lineno) (b, tb))
          (decl_buffer [10%Z]) (decl_buffer [10%Z])
          (Some (decl_buffer [10%Z])) ta tb,
        entered self lineno body s))
  /\ (forall fuel a c s,
        failed (fst (visit self fuel (BinOp (Name a) op (Constant c)) s)))
  /\ (forall fuel a ta n dtype e s,
        Dict.getitem (kp_args (kernel_p self)) a = Some ta ->
        type_infer_dtype (collab self) n = Ok dtype ->
        ir_const (collab self) n dtype = Ok e ->
        visit self (S (S fuel)) (BinOp (Name a) op (Constant (CNum n))) s
        = (Raise (unable_to_find_type self (VExpr e)), s)).
Proof.
  split; [|split].
  - intros fuel a b ta tb f s Ha Hb Hna Hnb Hf.
    destruct (entered_symbol self lineno body a ta Ha Hna)
      as [frame [Hfr [Hla _]]].
    destruct (entered_symbol self lineno body b tb Hb Hnb)
      as [frame' [Hfr' [Hlb _]]].
    rewrite Hfr in Hfr'. inversion Hfr'; subst frame'.
    destruct (entered_buffers self lineno body s) as [Hbuf _].
    apply (visit_BinOp_names self fuel a b op (entered self lineno body s)
             (entered_context self lineno body) frame [] ta tb);
      try assumption; try reflexivity.
    + apply Hbuf. now apply (in_keys_of_getitem _ _ ta).
    + apply Hbuf. now apply (in_keys_of_getitem _ _ tb).
  - intros fuel a c s. destruct fuel as [|fuel]; [exact I|].
    rewrite visit_BinOp_S. unfold visit_BinOp, bind.
    destruct (visit self fuel (Name a) s) as [[lhs|err|] s1]; try exact I.
    destruct (visit self fuel (Constant c) s1) as [[val|err|] s2] eqn:E;
      try exact I.
    apply visit_Constant_inv in E as [_ E].
    destruct (E val eq_refl) as [e ->].
    unfold lift. destruct (_get_type self lhs); exact I.
  - intros fuel a ta n dtype e s Ha Ht Hc.
    rewrite visit_BinOp_S. unfold visit_BinOp.
    erewrite bind_ok; [| apply visit_Name_run ].
    erewrite bind_ok; [| apply (visit_Constant_run _ _ _ dtype e); assumption ].
    erewrite bind_ok; [| unfold lift; simpl; rewrite Ha; reflexivity ].
    reflexivity.
Qed.

Lemma binary_operation_on_parameters_witness :
  visit Sample.self 2 (BinOp (Name "a") "Add" (Name "b"))
        (entered Sample.self 1 [] initial_state)
  = (Ok (VExpr (ExternExpr "Add")), entered Sample.self 1 [] initial_state)
  /\ visit Sample.self 2 (BinOp (Name "a") "Add" (Constant (CNum (NInt 1))))
           initial_state
     = (Raise (unable_to_find_type Sample.self
                 (VExpr (IRConst (NInt 1) "int64"))), initial_state).
Proof.
  destruct (binary_operation_on_parameters Sample.self 1 [] "Add")
    as [Hrun [_ Hlit]].
  split.
  - apply (Hrun 0%nat "a" "b" Sample.int32_MN Sample.int32_MN
                (fun _ _ _ _ _ _ _ => Ok (VExpr (ExternExpr "Add")))
                initial_state);
      first [reflexivity | discriminate].
  - apply (Hlit 0%nat "a" Sample.int32_MN (NInt 1) "int64"
                (IRConst (NInt 1) "int64") initial_state);
      reflexivity.
Defined.

(** ** What a body may hold *)

Lemma is_visited_kind_false (cls : string) :
  is_visited_kind cls = false -> ~ In cls visited_kinds.
Proof.
  unfold is_visited_kind. intros H Hin.
  assert (E : existsb (String.eqb cls) visited_kinds = true).
  { apply existsb_exists. exists cls. split; [exact Hin|].
    apply String.eqb_refl. }
  rewrite E in H. discriminate H.
Qed.

Lemma rejected_statement_result (self : KernelNodeVisitor) (fuel : nat)
    (n : node) (s s' : VState) (r : option stmt) :
  rejected_statement n = true ->
  visit self fuel n s <> (Ok (result_value r), s').
Proof.
  intros Hrej H. destruct fuel as [|fuel]; [discriminate H|].
  destruct n; try discriminate Hrej.
  - apply visit_FunctionDef_result in H as [_ H].
    destruct H as [_ [_ [body_stmts [_ [_ [Hv _]]]]]].
    destruct r; discriminate Hv.
  - apply visit_Constant_inv in H as [_ H].
    destruct (H _ eq_refl) as [e He]. destruct r; discriminate He.
  - rewrite visit_Name_run in H. inversion H. destruct r; discriminate.
  - simpl in H. inversion H.
  - simpl in H. inversion H.
  - simpl in H. inversion H.
  - rewrite visit_keyword_S in H. unfold visit_keyword in H.
    apply bind_inv in H as [[v [s1 [_ H]]]|[[e [_ E]]|[_ E]]];
      try discriminate E.
    inversion H. destruct r; discriminate.
  - rewrite visit_Attribute_S in H. unfold visit_Attribute in H.
    apply bind_inv in H as [[v [s1 [_ H]]]|[[e [_ E]]|[_ E]]];
      try discriminate E.
    destruct v; inversion H; destruct r; discriminate.
  - pose proof (visit_Assign_fails self (S fuel) targets n s) as Hf.
    rewrite H in Hf. exact Hf.
  - simpl in Hrej. apply negb_true_iff, is_visited_kind_false in Hrej.
    rewrite visit_default in H by (now apply getattr_visitor_kind).
    discriminate H.
Qed.

(** X9: a function definition is lowered only if every statement of its
    body is: with one statement in the body that cannot be lowered as a
    statement, no function comes out. *)
Theorem body_with_rejected_statement (self : KernelNodeVisitor)
    (fuel : nat) (lineno : Z) (name : string) (body : list node)
    (s : VState) :
  existsb rejected_statement body = true ->
  failed (fst (visit self fuel (FunctionDef lineno name body) s)).
Proof.
  intros Hrej.
  destruct (visit self fuel (FunctionDef lineno name body) s)
    as [[val|e|] s'] eqn:H; try exact I.
  destruct fuel as [|fuel]; [discriminate H|].
  apply visit_FunctionDef_run_inv in H
    as [body0 [last0 [body_stmts [Hloop _]]]].
  destruct (parse_body_loop_lowers self (visit self fuel)
              (visit_respects_state self fuel) fuel [] None
              (entered self lineno body s)
              (entered_context self lineno body) [] (rev body)
              body0 last0 _ eq_refl eq_refl Hloop) as [results [Hall _]].
  rewrite rev_involutive in Hall.
  apply existsb_exists in Hrej as [x [Hx Hr]].
  clear - Hall Hx Hr. induction Hall as [|y r ys rs Hy _ IH]; [destruct Hx|].
  destruct Hx as [->|Hx]; [|now apply IH].
  destruct Hy as [sx Hy].
  exact (rejected_statement_result self fuel x sx sx r Hr Hy).
Qed.

Lemma body_with_rejected_statement_witness :
  failed (fst (visit Sample.self 9
                 (FunctionDef 1 "foo"
                    [Sample.loops; Assign [Name "k"] (Name "a");
                     Return (Some 4%Z) (Some (Name "a"))])
                 initial_state)).
Proof.
  apply body_with_rejected_statement. reflexivity.
Defined.

Lemma seq_items_to_seq_stmt (body : list stmt) (span : Span) :
  (forall seq sp, body <> [SeqStmt seq sp]) ->
  seq_items (to_seq_stmt body span) = body.
Proof.
  intros H. destruct body as [|s1 [|s2 rest]]; try reflexivity.
  simpl. destruct s1; try reflexivity.
  exfalso. apply (H seq span0). reflexivity.
Qed.

(** X10: the body of a lowered function is made of what the visits of its
    statements returned, in the order of the source, the statements that
    lower to nothing left out, followed by the return [parse_body] adds
    when there is one. *)
Theorem lowered_body_in_source_order (self : KernelNodeVisitor)
    (fuel : nat) (lineno : Z) (name : string) (body : list node)
    (s s' : VState) (f : Function) :
  visit self (S fuel) (FunctionDef lineno name body) s
  = (Ok (VFunction f), s') ->
  exists results tail,
    Forall2 (fun x r =>
               exists sx, visit self fuel x sx = (Ok (result_value r), sx))
            body results
    /\ fn_body f = to_seq_stmt (kept results ++ tail) (build_span self lineno)
    /\ if adds_return (kept results) (PyList.top body)
       then exists e,
           smart_adapt_to (collab self) NoneExpr
                          (initial_func_ret_type (collab self)) = Ok e
           /\ tail = [ReturnStmt (Some e) None]
       else tail = [].
Proof.
  intros H.
  apply visit_FunctionDef_run_inv in H
    as [body0 [last0 [body_stmts [Hloop [Hlast [Hadd [Hf _]]]]]]].
  inversion Hf; subst f. clear Hf.
  destruct (parse_body_loop_lowers self (visit self fuel)
              (visit_respects_state self fuel) fuel [] None
              (entered self lineno body s)
              (entered_context self lineno body) [] (rev body)
              body0 last0 _ eq_refl eq_refl Hloop) as [results [Hall Hb]].
  rewrite rev_involutive in Hall. simpl in Hb. subst body0 last0.
  destruct (adds_return (kept results) (PyList.top body)) eqn:E.
  - destruct Hadd as [e [He ->]].
    exists results, [ReturnStmt (Some e) None].
    split; [exact Hall|]. split; [reflexivity|]. rewrite E. eauto.
  - subst body_stmts. exists results, [].
    split; [exact Hall|]. split; [now rewrite app_nil_r|].
    rewrite E. reflexivity.
Qed.

Lemma lowered_body_in_source_order_witness :
  exists f results tail,
    fst (visit Sample.self 6 Sample.foo_def initial_state) = Ok (VFunction f)
    /\ fn_body f = to_seq_stmt (kept results ++ tail)
                               (build_span Sample.self 1).
Proof.
  destruct (lowered_body_in_source_order Sample.self 5 1 "foo"
              [AnnAssign (Name "k") (Name "int32")
                         (Some (Constant (CNum (NInt 0))));
               Sample.loops;
               Return (Some 5%Z) (Some (Name "a"))]
              initial_state
              (snd (visit Sample.self 6 Sample.foo_def initial_state))
              (lowered_function Sample.self 1
                 [ReturnStmt None (Some (build_span Sample.self 5))]))
    as [results [tail [_ [Hb _]]]].
  - vm_compute. reflexivity.
  - eexists. exists results, tail. split; [vm_compute; reflexivity|].
    exact Hb.
Defined.

(** X11: [to_seq_stmt] loses no statement: packing a body and unpacking
    it gives the body back, unless the body is one sequence statement,
    which is handed back as it is. *)
Theorem to_seq_stmt_keeps_statements (body : list stmt) (span : Span) :
  ((forall seq sp, body <> [SeqStmt seq sp]) ->
   seq_items (to_seq_stmt body span) = body)
  /\ (forall s1, body = [s1] -> to_seq_stmt body span = s1)
  /\ (List.length body <> 1%nat -> to_seq_stmt body span = SeqStmt body span).
Proof.
  split; [apply seq_items_to_seq_stmt|]. split.
  - intros s1 ->. reflexivity.
  - intros H. destruct body as [|s1 [|s2 rest]]; try reflexivity.
    exfalso. apply H. reflexivity.
Qed.

Lemma to_seq_stmt_keeps_statements_witness :
  seq_items (to_seq_stmt [ReturnStmt None None; ExternStmt "store"]
                         (build_span Sample.self 1))
  = [ReturnStmt None None; ExternStmt "store"].
Proof.
  apply (proj1 (to_seq_stmt_keeps_statements
                  [ReturnStmt None None; ExternStmt "store"]
                  (build_span Sample.self 1))).
  intros seq sp H. discriminate H.
Defined.

(** ** Visits that leave the state alone *)

Lemma keeps_state_ret {A : Type} (a : A) : keeps_state (ret a).
Proof. intros s r s' H. now inversion H. Qed.

Lemma keeps_state_raise {A : Type} (k : exn_kind) (msg : string) :
  keeps_state (@raise A k msg).
Proof. intros s r s' H. now inversion H. Qed.

Lemma keeps_state_lift {A : Type} (o : outcome A) : keeps_state (lift o).
Proof. intros s r s' H. now inversion H. Qed.

Lemma keeps_state_get_state : keeps_state get_state.
Proof. intros s r s' H. now inversion H. Qed.

Lemma keeps_state_bind {A B : Type} (m : M A) (k : A -> M B) :
  keeps_state m -> (forall a, keeps_state (k a)) -> keeps_state (bind m k).
Proof.
  intros Hm Hk s r s' H.
  apply bind_inv in H as [[a [s1 [H1 H2]]]|[[e [H1 _]]|[H1 _]]].
  - apply Hm in H1. subst s1. now apply Hk in H2.
  - now apply Hm in H1.
  - now apply Hm in H1.
Qed.

Lemma keeps_state_get_context : keeps_state get_context.
Proof.
  intros s r s' H. now apply get_context_inv in H as [-> _].
Qed.

Lemma keeps_state_subscript {V : Type} (d : Dict.t V) (key : pyval) :
  keeps_state (subscript d key).
Proof.
  unfold subscript. destruct key; try apply keeps_state_raise.
  destruct (Dict.getitem d s);
    [apply keeps_state_ret | apply keeps_state_raise].
Qed.

Ltac keeps_state_step :=
  first
    [ apply keeps_state_ret
    | apply keeps_state_raise
    | apply keeps_state_lift
    | apply keeps_state_get_state
    | apply keeps_state_get_context
    | apply keeps_state_subscript
    | assumption
    | apply keeps_state_bind; [|intros]
    | match goal with
      | IH : forall n, visits_def n = false -> keeps_state (?v n)
        |- keeps_state (?v _) => apply IH; assumption
      | |- keeps_state (match ?x with _ => _ end) => destruct x
      | |- keeps_state (if ?x then _ else _) => destruct x
      end ].

(** A visit that reaches no function definition leaves the state as it
    was. *)
Lemma visit_keeps_state_without_def (self : KernelNodeVisitor) :
  forall fuel n, visits_def n = false -> keeps_state (visit self fuel n).
Proof.
  induction fuel as [|fuel IH]; intros n Hdef.
  - intros s r s' H. now inversion H.
  - destruct n; simpl in Hdef; try discriminate Hdef.
    + rewrite visit_Return_S. unfold visit_Return, attribute_error.
      destruct value as [v|]; repeat keeps_state_step.
    + change (keeps_state (visit_Constant self fuel (visit self fuel)
                             (Constant value))).
      unfold visit_Constant. repeat keeps_state_step.
    + intros s r s' H. rewrite visit_Name_run in H. now inversion H.
    + rewrite visit_UnaryOp_S. unfold visit_UnaryOp.
      repeat keeps_state_step.
    + apply orb_false_elim in Hdef as [Hl Hr].
      rewrite visit_BinOp_S. unfold visit_BinOp.
      repeat keeps_state_step.
    + intros s r s' H. now inversion H.
    + intros s r s' H. now inversion H.
    + intros s r s' H. now inversion H.
    + rewrite visit_keyword_S. unfold visit_keyword.
      repeat keeps_state_step.
    + rewrite visit_Attribute_S. unfold visit_Attribute.
      repeat keeps_state_step.
    + rewrite visit_Assign_S. unfold visit_Assign.
      destruct targets as [|target [|t2 ts]];
        try apply keeps_state_raise.
      apply orb_false_elim in Hdef as [Ht Hv].
      repeat keeps_state_step.
    + intros s r s' H. now inversion H.
    + intros s r s' H. now inversion H.
    + intros s r s' H. now inversion H.
    + intros s r s' H. now inversion H.
    + rewrite visit_S.
      destruct (getattr_visitor ("visit_" ++ class_name (Other cls children))
                                %string) as [v|] eqn:E;
        [|apply keeps_state_raise].
      apply getitem_Some_In in E. unfold visitor_methods in E. simpl in E.
      repeat (destruct E as [E|E];
              [ apply (f_equal snd) in E; simpl in E; subst v;
                intros s r s' H; now inversion H | ]).
      destruct E.
Qed.

(** X12: only a function definition changes the state of the visitor: the
    visit of a node that reaches none leaves the state as it was, whether
    it returns or raises. *)
Theorem visit_without_definition_keeps_state (self : KernelNodeVisitor) :
  forall fuel n s r s',
    visits_def n = false -> visit self fuel n s = (r, s') -> s' = s.
Proof.
  intros fuel n s r s' Hdef Hv.
  exact (visit_keeps_state_without_def self fuel n Hdef s r s' Hv).
Qed.

Lemma visit_without_definition_keeps_state_witness :
  snd (visit Sample.self 4
         (Return (Some 3%Z)
                 (Some (BinOp (Name "a") "Add" (Attribute (Name "b") "T"))))
         (entered Sample.self 1 [] initial_state))
  = entered Sample.self 1 [] initial_state.
Proof.
  apply (visit_without_definition_keeps_state Sample.self 4
           (Return (Some 3%Z)
                   (Some (BinOp (Name "a") "Add" (Attribute (Name "b") "T"))))
           (entered Sample.self 1 [] initial_state)
           (fst (visit Sample.self 4
                   (Return (Some 3%Z)
                      (Some (BinOp (Name "a") "Add"
                                   (Attribute (Name "b") "T"))))
                   (entered Sample.self 1 [] initial_state)))).
  - reflexivity.
  - apply surjective_pairing.
Defined.

(** ** Stack discipline of a function definition *)

Section FrameLeft.
Variable visit' : node -> M pyval.

(** The loop over a frame whose statements leave the state alone: when
    it stops, by returning or not, the state is the one it started in
    but for the worklist, of which the statements not visited are left;
    none is left when it returns. *)
Lemma parse_body_loop_keeps_frame (k : nat) :
  forall body last_ast s ctx below frame r s',
    self_context s = Some ctx ->
    node_stack ctx = below ++ [frame] ->
    (forall x, In x frame -> keeps_state (visit' x)) ->
    parse_body_loop visit' k body last_ast s = (r, s') ->
    exists frame' visited,
      frame = frame' ++ visited
      /\ s' = with_context (with_node_stack (below ++ [frame']) ctx) s
      /\ (forall v, r = Ok v -> frame' = []).
Proof.
  induction k as [|k IH]; intros body last_ast s ctx below frame r s'
                                Hctx Hns Hkeep H.
  - inversion H; subst. exists frame, []. rewrite app_nil_r.
    split; [reflexivity|]. split; [|discriminate].
    rewrite <- Hns, with_node_stack_same. symmetry.
    now apply with_context_same.
  - simpl in H.
    rewrite (bind_ok _ _ _ _ _ (get_context_run _ _ Hctx)) in H.
    rewrite Hns, pop_snoc in H.
    destruct (PyList.pop frame) as [[frame' x]|] eqn:Efr.
    2: { apply pop_None in Efr. subst frame. inversion H; subst.
         exists [], []. split; [reflexivity|]. split; [|reflexivity].
         rewrite <- Hns, with_node_stack_same. symmetry.
         now apply with_context_same. }
    apply pop_Some in Efr. subst frame.
    rewrite (bind_ok _ _ _ _ _ (set_context_run _ _)) in H.
    unfold PyList.append in H.
    set (ctx1 := with_node_stack (below ++ [frame']) ctx) in *.
    assert (Hgo : forall body1,
               parse_body_loop visit' k body1 (Some x) (with_context ctx1 s)
               = (r, s') ->
               exists frame'' visited,
                 frame' ++ [x] = frame'' ++ visited
                 /\ s' = with_context
                           (with_node_stack (below ++ [frame'']) ctx) s
                 /\ (forall v, r = Ok v -> frame'' = [])).
    { intros body1 Hloop.
      destruct (IH body1 (Some x) (with_context ctx1 s) ctx1 below frame'
                   r s' eq_refl eq_refl
                   (fun y Hy => Hkeep y (in_or_app _ _ _ (or_introl Hy)))
                   Hloop)
        as [frame'' [visited [Hf [Hs Hok]]]].
      exists frame'', (visited ++ [x]). split; [|split].
      - rewrite Hf. now rewrite app_assoc.
      - rewrite Hs. reflexivity.
      - exact Hok. }
    assert (Hin : In x (frame' ++ [x]))
      by (apply in_or_app; right; left; reflexivity).
    apply bind_inv in H as [[res [s2 [Hx H]]]|[[e [Hx ->]]|[Hx ->]]];
      pose proof (Hkeep x Hin _ _ _ Hx) as Es; subst.
    + destruct res;
        try (inversion H; subst; exists frame', [x];
             split; [reflexivity|]; split; [reflexivity | discriminate]).
      * now apply (Hgo body).
      * now apply (Hgo (body ++ [s0])).
    + exists frame', [x]. split; [reflexivity|].
      split; [reflexivity | discriminate].
    + exists frame', [x]. split; [reflexivity|].
      split; [reflexivity | discriminate].
Qed.

Lemma parse_body_keeps_frame (k : nat) (s : VState) (ctx : ScopeContext)
    (below : list (list node)) (frame : list node)
    (r : outcome (list stmt)) (s' : VState) :
  self_context s = Some ctx ->
  node_stack ctx = below ++ [frame] ->
  (forall x, In x frame -> keeps_state (visit' x)) ->
  keeps_state (visit' (Return None None)) ->
  parse_body visit' k true s = (r, s') ->
  exists frame' visited,
    frame = frame' ++ visited
    /\ s' = with_context (with_node_stack (below ++ [frame']) ctx) s
    /\ (forall v, r = Ok v -> frame' = []).
Proof.
  intros Hctx Hns Hkeep Hret H. unfold parse_body in H.
  apply bind_inv in H as [[bl [s1 [Hl H]]]|[[e [Hl ->]]|[Hl ->]]];
    destruct (parse_body_loop_keeps_frame _ _ _ _ _ _ _ _ _ Hctx Hns Hkeep Hl)
      as [frame' [visited [Hf [Hs Hok]]]].
  2,3: exists frame', visited; split; [exact Hf|];
       split; [exact Hs | discriminate].
  assert (Hs' : s' = s1).
  { destruct (_ && _).
    - apply bind_inv in H as [[res [s2 [Hr H]]]|[[e [Hr _]]|[Hr _]]];
        try (now apply Hret in Hr).
      apply Hret in Hr. subst s2. destruct res; now inversion H.
    - now inversion H. }
  subst s'. exists frame', visited. split; [exact Hf|].
  split; [exact Hs|]. intros _ _. exact (Hok _ eq_refl).
Qed.
End FrameLeft.

(** A function definition whose body reaches no nested one: when the
    visit does not return, the state is the one the body was entered in,
    but for the statements already taken from the worklist. *)
Lemma visit_FunctionDef_frame_left (self : KernelNodeVisitor) (fuel : nat)
    (lineno : Z) (name : string) (body : list node) (s s' : VState)
    (r : outcome pyval) :
  existsb visits_def body = false ->
  visit self (S fuel) (FunctionDef lineno name body) s = (r, s') ->
  failed r ->
  exists frame visited,
    rev body = frame ++ visited
    /\ s' = with_context
              (with_node_stack [frame] (entered_context self lineno body))
              (entered self lineno body s).
Proof.
  intros Hdef H Hr. rewrite visit_FunctionDef_S, visit_FunctionDef_enter in H.
  assert (Hkeep : forall x, In x (rev body) ->
                            keeps_state (visit self fuel x)).
  { intros x Hx. apply visit_keeps_state_without_def.
    apply in_rev in Hx.
    destruct (visits_def x) eqn:E; [|reflexivity].
    assert (Et : existsb visits_def body = true)
      by (apply existsb_exists; eauto).
    rewrite Et in Hdef. discriminate Hdef. }
  assert (Hret : keeps_state (visit self fuel (Return None None)))
    by (now apply visit_keeps_state_without_def).
  apply bind_inv in H as [[bs [s1 [Hp H]]]|[[e [Hp ->]]|[Hp ->]]];
    destruct (parse_body_keeps_frame (visit self fuel) fuel
                (entered self lineno body s)
                (entered_context self lineno body) [] (rev body) _ _
                eq_refl eq_refl Hkeep Hret Hp)
      as [frame [visited [Hf [Hs Hok]]]].
  - rewrite (Hok _ eq_refl) in Hs. simpl in Hs.
    change (s1 = body_lowered self lineno body s) in Hs. subst s1.
    rewrite leave_run in H. inversion H; subst r. destruct Hr.
  - exists frame, visited. split; [exact Hf | exact Hs].
  - exists frame, visited. split; [exact Hf | exact Hs].
Qed.

(** C5, as the code has it: when lowering a function definition returns,
    the handle stack is as it was before and no scope frame is left; when
    it raises, nothing is popped: the handle pushed on entry is still on
    the handle stack, and, for a body that reaches no nested function
    definition, the state is the one the body was entered in, with the
    frame of the function as the one frame of its scope context, holding
    the statements not visited yet. *)
Theorem handle_and_scope_discipline (self : KernelNodeVisitor) (fuel : nat)
    (lineno : Z) (name : string) (body : list node) (s : VState) :
  match visit self fuel (FunctionDef lineno name body) s with
  | (Ok _, s') =>
      session_handle_var_ctx s' = session_handle_var_ctx s /\ no_frame s'
  | (Raise _, s') =>
      (exists extra,
         session_handle_var_ctx s'
         = session_handle_var_ctx s ++ pointer_var :: extra)
      /\ (existsb visits_def body = false ->
          exists frame visited,
            rev body = frame ++ visited
            /\ s' = with_context
                      (with_node_stack [frame]
                         (entered_context self lineno body))
                      (entered self lineno body s)
            /\ session_handle_var_ctx s'
               = session_handle_var_ctx s ++ [pointer_var])
  | (OutOfFuel, _) => True
  end.
Proof.
  destruct fuel as [|fuel]; [exact I|].
  destruct (visit self (S fuel) (FunctionDef lineno name body) s)
    as [r s'] eqn:E.
  pose proof (visit_FunctionDef_result _ _ _ _ _ _ _ _ E) as [_ H].
  destruct r as [val|e|]; [| |exact I].
  - destruct H as [body0 [last0 [body_stmts [_ [_ [_ ->]]]]]].
    split; [reflexivity|]. eexists. split; reflexivity.
  - split; [exact H|]. intros Hdef.
    destruct (visit_FunctionDef_frame_left _ _ _ _ _ _ _ _ Hdef E I)
      as [frame [visited [Hf Hs]]].
    exists frame, visited. split; [exact Hf|]. split; [exact Hs|].
    rewrite Hs. reflexivity.
Qed.

Lemma handle_and_scope_discipline_witness :
  exists e s',
    visit Sample.self 3 Sample.pass_def initial_state = (Raise e, s')
    /\ session_handle_var_ctx s' = [pointer_var]
    /\ exists frame,
         s' = with_context
                (with_node_stack [frame]
                   (entered_context Sample.self 1 [Other "Pass" []]))
                (entered Sample.self 1 [Other "Pass" []] initial_state).
Proof.
  pose proof (handle_and_scope_discipline Sample.self 3 1 "foo"
                [Other "Pass" []] initial_state) as H.
  change (FunctionDef 1 "foo" [Other "Pass" []]) with Sample.pass_def in H.
  destruct (visit Sample.self 3 Sample.pass_def initial_state)
    as [[val|e|] s'] eqn:E; try discriminate E.
  destruct H as [_ H].
  destruct (H eq_refl) as [frame [visited [_ [Hs Hh]]]].
  exists e, s'. split; [reflexivity|]. split; [exact Hh|].
  exists frame. exact Hs.
Defined.

(** C5 as stated fails: lowering [def foo(a, b): pass] raises, and leaves
    the handle on the handle stack and the frame of the function on the
    scope stack. *)
Lemma raise_leaves_frame_and_handle :
  let r := visit Sample.self 3 Sample.pass_def initial_state in
  fst r = Raise node_not_supported
  /\ session_handle_var_ctx initial_state = []
  /\ session_handle_var_ctx (snd r) = [pointer_var]
  /\ exists ctx,
       self_context (snd r) = Some ctx
       /\ List.length (node_stack ctx) = 1%nat
       /\ List.length (symbols ctx) = 1%nat.
Proof.
  vm_compute. repeat split. eexists. repeat split.
Qed.

(** A definition nested in the body makes its own scope context the one
    of the visitor: once it has returned, the function it lowered to is
    refused as a statement, and the outer definition ends with its handle
    on the handle stack and no frame on the scope stack. *)
Lemma nested_definition_leaves_no_frame :
  let r := visit Sample.self 5
             (FunctionDef 1 "foo" [FunctionDef 2 "inner" []]) initial_state in
  fst r = Raise (Exn SyntaxError "Every IR node here should be a stmt!" None)
  /\ session_handle_var_ctx (snd r) = [pointer_var]
  /\ no_frame (snd r).
Proof.
  split; [vm_compute; reflexivity|]. split; [vm_compute; reflexivity|].
  eexists. split; vm_compute; reflexivity.
Qed.

(** ** The tables of the kernel parser *)

Lemma getitem_not_in_keys {V : Type} (d : Dict.t V) (k : string) :
  ~ In k (Dict.keys d) -> Dict.getitem d k = None.
Proof.
  intros H. destruct (Dict.getitem d k) as [v|] eqn:E; [|reflexivity].
  exfalso. apply H. now apply (in_keys_of_getitem _ _ v).
Qed.

Lemma getitem_update_other {V : Type} (other : Dict.t V) :
  forall (d : Dict.t V) (k : string),
    ~ In k (Dict.keys other) ->
    Dict.getitem (Dict.update d other) k = Dict.getitem d k.
Proof.
  unfold Dict.update.
  induction other as [|[k1 v1] other IH]; simpl; intros d k H;
    [reflexivity|].
  rewrite IH by tauto. rewrite getitem_setitem.
  destruct (String.eqb k k1) eqn:E; [|reflexivity].
  apply String.eqb_eq in E. subst. tauto.
Qed.

Lemma getitem_update_found {V : Type} (other : Dict.t V) :
  forall (d : Dict.t V) (k : string) (v : V),
    NoDup (Dict.keys other) ->
    Dict.getitem other k = Some v ->
    Dict.getitem (Dict.update d other) k = Some v.
Proof.
  induction other as [|[k1 v1] other IH]; simpl; intros d k v Hnd H;
    [discriminate H|].
  inversion Hnd as [|? ? Hnotin Hnd']; subst.
  change (Dict.update d ((k1, v1) :: other))
    with (Dict.update (Dict.setitem d k1 v1) other).
  destruct (String.eqb k k1) eqn:E.
  - apply String.eqb_eq in E. subst k1. inversion H; subst v1.
    rewrite getitem_update_other by exact Hnotin.
    now rewrite getitem_setitem, String.eqb_refl.
  - now apply IH.
Qed.

Lemma extract_symbol_lookup (t : ArrayType) (d : dim) :
  In d (shape t) -> is_symbol d = true ->
  (forall d', In d' (shape t) -> is_symbol d' = true ->
              str_dim d' = str_dim d -> d' = d) ->
  Dict.getitem (extract_symbol_from_type t) (str_dim d) = Some d.
Proof.
  intros Hd Hs Huniq.
  assert (Hk : In (str_dim d) (Dict.keys (extract_symbol_from_type t)))
    by (apply extract_symbol_keys; eauto).
  apply getitem_In_keys in Hk as [v Hv]. rewrite Hv. f_equal.
  apply getitem_Some_In, extract_symbol_In in Hv as [Hin [Hsym Hname]].
  now apply Huniq.
Qed.

(** X13: of two symbolic dimensions that print the same name, the symbol
    table holds the one of the later parameter. *)
Theorem later_parameter_symbol_wins (func : PyFunction)
    (earlier : list (string * ArrayType)) (name : string) (t : ArrayType)
    (d : dim) :
  fn_parameters func = earlier ++ [(name, t)] ->
  NoDup (map fst (fn_parameters func)) ->
  In d (shape t) -> is_symbol d = true ->
  (forall d', In d' (shape t) -> is_symbol d' = true ->
              str_dim d' = str_dim d -> d' = d) ->
  Dict.getitem (kp_symbols (KernelParser_init func)) (str_dim d) = Some d.
Proof.
  intros Hps Hnd Hd Hs Huniq.
  pose proof (KernelParser_args_declared func Hnd) as Hargs.
  unfold KernelParser_init in *. cbn [kp_args kp_symbols] in *.
  rewrite Hargs, Hps. unfold Dict.values. rewrite map_app, fold_left_app.
  simpl. apply getitem_update_found.
  - apply extract_symbol_NoDup.
  - now apply extract_symbol_lookup.
Qed.

Lemma later_parameter_symbol_wins_witness :
  Dict.getitem
    (kp_symbols
       (KernelParser_init
          (mkPyFunction "f" "f.py"
             [("a", mkArrayType "int32" [DimSymbolic "M" 0]);
              ("b", mkArrayType "int32" [DimSymbolic "M" 1])]
             (mkArrayType "int32" [DimSymbolic "M" 0]))))
    "M"
  = Some (DimSymbolic "M" 1).
Proof.
  apply (later_parameter_symbol_wins
           (mkPyFunction "f" "f.py"
              [("a", mkArrayType "int32" [DimSymbolic "M" 0]);
               ("b", mkArrayType "int32" [DimSymbolic "M" 1])]
              (mkArrayType "int32" [DimSymbolic "M" 0]))
           [("a", mkArrayType "int32" [DimSymbolic "M" 0])]
           "b" (mkArrayType "int32" [DimSymbolic "M" 1])
           (DimSymbolic "M" 1)).
  - reflexivity.
  - simpl. repeat constructor; simpl; intuition discriminate.
  - simpl. tauto.
  - reflexivity.
  - simpl. intros d' [<-|[]] _ _. reflexivity.
Defined.

(** X14: the argument table of a kernel parser is the parameter list: a
    declared name looks up its annotation, any other name nothing. *)
Theorem kernel_parser_arguments (func : PyFunction) :
  NoDup (map fst (fn_parameters func)) ->
  let kp := KernelParser_init func in
  Dict.keys (kp_args kp) = map fst (fn_parameters func)
  /\ (forall name t,
        In (name, t) (fn_parameters func) ->
        Dict.getitem (kp_args kp) name = Some t)
  /\ (forall name,
        ~ In name (map fst (fn_parameters func)) ->
        Dict.getitem (kp_args kp) name = None).
Proof.
  intros Hnd kp.
  assert (Hargs : kp_args kp = fn_parameters func)
    by (apply KernelParser_args_declared; exact Hnd).
  rewrite Hargs. split; [reflexivity|]. split.
  - intros name t Hin. now apply getitem_NoDup.
  - intros name Hn. now apply getitem_not_in_keys.
Qed.

Lemma kernel_parser_arguments_witness :
  Dict.getitem (kp_args (KernelParser_init Sample.foo)) "b"
  = Some Sample.int32_MN
  /\ Dict.getitem (kp_args (KernelParser_init Sample.foo)) "c" = None.
Proof.
  destruct (kernel_parser_arguments Sample.foo) as [_ [Hin Hout]].
  - simpl. repeat constructor; simpl; intuition discriminate.
  - split.
    + apply Hin. simpl. tauto.
    + apply Hout. simpl. intuition discriminate.
Defined.

(** ** The steps of [from_source] *)

(** X15: [from_source] returns exactly when its five steps do, one after
    the other, whatever the mode: the code that is exported and built is
    the formatted one, and the context that comes back is the new one
    with the built module set. *)
Theorem from_source_returns
    {CompilingObj Inputs FakeOutput ScriptCtx RtModule : Type}
    (steps : InductorSteps CompilingObj Inputs FakeOutput ScriptCtx RtModule)
    (MATX_DEV_MODE : bool) (compiling_obj : CompilingObj)
    (example_inputs : Inputs) (result : ScriptCtx) :
  from_source steps MATX_DEV_MODE compiling_obj example_inputs = Ok result
  <-> exists sc_ctx code kernel_name fake_output formatted rt_module,
        new_script_context _ _ _ _ _ steps compiling_obj = Ok sc_ctx
        /\ extract_inductor_code _ _ _ _ _ steps compiling_obj example_inputs
           = Ok (code, kernel_name, fake_output)
        /\ matx_cpp_code_format _ _ _ _ _ steps code kernel_name
                                example_inputs fake_output = Ok formatted
        /\ export_code _ _ _ _ _ steps sc_ctx formatted = Ok tt
        /\ build_module _ _ _ _ _ steps formatted = Ok rt_module
        /\ result = set_rt_module _ _ _ _ _ steps sc_ctx rt_module.
Proof.
  unfold from_source, from_source_try, and_then. split.
  - intros H.
    destruct (new_script_context _ _ _ _ _ steps compiling_obj)
      as [sc_ctx|e|] eqn:E1;
      [| destruct MATX_DEV_MODE; discriminate H | discriminate H].
    destruct (extract_inductor_code _ _ _ _ _ steps compiling_obj
                                    example_inputs)
      as [[[code kernel_name] fake_output]|e|] eqn:E2;
      [| destruct MATX_DEV_MODE; discriminate H | discriminate H].
    cbn [fst snd] in H.
    destruct (matx_cpp_code_format _ _ _ _ _ steps code kernel_name
                                   example_inputs fake_output)
      as [formatted|e|] eqn:E3;
      [| destruct MATX_DEV_MODE; discriminate H | discriminate H].
    destruct (export_code _ _ _ _ _ steps sc_ctx formatted)
      as [[]|e|] eqn:E4;
      [| destruct MATX_DEV_MODE; discriminate H | discriminate H].
    destruct (build_module _ _ _ _ _ steps formatted)
      as [rt_module|e|] eqn:E5;
      [| destruct MATX_DEV_MODE; discriminate H | discriminate H].
    inversion H; subst result.
    exists sc_ctx, code, kernel_name, fake_output, formatted, rt_module.
    repeat split; first [assumption | reflexivity].
  - intros [sc_ctx [code [kernel_name [fake_output [formatted [rt_module
             [E1 [E2 [E3 [E4 [E5 ->]]]]]]]]]]].
    rewrite E1, E2. cbn [fst snd]. rewrite E3, E4, E5. reflexivity.
Qed.

Lemma from_source_returns_witness :
  from_source
    (mkInductorSteps unit unit unit (list string) string
       (fun _ => Ok [])
       (fun _ _ => Ok ("kernel", "kernel_0", tt))
       (fun code kernel_name _ _ => Ok (kernel_name ++ ": " ++ code)%string)
       (fun _ _ => Ok tt)
       (fun code => Ok code)
       (fun sc_ctx rt_module => rt_module :: sc_ctx))
    false tt tt
  = Ok ["kernel_0: kernel"].
Proof.
  apply from_source_returns.
  exists [], "kernel", "kernel_0", tt, "kernel_0: kernel",
         "kernel_0: kernel".
  repeat split; reflexivity.
Defined.

(** ** Lowering does not depend on what the visitor did before *)

Lemma get_type_Ok_inv (self : KernelNodeVisitor) (operand : pyval)
    (t : ArrayType) :
  _get_type self operand = Ok t ->
  exists a, operand = VStr a
            /\ In a (Dict.keys (kp_args (kernel_p self))).
Proof.
  destruct operand; try discriminate. simpl.
  destruct (Dict.getitem (kp_args (kernel_p self)) s) eqn:E;
    [|discriminate].
  intros _. exists s. split; [reflexivity|].
  now apply (in_keys_of_getitem _ _ a).
Qed.

Section Agreeing.
Variable self : KernelNodeVisitor.

Lemma agreeing_const {A : Type} (m : M A) (o : outcome A) :
  (forall s, m s = (o, s)) -> agreeing self m.
Proof.
  intros Hm s1 s2 r1 s1' r2 s2' Hag H1 H2.
  rewrite Hm in H1, H2. inversion H1; inversion H2; subst. now split.
Qed.

Lemma agreeing_ret {A : Type} (a : A) : agreeing self (ret a).
Proof. now apply (agreeing_const _ (Ok a)). Qed.

Lemma agreeing_raise {A : Type} (k : exn_kind) (msg : string) :
  agreeing self (@raise A k msg).
Proof. now apply (agreeing_const _ (Raise (Exn k msg None))). Qed.

Lemma agreeing_out_of_fuel {A : Type} : agreeing self (@out_of_fuel A).
Proof. now apply (agreeing_const _ OutOfFuel). Qed.

Lemma agreeing_lift {A : Type} (o : outcome A) : agreeing self (lift o).
Proof. now apply (agreeing_const _ o). Qed.

Lemma agreeing_subscript {V : Type} (d : Dict.t V) (key : pyval) :
  agreeing self (subscript d key).
Proof.
  unfold subscript. destruct key; try apply agreeing_raise.
  destruct (Dict.getitem d s); [apply agreeing_ret | apply agreeing_raise].
Qed.

Lemma agreeing_bind {A B : Type} (m : M A) (k : A -> M B) :
  agreeing self m -> (forall a, agreeing self (k a)) ->
  agreeing self (bind m k).
Proof.
  intros Hm Hk s1 s2 r1 s1' r2 s2' Hag H1 H2.
  apply bind_inv in H1 as [[a1 [t1 [M1 K1]]]|[[e1 [M1 ->]]|[M1 ->]]];
    apply bind_inv in H2 as [[a2 [t2 [M2 K2]]]|[[e2 [M2 ->]]|[M2 ->]]];
    destruct (Hm _ _ _ _ _ _ Hag M1 M2) as [Er Hag'];
    try discriminate Er.
  - inversion Er; subst a2. exact (Hk _ _ _ _ _ _ _ Hag' K1 K2).
  - inversion Er; subst. now split.
  - now split.
Qed.

(** After a call of a collaborator, what follows is looked at for the
    value it returned only. *)
Lemma agreeing_bind_lift {A B : Type} (o : outcome A) (k : A -> M B) :
  (forall a, o = Ok a -> agreeing self (k a)) ->
  agreeing self (bind (lift o) k).
Proof.
  intros Hk. destruct o as [a|e|].
  - intros s1 s2 r1 s1' r2 s2' Hag H1 H2.
    exact (Hk a eq_refl _ _ _ _ _ _ Hag H1 H2).
  - now apply (agreeing_const _ (Raise e)).
  - now apply (agreeing_const _ OutOfFuel).
Qed.

Lemma agreeing_get_context : agreeing self get_context.
Proof.
  intros s1 s2 r1 s1' r2 s2' Hag H1 H2.
  pose proof Hag as [Hc _].
  unfold get_context, bind, get_state in H1, H2. rewrite Hc in H1.
  destruct (self_context s2);
    inversion H1; inversion H2; subst; now split.
Qed.

Lemma agreeing_set_context (ctx : ScopeContext) :
  agreeing self (set_context ctx).
Proof.
  intros s1 s2 r1 s1' r2 s2' [_ [Hr Hb]] H1 H2.
  rewrite set_context_run in H1, H2.
  inversion H1; inversion H2; subst. split; [reflexivity|].
  repeat split; assumption.
Qed.

(** The buffers a binary operation reads are those of declared
    parameters. *)
Lemma agreeing_buffers (a b : string)
    (f : Buffer -> Buffer -> option Buffer -> outcome pyval) :
  In a (Dict.keys (kp_args (kernel_p self))) ->
  In b (Dict.keys (kp_args (kernel_p self))) ->
  agreeing self
    (s <- get_state ;;
     lhs_b <- subscript (buffer_table s) (VStr a) ;;
     rhs_b <- subscript (buffer_table s) (VStr b) ;;
     lift (f lhs_b rhs_b (return_buffer s))).
Proof.
  intros Ha Hb s1 s2 r1 s1' r2 s2' Hag H1 H2.
  pose proof Hag as [_ [Hr Hbuf]].
  unfold bind, get_state, subscript, lift, ret, raise in H1, H2.
  rewrite (Hbuf a Ha), (Hbuf b Hb), Hr in H1.
  destruct (Dict.getitem (buffer_table s2) a);
    destruct (Dict.getitem (buffer_table s2) b);
    try (destruct (f _ _ _));
    inversion H1; inversion H2; subst; now split.
Qed.

Ltac agreeing_step :=
  first
    [ apply agreeing_ret
    | apply agreeing_raise
    | apply agreeing_lift
    | apply agreeing_get_context
    | apply agreeing_set_context
    | apply agreeing_subscript
    | assumption
    | apply agreeing_bind; [|intros]
    | match goal with
      | H : forall n, agreeing self (?v n) |- agreeing self (?v _) => apply H
      | |- agreeing self (match ?x with _ => _ end) => destruct x
      | |- agreeing self (if ?x then _ else _) => destruct x
      end ].

Section AgreeingMethods.
Variable visit' : node -> M pyval.
Hypothesis visit_agreeing : forall n, agreeing self (visit' n).
Hypothesis visit_respects : forall n, respects self (visit' n).
Hypothesis visit_bare_return : bare_return_visit self visit'.
Variable fuel : nat.

Lemma agreeing_visit_Constant (n : node) :
  agreeing self (visit_Constant self fuel visit' n).
Proof. unfold visit_Constant, attribute_error. repeat agreeing_step. Qed.

Lemma agreeing_visit_Name (n : node) :
  agreeing self (visit_Name self fuel visit' n).
Proof. unfold visit_Name, attribute_error. repeat agreeing_step. Qed.

Lemma agreeing_visit_UnaryOp (n : node) :
  agreeing self (visit_UnaryOp self fuel visit' n).
Proof. unfold visit_UnaryOp, attribute_error. repeat agreeing_step. Qed.

Lemma agreeing_visit_keyword (n : node) :
  agreeing self (visit_keyword self fuel visit' n).
Proof. unfold visit_keyword, attribute_error. repeat agreeing_step. Qed.

Lemma agreeing_visit_Attribute (n : node) :
  agreeing self (visit_Attribute self fuel visit' n).
Proof. unfold visit_Attribute, attribute_error. repeat agreeing_step. Qed.

Lemma agreeing_visit_Assign (n : node) :
  agreeing self (visit_Assign self fuel visit' n).
Proof. unfold visit_Assign, attribute_error. repeat agreeing_step. Qed.

Lemma agreeing_visit_Return (n : node) :
  agreeing self (visit_Return self fuel visit' n).
Proof. unfold visit_Return, attribute_error. repeat agreeing_step. Qed.

Lemma agreeing_visit_BinOp (n : node) :
  agreeing self (visit_BinOp self fuel visit' n).
Proof.
  unfold visit_BinOp, attribute_error.
  destruct n; try apply agreeing_raise.
  apply agreeing_bind; [apply visit_agreeing|]. intros lhs.
  apply agreeing_bind; [apply visit_agreeing|]. intros rhs.
  apply agreeing_bind_lift. intros lhs_t Hl.
  apply agreeing_bind_lift. intros rhs_t Hr.
  apply agreeing_bind_lift. intros f _.
  apply get_type_Ok_inv in Hl as [a [-> Ha]].
  apply get_type_Ok_inv in Hr as [b [-> Hb]].
  apply agreeing_bind; [apply agreeing_get_context|]. intros ctx.
  destruct (symbols ctx) as [|symbols0 rest]; [apply agreeing_raise|].
  apply agreeing_bind; [apply agreeing_subscript|]. intros lhs_v.
  apply agreeing_bind; [apply agreeing_subscript|]. intros rhs_v.
  exact (agreeing_buffers a b
           (fun lhs_b rhs_b ret_b => f lhs_v rhs_v lhs_b rhs_b ret_b
                                       lhs_t rhs_t) Ha Hb).
Qed.

Lemma agreeing_parse_body_loop (k : nat) :
  forall body last_ast,
    agreeing self (parse_body_loop visit' k body last_ast).
Proof.
  induction k as [|k IH]; intros body last_ast; simpl.
  - apply agreeing_out_of_fuel.
  - repeat agreeing_step; apply IH.
Qed.

Lemma agreeing_parse_body (k : nat) (auto_add_return : bool) :
  agreeing self (parse_body visit' k auto_add_return).
Proof.
  unfold parse_body.
  apply agreeing_bind; [apply agreeing_parse_body_loop|]. intros r.
  repeat agreeing_step.
Qed.

(** From any two states a function definition has the same outcome. *)
Lemma visit_FunctionDef_any_state (lineno : Z) (name : string)
    (body : list node) (s1 s2 s1' s2' : VState) (r1 r2 : outcome pyval) :
  visit_FunctionDef self fuel visit' (FunctionDef lineno name body) s1
  = (r1, s1') ->
  visit_FunctionDef self fuel visit' (FunctionDef lineno name body) s2
  = (r2, s2') ->
  r1 = r2 /\ agree self s1' s2'.
Proof.
  intros H1 H2.
  pose proof (visit_FunctionDef_spec self visit' visit_respects
                visit_bare_return _ _ _ _ _ _ _ H1) as [[Hb1 Hr1] Hspec1].
  pose proof (visit_FunctionDef_spec self visit' visit_respects
                visit_bare_return _ _ _ _ _ _ _ H2) as [[Hb2 Hr2] Hspec2].
  rewrite visit_FunctionDef_enter in H1, H2.
  assert (Hag : agree self (entered self lineno body s1)
                      (entered self lineno body s2)).
  { split; [reflexivity|]. split; [reflexivity|]. intros a Ha.
    destruct (entered_buffers self lineno body s1) as [B1 _].
    destruct (entered_buffers self lineno body s2) as [B2 _].
    now rewrite (B1 a Ha), (B2 a Ha). }
  apply bind_inv in H1 as [[b1 [t1 [M1 K1]]]|[[e1 [M1 ->]]|[M1 ->]]];
    apply bind_inv in H2 as [[b2 [t2 [M2 K2]]]|[[e2 [M2 ->]]|[M2 ->]]];
    destruct (agreeing_parse_body fuel true _ _ _ _ _ _ Hag M1 M2)
      as [Er Hag'];
    try discriminate Er.
  - inversion Er; subst b2. split.
    + destruct r1 as [v1|e1|], r2 as [v2|e2|];
        try (destruct Hspec1 as [? [? [? [_ [_ [_ Es1]]]]]]);
        try (destruct Hspec2 as [? [? [? [_ [_ [_ Es2]]]]]]).
      all: destruct (parse_body_spec self visit' visit_respects
                       visit_bare_return _ _ _ _ M1) as [_ [_ Ok1]];
        destruct (parse_body_spec self visit' visit_respects
                    visit_bare_return _ _ _ _ M2) as [_ [_ Ok2]];
        destruct (Ok1 _ eq_refl)
          as [c1 [bl1 [fr1 [_ [_ [Hc1 [Hn1 [Ht1 _]]]]]]]];
        destruct (Ok2 _ eq_refl)
          as [c2 [bl2 [fr2 [_ [_ [Hc2 [Hn2 [Ht2 _]]]]]]]];
        simpl in Hc1, Hc2; inversion Hc1; inversion Hc2; subst c1 c2;
        unfold entered_context in Hn1, Hn2; simpl in Hn1, Hn2;
        change [rev body] with ([] ++ [rev body]) in Hn1, Hn2;
        apply app_inj_tail in Hn1 as [<- <-];
        apply app_inj_tail in Hn2 as [<- <-];
        change (t1 = body_lowered self lineno body s1) in Ht1;
        change (t2 = body_lowered self lineno body s2) in Ht2;
        subst t1 t2; rewrite leave_run in K1, K2;
        inversion K1; inversion K2; reflexivity.
    + split; [|split].
      * destruct (parse_body_spec self visit' visit_respects
                    visit_bare_return _ _ _ _ M1) as [_ [_ Ok1]].
        destruct (parse_body_spec self visit' visit_respects
                    visit_bare_return _ _ _ _ M2) as [_ [_ Ok2]].
        destruct (Ok1 _ eq_refl)
          as [c1 [bl1 [fr1 [_ [_ [Hc1 [Hn1 [Ht1 _]]]]]]]].
        destruct (Ok2 _ eq_refl)
          as [c2 [bl2 [fr2 [_ [_ [Hc2 [Hn2 [Ht2 _]]]]]]]].
        simpl in Hc1, Hc2. inversion Hc1; inversion Hc2; subst c1 c2.
        unfold entered_context in Hn1, Hn2. simpl in Hn1, Hn2.
        change [rev body] with ([] ++ [rev body]) in Hn1, Hn2.
        apply app_inj_tail in Hn1 as [<- <-].
        apply app_inj_tail in Hn2 as [<- <-].
        change (t1 = body_lowered self lineno body s1) in Ht1.
        change (t2 = body_lowered self lineno body s2) in Ht2.
        subst t1 t2. rewrite leave_run in K1, K2.
        inversion K1; inversion K2. reflexivity.
      * congruence.
      * intros a Ha. now rewrite (Hb1 a Ha), (Hb2 a Ha).
  - inversion Er; subst. now split.
  - now split.
Qed.

Lemma agreeing_visit_FunctionDef (n : node) :
  agreeing self (visit_FunctionDef self fuel visit' n).
Proof.
  destruct n; try apply agreeing_raise.
  intros s1 s2 r1 s1' r2 s2' _ H1 H2.
  exact (visit_FunctionDef_any_state _ _ _ _ _ _ _ _ _ H1 H2).
Qed.
End AgreeingMethods.

Lemma visit_agreeing : forall fuel n, agreeing self (visit self fuel n).
Proof.
  induction fuel as [|fuel IH]; intros n.
  - apply agreeing_out_of_fuel.
  - rewrite visit_S.
    destruct (getattr_visitor ("visit_" ++ class_name n)%string)
      as [v|] eqn:E; [|apply agreeing_raise].
    apply getitem_Some_In in E. unfold visitor_methods in E. simpl in E.
    repeat (destruct E as [E|E];
            [ apply (f_equal snd) in E; simpl in E; subst v;
              first
                [ apply agreeing_visit_FunctionDef;
                  [ exact IH | apply visit_respects_state
                  | apply visit_bare_return_all ]
                | apply agreeing_visit_Constant
                | apply agreeing_visit_Name
                | apply agreeing_visit_UnaryOp; exact IH
                | apply agreeing_visit_BinOp; exact IH
                | apply agreeing_visit_keyword; exact IH
                | apply agreeing_visit_Attribute; exact IH
                | apply agreeing_visit_Assign; exact IH
                | apply agreeing_visit_Return; exact IH
                | apply agreeing_raise
                | apply agreeing_ret ]
            | ]).
    destruct E.
Qed.
End Agreeing.

(** X16: the outcome of lowering a function definition is the same from any
    state of the visitor: what an earlier lowering left on the handle
    stack, in the scope context or in the buffer table, even one that
    raised, is not seen. *)
Theorem lowering_ignores_earlier_state (self : KernelNodeVisitor)
    (fuel : nat) (lineno : Z) (name : string) (body : list node)
    (s1 s2 : VState) :
  fst (visit self fuel (FunctionDef lineno name body) s1)
  = fst (visit self fuel (FunctionDef lineno name body) s2).
Proof.
  destruct fuel as [|fuel]; [reflexivity|].
  destruct (visit self (S fuel) (FunctionDef lineno name body) s1)
    as [r1 s1'] eqn:H1.
  destruct (visit self (S fuel) (FunctionDef lineno name body) s2)
    as [r2 s2'] eqn:H2.
  rewrite visit_FunctionDef_S in H1, H2.
  exact (proj1 (visit_FunctionDef_any_state self (visit self fuel)
                  (visit_agreeing self fuel) (visit_respects_state self fuel)
                  (visit_bare_return_all self fuel) fuel
                  _ _ _ _ _ _ _ _ _ H1 H2)).
Qed.
